(** * Rate limiter and load balancer of the signaling gateway

    A shallow embedding of [src/rateLimiter.ts] and [src/loadBalancer.ts].

    Conventions of the embedding.
    - A JavaScript [number] that holds a count, a timestamp or a duration in
      milliseconds is a [Z], which is what a double holds exactly for the
      integers below 2^53; [Date.now()] is an explicit argument [now]. The
      connection counter of a node, which [updateServerStats] lets a caller
      overwrite with any value, is followed a second time over IEEE 754
      doubles, in [ConnectionCounter].
    - A [Map<string, T>] whose iteration order is never observed by the
      modelled operations is a [gmap string T]; the node registry, whose
      insertion order is what [Array.from(nodes.values())] hands to the
      strategies, is an association list kept in insertion order.
    - Mutation of an object stored in a map is an update of the map at its
      key; every method takes the object state and returns the new one. A
      health probe writes to the node object it was started with, which may
      have left the registry by the time the probe finishes: both cases
      are modelled ([ProbedNode]).
    - JavaScript truthiness is written out: [undefined] and [0] are falsy
      for an optional number, the empty string is falsy for a string. *)

From Stdlib Require Import ZArith NArith QArith Qminmax List String Ascii Bool Lia.
From Stdlib Require Import SpecFloat.
From stdpp Require Import gmap strings list fin_maps.

Local Open Scope Z_scope.

(** ** Shared helpers *)

(** [Math.ceil(x / 1000)] for an integral [x]. *)
Definition ceil_div_1000 (x : Z) : Z := (x + 999) / 1000.

(** Truthiness of an optional number: [undefined] and [0] are falsy. *)
Definition truthy_num (o : option Z) : bool :=
  match o with
  | Some t => negb (t =? 0)
  | None => false
  end.

(** Truthiness of an optional boolean flag. *)
Definition truthy_flag (o : option bool) : bool :=
  match o with
  | Some b => b
  | None => false
  end.

(** Truthiness of a string: only the empty string is falsy. *)
Definition truthy_str (s : string) : bool :=
  match s with
  | EmptyString => false
  | _ => true
  end.

(** ** The rate limiter ([src/rateLimiter.ts]) *)

Module RateLimiter.

(** [windowMs] is a number of milliseconds and [max] a number of
    requests: integers. *)
Record RateLimitConfig := mkConfig {
  windowMs : Z;
  max : Z;
  skipSuccessfulRequests : option bool;
  skipFailedRequests : option bool
}.

Record ClientData := mkClient {
  requests : list Z;
  blocked : bool;
  blockedUntil : option Z;
  warnings : Z;
  totalRequests : Z;
  suspiciousActivity : bool
}.

Record CheckResult := mkResult {
  allowed : bool;
  remaining : Z;
  retryAfter : option Z
}.

Record t := mkLimiter {
  config : RateLimitConfig;
  clients : gmap string ClientData
}.

(** The constructor: [config.windowMs || 60000] and [config.max || 100]. *)
Definition create (cfg : RateLimitConfig) : t :=
  {| config := {| windowMs := if windowMs cfg =? 0 then 60000 else windowMs cfg;
                  max := if max cfg =? 0 then 100 else max cfg;
                  skipSuccessfulRequests := skipSuccessfulRequests cfg;
                  skipFailedRequests := skipFailedRequests cfg |};
     clients := ∅ |}.

(** The object literal used for a client seen for the first time. *)
Definition freshClient : ClientData :=
  {| requests := []; blocked := false; blockedUntil := None;
     warnings := 0; totalRequests := 0; suspiciousActivity := false |}.

Definition set_requests (r : list Z) (c : ClientData) : ClientData :=
  mkClient r (blocked c) (blockedUntil c) (warnings c) (totalRequests c)
           (suspiciousActivity c).

Definition set_block (b : bool) (u : option Z) (c : ClientData) : ClientData :=
  mkClient (requests c) b u (warnings c) (totalRequests c)
           (suspiciousActivity c).

Definition set_warnings (w : Z) (c : ClientData) : ClientData :=
  mkClient (requests c) (blocked c) (blockedUntil c) w (totalRequests c)
           (suspiciousActivity c).

Definition set_totalRequests (n : Z) (c : ClientData) : ClientData :=
  mkClient (requests c) (blocked c) (blockedUntil c) (warnings c) n
           (suspiciousActivity c).

Definition set_suspicious (s : bool) (c : ClientData) : ClientData :=
  mkClient (requests c) (blocked c) (blockedUntil c) (warnings c)
           (totalRequests c) s.

(** [getBlockDuration]: [Math.pow(2, e)] is [2 ^ e]; the two agree on the
    exponents [0 .. 5] that a non-negative warning count produces. *)
Definition getBlockDuration (c : ClientData) : Z :=
  let baseBlock := 60000 in
  let multiplier := Z.min (warnings c) 10 in
  if suspiciousActivity c then baseBlock * multiplier * 2
  else baseBlock * 2 ^ Z.min multiplier 5.

(** [detectSuspiciousActivity]: [n > max * 0.8] and [n > max * 0.9] on an
    integral [n] and [max] are the exact comparisons [10 n > 8 max] and
    [10 n > 9 max]. *)
Definition detectSuspiciousActivity (cfg : RateLimitConfig) (c : ClientData)
    (now : Z) : ClientData :=
  let recentRequests := List.filter (fun time => now - 10000 <? time) (requests c) in
  let c1 := if 8 * max cfg <? 10 * Z.of_nat (length recentRequests)
            then set_suspicious true c else c in
  if 9 * max cfg <? 10 * Z.of_nat (length (requests c1))
  then set_suspicious true c1 else c1.

(** The test [client.blocked && client.blockedUntil && now < client.blockedUntil]. *)
Definition stillBlocked (c : ClientData) (now : Z) : bool :=
  blocked c && truthy_num (blockedUntil c) &&
  match blockedUntil c with Some u => now <? u | None => false end.

(** The test [client.blocked && client.blockedUntil && now >= client.blockedUntil]. *)
Definition blockExpired (c : ClientData) (now : Z) : bool :=
  blocked c && truthy_num (blockedUntil c) &&
  match blockedUntil c with Some u => u <=? now | None => false end.

Definition put (rl : t) (clientId : string) (c : ClientData) : t :=
  {| config := config rl; clients := <[clientId := c]> (clients rl) |}.

(** The body of [checkLimit] once the client object has been looked up or
    created: the result and the client object as the call leaves it. *)
Definition checkClient (cfg : RateLimitConfig) (client : ClientData)
    (isSuccess : bool) (now : Z) : CheckResult * ClientData :=
  if stillBlocked client now then
    ({| allowed := false; remaining := 0;
        retryAfter := match blockedUntil client with
                      | Some u => Some (ceil_div_1000 (u - now))
                      | None => None
                      end |},
     client)
  else
    let client :=
      if blockExpired client now
      then set_requests [] (set_block false None client)
      else client in
    if (isSuccess && truthy_flag (skipSuccessfulRequests cfg)) ||
       (negb isSuccess && truthy_flag (skipFailedRequests cfg))
    then ({| allowed := true; remaining := max cfg; retryAfter := None |}, client)
    else
      let windowStart := now - windowMs cfg in
      let client :=
        set_requests (List.filter (fun time => windowStart <? time) (requests client))
                     client in
      let client := set_totalRequests (totalRequests client + 1) client in
      let client := detectSuspiciousActivity cfg client now in
      if max cfg <=? Z.of_nat (length (requests client)) then
        let client := set_block true (Some (now + getBlockDuration client)) client in
        let client := set_warnings (warnings client + 1) client in
        ({| allowed := false; remaining := 0;
            retryAfter := Some (ceil_div_1000 (getBlockDuration client)) |},
         client)
      else
        let client := set_requests (requests client ++ [now]) client in
        ({| allowed := true;
            remaining := max cfg - Z.of_nat (length (requests client));
            retryAfter := None |},
         client).

(** [checkLimit(clientId, isSuccess)] at time [now]: the client object is
    fetched from the map, or created and stored, and then mutated in place. *)
Definition checkLimit (rl : t) (clientId : string) (isSuccess : bool)
    (now : Z) : CheckResult * t :=
  let client := match clients rl !! clientId with
                | Some c => c
                | None => freshClient
                end in
  let '(result, client) := checkClient (config rl) client isSuccess now in
  (result, put rl clientId client).

(** A run of calls on one client object, each with its own clock reading;
    the results are listed in call order. *)
Fixpoint checkClients (cfg : RateLimitConfig) (client : ClientData)
    (times : list Z) : list CheckResult * ClientData :=
  match times with
  | [] => ([], client)
  | now :: rest =>
      let '(r, c1) := checkClient cfg client true now in
      let '(rs, c2) := checkClients cfg c1 rest in
      (r :: rs, c2)
  end.

(** [isBlocked(clientId)] at time [now]. *)
Definition isBlocked (rl : t) (clientId : string) (now : Z) : bool :=
  match clients rl !! clientId with
  | None => false
  | Some client => stillBlocked client now
  end.

Definition getClientStats (rl : t) (clientId : string) : option ClientData :=
  clients rl !! clientId.

(** [blacklistClient(clientId, duration = 24 * 60 * 60 * 1000)]: an omitted
    duration is [None]. *)
Definition blacklistClient (rl : t) (clientId : string) (duration : option Z)
    (now : Z) : t :=
  let duration := match duration with
                  | Some d => d
                  | None => 24 * 60 * 60 * 1000
                  end in
  let client := match clients rl !! clientId with
                | Some c => c
                | None => freshClient
                end in
  let client := set_block true (Some (now + duration)) client in
  let client := set_suspicious true client in
  put rl clientId client.

Definition whitelistClient (rl : t) (clientId : string) : t :=
  match clients rl !! clientId with
  | Some client =>
      put rl clientId
        (set_suspicious false
           (set_warnings 0 (set_requests [] (set_block false None client))))
  | None => rl
  end.

(** [cleanup()] at time [now]; [Math.max(...client.requests, 0)] is the fold. *)
Definition cleanup (rl : t) (now : Z) : t :=
  let cleanupThreshold := now - windowMs (config rl) * 3 in
  {| config := config rl;
     clients :=
       omap (fun client =>
               let lastRequest := fold_right Z.max 0 (requests client) in
               if negb (blocked client) && (lastRequest <? cleanupThreshold)
               then None
               else if blocked client && truthy_num (blockedUntil client) &&
                       match blockedUntil client with
                       | Some u => u <? now
                       | None => false
                       end
               then Some (set_requests [] (set_block false None client))
               else Some client)
            (clients rl) |}.

(** The same run through [checkLimit], with [isSuccess] left at its
    default. *)
Fixpoint checkLimits (rl : t) (clientId : string) (times : list Z)
    : list CheckResult * t :=
  match times with
  | [] => ([], rl)
  | now :: rest =>
      let '(r, rl1) := checkLimit rl clientId true now in
      let '(rs, rl2) := checkLimits rl1 clientId rest in
      (r :: rs, rl2)
  end.

(** *** The remaining methods of [RateLimiter] *)

Definition getAllClients (rl : t) : gmap string ClientData := clients rl.

Record LimiterStats := mkLimiterStats {
  stat_totalClients : Z;
  stat_blockedClients : Z;
  stat_suspiciousClients : Z;
  stat_totalRequests : Z
}.

(** One iteration of the loop of [getStats] over [clients.values()]: the
    three running counters. *)
Definition countClient (client : ClientData) (acc : Z * Z * Z) : Z * Z * Z :=
  let '(blockedClients, suspiciousClients, totalRequests) := acc in
  (if blocked client then blockedClients + 1 else blockedClients,
   if suspiciousActivity client then suspiciousClients + 1 else suspiciousClients,
   totalRequests + RateLimiter.totalRequests client).

Definition getStats (rl : t) : LimiterStats :=
  let '(blockedClients, suspiciousClients, totalRequests) :=
    map_fold (fun _ client acc => countClient client acc) (0, 0, 0) (clients rl) in
  {| stat_totalClients := Z.of_nat (size (clients rl));
     stat_blockedClients := blockedClients;
     stat_suspiciousClients := suspiciousClients;
     stat_totalRequests := totalRequests |}.

(** [destroy()]: the timer is cleared and the map emptied. *)
Definition destroy (rl : t) : t := {| config := config rl; clients := ∅ |}.

(** The calls that change a limiter, as one transition function; the
    periodic timer is the [Cleanup] call. *)
Inductive Op :=
| CheckLimit (clientId : string) (isSuccess : bool) (now : Z)
| BlacklistClient (clientId : string) (duration : option Z) (now : Z)
| WhitelistClient (clientId : string)
| Cleanup (now : Z)
| Destroy.

Definition step (rl : t) (op : Op) : t :=
  match op with
  | CheckLimit clientId isSuccess now => snd (checkLimit rl clientId isSuccess now)
  | BlacklistClient clientId duration now => blacklistClient rl clientId duration now
  | WhitelistClient clientId => whitelistClient rl clientId
  | Cleanup now => cleanup rl now
  | Destroy => destroy rl
  end.

(** Every client record holds fewer than [max + 1] request timestamps:
    [checkLimit] pushes one only after the test [length >= max] has
    failed. For the integer [max] of this module that is at most [max]
    timestamps. *)
Definition withinLimit (rl : t) : Prop :=
  map_Forall (fun _ client => Z.of_nat (length (requests client)) < max (config rl) + 1)
             (clients rl).

(** The configuration of the rate-limiter scenario:
    [{ windowMs: 60000, max: 3 }]. *)
Definition scenarioConfig : RateLimitConfig := mkConfig 60000 3 None None.

End RateLimiter.

(** ** The socket rate limiter ([SocketRateLimiter] in [src/rateLimiter.ts]) *)

Module SocketRateLimiter.

(** What [getClientId] reads of a socket: [handshake.address] and the
    [user-agent] header, when there is one. The header is held as the bytes
    that [Buffer.from] makes of it. *)
Record Socket := mkSocket {
  address : string;
  userAgent : option string
}.

Definition base64_alphabet : string :=
  "ABCDEFGHIJKLMNOPQRSTUVWXYZabcdefghijklmnopqrstuvwxyz0123456789+/".

Definition base64_char (n : N) : ascii :=
  match String.get (N.to_nat n) base64_alphabet with
  | Some c => c
  | None => "="%char
  end.

(** The four sextets of a group of three bytes. *)
Definition sextet0 (a : ascii) : ascii :=
  base64_char (N.shiftr (N_of_ascii a) 2).

Definition sextet1 (a b : ascii) : ascii :=
  base64_char (N.lor (N.shiftl (N.land (N_of_ascii a) 3) 4) (N.shiftr (N_of_ascii b) 4)).

Definition sextet2 (b c : ascii) : ascii :=
  base64_char (N.lor (N.shiftl (N.land (N_of_ascii b) 15) 2) (N.shiftr (N_of_ascii c) 6)).

Definition sextet3 (c : ascii) : ascii :=
  base64_char (N.land (N_of_ascii c) 63).

(** [buffer.toString('base64')]: the standard alphabet, padded with [=]. *)
Fixpoint base64 (bytes : string) : string :=
  match bytes with
  | EmptyString => EmptyString
  | String a EmptyString =>
      String (sextet0 a) (String (sextet1 a zero) (String "=" (String "=" EmptyString)))
  | String a (String b EmptyString) =>
      String (sextet0 a) (String (sextet1 a b) (String (sextet2 b zero)
        (String "=" EmptyString)))
  | String a (String b (String c rest)) =>
      String (sextet0 a) (String (sextet1 a b) (String (sextet2 b c)
        (String (sextet3 c) (base64 rest))))
  end.

(** [getClientId]: the address, a colon and the first ten characters of the
    base64 form of the user agent ([''] when the header is missing). *)
Definition getClientId (socket : Socket) : string :=
  let ip := address socket in
  let userAgent := match userAgent socket with
                   | Some ua => ua
                   | None => EmptyString
                   end in
  (ip ++ ":" ++ substring 0 10 (base64 userAgent))%string.

Record t := mkSocketLimiter {
  rateLimiter : RateLimiter.t;
  eventLimiters : gmap string RateLimiter.t
}.

(** The constructor: one limiter per entry of [eventConfigs], when the map
    is given. *)
Definition create (globalConfig : RateLimiter.RateLimitConfig)
    (eventConfigs : option (gmap string RateLimiter.RateLimitConfig)) : t :=
  {| rateLimiter := RateLimiter.create globalConfig;
     eventLimiters := match eventConfigs with
                      | Some configs => RateLimiter.create <$> configs
                      | None => ∅
                      end |}.

Record EventResult := mkEventResult {
  ev_allowed : bool;
  ev_retryAfter : option Z
}.

(** The error that [middleware] hands to [next]: its [data.retryAfter]. *)
Record RateLimitError := mkRateLimitError {
  err_retryAfter : option Z
}.

(** [middleware()] applied to a socket: [None] is the plain [next()]. *)
Definition middleware (sl : t) (socket : Socket) (now : Z)
    : option RateLimitError * t :=
  let clientId := getClientId socket in
  let '(result, rl) := RateLimiter.checkLimit (rateLimiter sl) clientId true now in
  (if RateLimiter.allowed result then None
   else Some (mkRateLimitError (RateLimiter.retryAfter result)),
   mkSocketLimiter rl (eventLimiters sl)).

Definition checkEventLimit (sl : t) (socket : Socket) (event : string) (now : Z)
    : EventResult * t :=
  let clientId := getClientId socket in
  match eventLimiters sl !! event with
  | None =>
      let '(result, rl) := RateLimiter.checkLimit (rateLimiter sl) clientId true now in
      (mkEventResult (RateLimiter.allowed result) (RateLimiter.retryAfter result),
       mkSocketLimiter rl (eventLimiters sl))
  | Some limiter =>
      let '(result, rl) := RateLimiter.checkLimit limiter clientId true now in
      (mkEventResult (RateLimiter.allowed result) (RateLimiter.retryAfter result),
       mkSocketLimiter (rateLimiter sl) (<[event := rl]> (eventLimiters sl)))
  end.

Definition blacklistSocket (sl : t) (socket : Socket) (duration : option Z)
    (now : Z) : t :=
  let clientId := getClientId socket in
  {| rateLimiter := RateLimiter.blacklistClient (rateLimiter sl) clientId duration now;
     eventLimiters :=
       (fun limiter => RateLimiter.blacklistClient limiter clientId duration now)
         <$> eventLimiters sl |}.

Definition getSocketStats (sl : t) (socket : Socket) : option RateLimiter.ClientData :=
  RateLimiter.getClientStats (rateLimiter sl) (getClientId socket).

Definition getAllStats (sl : t)
    : RateLimiter.LimiterStats * gmap string RateLimiter.LimiterStats :=
  (RateLimiter.getStats (rateLimiter sl), RateLimiter.getStats <$> eventLimiters sl).

Definition destroy (sl : t) : t :=
  {| rateLimiter := RateLimiter.destroy (rateLimiter sl); eventLimiters := ∅ |}.

End SocketRateLimiter.

(** ** The load balancer ([src/loadBalancer.ts]) *)

Module LoadBalancer.

(** [cpuUsage], [memoryUsage] and [responseTime] only enter the
    performance score, which is computed over the rationals. *)
Record ServerNode := mkNode {
  id : string;
  host : string;
  port : Z;
  isHealthy : bool;
  lastHealthCheck : Z;
  activeConnections : Z;
  maxConnections : Z;
  cpuUsage : Q;
  memoryUsage : Q;
  responseTime : Q;
  weight : Z
}.

(** The predicate of every strategy's [filter]:
    [node.isHealthy && node.activeConnections < node.maxConnections]. *)
Definition selectable (node : ServerNode) : bool :=
  isHealthy node && (activeConnections node <? maxConnections node).

(** *** Round-robin *)

Definition roundRobin_select (currentIndex : nat) (nodes : list ServerNode)
    : option ServerNode * nat :=
  let healthyNodes := List.filter selectable nodes in
  match healthyNodes with
  | [] => (None, currentIndex)
  | _ :: _ =>
      let server := nth_error healthyNodes (currentIndex mod length healthyNodes)%nat in
      (server, ((currentIndex + 1) mod length healthyNodes)%nat)
  end.

(** *** Least connections *)

(** [availableNodes.reduce((min, node) => ...)] without an initial value. *)
Definition leastConnections_select (nodes : list ServerNode) : option ServerNode :=
  let availableNodes := List.filter selectable nodes in
  match availableNodes with
  | [] => None
  | first :: rest =>
      Some (fold_left
              (fun min node =>
                 if activeConnections node <? activeConnections min then node else min)
              rest first)
  end.

(** *** Weighted round-robin *)

(** A queue entry holds a reference to a node object. The only field read
    through a reference that an earlier call stored is [id], which nothing
    reassigns; every entry that survives [updateWeightedQueue] has been
    pointed at a node of the current list before anything else is read.
    An entry therefore holds the node as it was when it was last pointed
    at. *)
Record QueueEntry := mkEntry {
  server : ServerNode;
  remainingWeight : Z
}.

Definition has_id (i : string) (entry : QueueEntry) : bool :=
  String.eqb (id (server entry)) i.

(** [entry.server = node] on the entry that [find] returns: the first one
    whose server has the node's id. *)
Fixpoint refreshFirst (node : ServerNode) (queue : list QueueEntry)
    : list QueueEntry :=
  match queue with
  | [] => []
  | entry :: rest =>
      if has_id (id node) entry
      then mkEntry node (remainingWeight entry) :: rest
      else entry :: refreshFirst node rest
  end.

(** One iteration of the [for (const node of nodes)] loop. *)
Definition reconcile (queue : list QueueEntry) (node : ServerNode)
    : list QueueEntry :=
  if negb (existsb (has_id (id node)) queue)
  then queue ++ [mkEntry node (weight node)]
  else refreshFirst node queue.

Definition updateWeightedQueue (queue : list QueueEntry)
    (nodes : list ServerNode) : list QueueEntry :=
  let kept :=
    List.filter
      (fun entry =>
         existsb (fun node => String.eqb (id node) (id (server entry)) && selectable node)
                 nodes)
      queue in
  fold_left reconcile nodes kept.

(** Index of the entry that [find] returns. *)
Fixpoint findIndex {A : Type} (p : A -> bool) (l : list A) : option nat :=
  match l with
  | [] => None
  | x :: rest =>
      if p x then Some O
      else match findIndex p rest with
           | Some i => Some (S i)
           | None => None
           end
  end.

Definition decrement (entry : QueueEntry) : QueueEntry :=
  mkEntry (server entry) (remainingWeight entry - 1).

Definition resetWeight (entry : QueueEntry) : QueueEntry :=
  mkEntry (server entry) (weight (server entry)).

(** The part of [selectServer] after the queue has been reconciled:
    [selectedEntry.remainingWeight--] is the update at the found index. *)
Definition pickEntry (queue : list QueueEntry)
    : option ServerNode * list QueueEntry :=
  match queue with
  | [] => (None, queue)
  | _ :: _ =>
      match findIndex (fun entry => 0 <? remainingWeight entry) queue with
      | Some i =>
          (server <$> queue !! i, alter decrement i queue)
      | None =>
          let queue := List.map resetWeight queue in
          (server <$> queue !! O, alter decrement O queue)
      end
  end.

Definition weighted_select (queue : list QueueEntry) (nodes : list ServerNode)
    : option ServerNode * list QueueEntry :=
  let healthyNodes := List.filter selectable nodes in
  match healthyNodes with
  | [] => (None, queue)
  | _ :: _ => pickEntry (updateWeightedQueue queue healthyNodes)
  end.

(** *** Performance based *)

Definition calculatePerformanceScore (node : ServerNode) : Q :=
  let connectionRatio := (inject_Z (activeConnections node) / inject_Z (maxConnections node))%Q in
  let cpuWeight := (3 # 10)%Q in
  let memoryWeight := (3 # 10)%Q in
  let connectionWeight := (2 # 10)%Q in
  let responseTimeWeight := (2 # 10)%Q in
  let normalizedResponseTime := Qmin (responseTime node / 1000) 1 in
  (cpuUsage node * cpuWeight +
   memoryUsage node * memoryWeight +
   connectionRatio * 100 * connectionWeight +
   normalizedResponseTime * 100 * responseTimeWeight)%Q.

(** The score is computed exactly, over the rationals, where the source
    rounds to doubles; a division by [maxConnections = 0] gives 0 here.
    [Array.prototype.sort] with the comparator [a.score - b.score] is a
    stable sort by score; it is written as an insertion sort that keeps
    the earlier of two equal scores in front. *)
Section StableSort.
Context {A : Type} (score : A -> Q).

Fixpoint insertByScore (x : A) (l : list A) : list A :=
  match l with
  | [] => [x]
  | y :: rest =>
      if Qle_bool (score x) (score y) then x :: y :: rest
      else y :: insertByScore x rest
  end.

Definition sortByScore (l : list A) : list A :=
  fold_right insertByScore [] l.
End StableSort.

Definition performance_select (nodes : list ServerNode) : option ServerNode :=
  let availableNodes := List.filter selectable nodes in
  match availableNodes with
  | [] => None
  | _ :: _ =>
      let scoredNodes :=
        List.map (fun node => (node, calculatePerformanceScore node)) availableNodes in
      let scoredNodes := sortByScore snd scoredNodes in
      fst <$> scoredNodes !! O
  end.

(** *** The strategy objects

    A strategy object is its class together with its private fields. *)
Inductive Strategy :=
| RoundRobinStrategy (currentIndex : nat)
| LeastConnectionsStrategy
| WeightedRoundRobinStrategy (weightedQueue : list QueueEntry)
| PerformanceBasedStrategy.

Definition name (s : Strategy) : string :=
  match s with
  | RoundRobinStrategy _ => "round-robin"
  | LeastConnectionsStrategy => "least-connections"
  | WeightedRoundRobinStrategy _ => "weighted-round-robin"
  | PerformanceBasedStrategy => "performance-based"
  end.

(** [strategy.selectServer(nodes)]: the selected node and the strategy
    object after the call. *)
Definition strategy_selectServer (s : Strategy) (nodes : list ServerNode)
    : option ServerNode * Strategy :=
  match s with
  | RoundRobinStrategy currentIndex =>
      let '(r, i) := roundRobin_select currentIndex nodes in
      (r, RoundRobinStrategy i)
  | LeastConnectionsStrategy => (leastConnections_select nodes, s)
  | WeightedRoundRobinStrategy queue =>
      let '(r, q) := weighted_select queue nodes in
      (r, WeightedRoundRobinStrategy q)
  | PerformanceBasedStrategy => (performance_select nodes, s)
  end.

(** The four strategy classes and the object each constructor builds. *)
Inductive StrategyClass := RoundRobin | LeastConnections | WeightedRoundRobin | PerformanceBased.

Definition newStrategy (c : StrategyClass) : Strategy :=
  match c with
  | RoundRobin => RoundRobinStrategy 0
  | LeastConnections => LeastConnectionsStrategy
  | WeightedRoundRobin => WeightedRoundRobinStrategy []
  | PerformanceBased => PerformanceBasedStrategy
  end.

(** The strategy object after a sequence of [selectServer] calls, one per
    node list of [calls]. *)
Definition afterCalls (s : Strategy) (calls : list (list ServerNode)) : Strategy :=
  fold_left (fun s nodes => snd (strategy_selectServer s nodes)) calls s.

(** The nodes returned by [n] consecutive calls of the weighted strategy on
    the same node list, with the queue after the last call. *)
Fixpoint weighted_run (n : nat) (queue : list QueueEntry) (nodes : list ServerNode)
    : list (option ServerNode) * list QueueEntry :=
  match n with
  | O => ([], queue)
  | S n' =>
      let '(r, q1) := weighted_select queue nodes in
      let '(rs, q2) := weighted_run n' q1 nodes in
      (r :: rs, q2)
  end.

(** How many of the results are the node with identifier [i]. *)
Definition timesSelected (i : string) (results : list (option ServerNode)) : nat :=
  length (List.filter
            (fun r => match r with
                      | Some node => String.eqb (id node) i
                      | None => false
                      end)
            results).

(** *** Vocabulary for the weighted queue *)

Definition entryIds (queue : list QueueEntry) : list string :=
  List.map (fun entry => id (server entry)) queue.

(** The private state of a strategy object is well formed when the
    weighted queue holds at most one entry per node identifier. *)
Definition wellFormed (s : Strategy) : Prop :=
  match s with
  | WeightedRoundRobinStrategy queue => List.NoDup (entryIds queue)
  | _ => True
  end.

(** While [updateWeightedQueue] loops over [all], an entry is settled once
    its server is one of the nodes [handled] so far; until then its
    identifier is one that is still to come. *)
Definition settled (all handled : list ServerNode) (entry : QueueEntry) : Prop :=
  In (server entry) handled \/
  (~ In (id (server entry)) (List.map id handled) /\
   In (id (server entry)) (List.map id all)).

Definition totalWeight (nodes : list ServerNode) : Z :=
  fold_right Z.add 0 (List.map weight nodes).

(** The selections a queue still owes before it is exhausted. *)
Definition pending (queue : list QueueEntry) : list ServerNode :=
  flat_map (fun entry => repeat (server entry) (Z.to_nat (remainingWeight entry)))
           queue.

(** One full cycle over a node list: each node as often as its weight. *)
Definition fullCycle (nodes : list ServerNode) : list ServerNode :=
  flat_map (fun node => repeat node (Z.to_nat (weight node))) nodes.

(** The queue that the first call builds from an empty one. *)
Definition initialQueue (nodes : list ServerNode) : list QueueEntry :=
  List.map (fun node => mkEntry node (weight node)) nodes.

(** The queue holds the nodes and is [j] selections into their cycle. *)
Definition position (nodes : list ServerNode) (j : nat) (queue : list QueueEntry)
    : Prop :=
  List.map server queue = nodes /\ pending queue = skipn j (fullCycle nodes).

(** How many nodes of a list carry the identifier [i]. *)
Definition countId (i : string) (l : list ServerNode) : nat :=
  length (List.filter (fun node => String.eqb (id node) i) l).

(** *** The [LoadBalancer] class *)

Inductive BreakerState := closed | open | half_open.

Record Breaker := mkBreaker {
  failures : Z;
  lastFailureTime : Z;
  state : BreakerState
}.

(** The argument of [addServer]: a [ServerNode] without [isHealthy],
    [lastHealthCheck] and [activeConnections]. *)
Record ServerConfig := mkServerConfig {
  cfg_id : string;
  cfg_host : string;
  cfg_port : Z;
  cfg_maxConnections : Z;
  cfg_cpuUsage : Q;
  cfg_memoryUsage : Q;
  cfg_responseTime : Q;
  cfg_weight : Z
}.

(** The argument of [updateServerStats]: each of the four fields may be
    absent. *)
Record Stats := mkStats {
  stat_cpuUsage : option Q;
  stat_memoryUsage : option Q;
  stat_responseTime : option Q;
  stat_activeConnections : option Z
}.

Inductive Event :=
| server_added (node : ServerNode)
| server_removed (node : ServerNode)
| server_stats_updated (node : ServerNode)
| server_selected (node : ServerNode)
| no_server_available
| connection_incremented (node : ServerNode)
| connection_decremented (node : ServerNode)
| strategy_changed (s : Strategy)
| health_checks_started
| health_checks_stopped
| server_healthy (node : ServerNode)
| server_unhealthy (node : ServerNode)
| health_check_completed (node : ServerNode)
| health_check_failed (node : ServerNode)
| circuit_breaker_opened (serverId : string)
| circuit_breaker_closed (serverId : string).

(** The node registry: a [Map] in insertion order. *)
Section OrderedMap.
Context {V : Type}.

Fixpoint map_get (k : string) (m : list (string * V)) : option V :=
  match m with
  | [] => None
  | (k', v) :: rest => if String.eqb k' k then Some v else map_get k rest
  end.

(** [set] keeps the position of a key that is present and appends a new
    key. *)
Fixpoint map_set (k : string) (v : V) (m : list (string * V)) : list (string * V) :=
  match m with
  | [] => [(k, v)]
  | (k', v') :: rest =>
      if String.eqb k' k then (k, v) :: rest else (k', v') :: map_set k v rest
  end.

Definition map_delete (k : string) (m : list (string * V)) : list (string * V) :=
  List.filter (fun kv => negb (String.eqb (fst kv) k)) m.

Definition map_values (m : list (string * V)) : list V := List.map snd m.
End OrderedMap.

Record t := mkLB {
  nodes : list (string * ServerNode);
  strategy : Strategy;
  healthCheckInterval : bool;
  stickySessionMap : gmap string string;
  circuitBreakers : gmap string Breaker
}.

(** [new LoadBalancer(strategy)]. *)
Definition create (s : Strategy) : t :=
  {| nodes := []; strategy := s; healthCheckInterval := false;
     stickySessionMap := ∅; circuitBreakers := ∅ |}.

Definition with_nodes (m : list (string * ServerNode)) (lb : t) : t :=
  mkLB m (strategy lb) (healthCheckInterval lb) (stickySessionMap lb) (circuitBreakers lb).

Definition with_strategy (s : Strategy) (lb : t) : t :=
  mkLB (nodes lb) s (healthCheckInterval lb) (stickySessionMap lb) (circuitBreakers lb).

Definition with_interval (b : bool) (lb : t) : t :=
  mkLB (nodes lb) (strategy lb) b (stickySessionMap lb) (circuitBreakers lb).

Definition with_sticky (m : gmap string string) (lb : t) : t :=
  mkLB (nodes lb) (strategy lb) (healthCheckInterval lb) m (circuitBreakers lb).

Definition with_breakers (m : gmap string Breaker) (lb : t) : t :=
  mkLB (nodes lb) (strategy lb) (healthCheckInterval lb) (stickySessionMap lb) m.

Definition set_activeConnections (a : Z) (n : ServerNode) : ServerNode :=
  mkNode (id n) (host n) (port n) (isHealthy n) (lastHealthCheck n) a
         (maxConnections n) (cpuUsage n) (memoryUsage n) (responseTime n) (weight n).

Definition set_cpuUsage (c : Q) (n : ServerNode) : ServerNode :=
  mkNode (id n) (host n) (port n) (isHealthy n) (lastHealthCheck n)
         (activeConnections n) (maxConnections n) c (memoryUsage n)
         (responseTime n) (weight n).

Definition set_memoryUsage (m : Q) (n : ServerNode) : ServerNode :=
  mkNode (id n) (host n) (port n) (isHealthy n) (lastHealthCheck n)
         (activeConnections n) (maxConnections n) (cpuUsage n) m
         (responseTime n) (weight n).

Definition set_responseTime (r : Q) (n : ServerNode) : ServerNode :=
  mkNode (id n) (host n) (port n) (isHealthy n) (lastHealthCheck n)
         (activeConnections n) (maxConnections n) (cpuUsage n) (memoryUsage n)
         r (weight n).

(** The three assignments of a finished health probe. *)
Definition set_health (h : bool) (checkedAt : Z) (r : Q) (n : ServerNode) : ServerNode :=
  mkNode (id n) (host n) (port n) h checkedAt (activeConnections n)
         (maxConnections n) (cpuUsage n) (memoryUsage n) r (weight n).

Definition addServer (lb : t) (config : ServerConfig) : t * list Event :=
  let node :=
    {| id := cfg_id config; host := cfg_host config; port := cfg_port config;
       isHealthy := false; lastHealthCheck := 0; activeConnections := 0;
       maxConnections := cfg_maxConnections config;
       cpuUsage := cfg_cpuUsage config; memoryUsage := cfg_memoryUsage config;
       responseTime := cfg_responseTime config; weight := cfg_weight config |} in
  (with_nodes (map_set (id node) node (nodes lb)) lb, [server_added node]).

Definition removeServer (lb : t) (serverId : string) : bool * t * list Event :=
  match map_get serverId (nodes lb) with
  | Some node =>
      (true, with_nodes (map_delete serverId (nodes lb)) lb, [server_removed node])
  | None => (false, lb, [])
  end.

(** [Object.assign(node, stats)]: the fields present in [stats] overwrite
    the node's. An [activeConnections] is an integer here; see
    [ConnectionCounter.updateServerStats] for every value that [stats] can
    carry. *)
Definition assignStats (stats : Stats) (node : ServerNode) : ServerNode :=
  let node := match stat_cpuUsage stats with
              | Some c => set_cpuUsage c node | None => node end in
  let node := match stat_memoryUsage stats with
              | Some m => set_memoryUsage m node | None => node end in
  let node := match stat_responseTime stats with
              | Some r => set_responseTime r node | None => node end in
  match stat_activeConnections stats with
  | Some a => set_activeConnections a node
  | None => node
  end.

Definition updateServerStats (lb : t) (serverId : string) (stats : Stats)
    : t * list Event :=
  match map_get serverId (nodes lb) with
  | Some node =>
      let node := assignStats stats node in
      (with_nodes (map_set serverId node (nodes lb)) lb, [server_stats_updated node])
  | None => (lb, [])
  end.

Definition selectServer (lb : t) : option ServerNode * t * list Event :=
  let availableNodes := map_values (nodes lb) in
  let '(selected, s) := strategy_selectServer (strategy lb) availableNodes in
  (selected, with_strategy s lb,
   match selected with
   | Some node => [server_selected node]
   | None => [no_server_available]
   end).

(** [node.activeConnections++] on an integer counter below 2^53; see
    [ConnectionCounter.incrementConnection] for the other values. *)
Definition incrementConnection (lb : t) (serverId : string) : t * list Event :=
  match map_get serverId (nodes lb) with
  | Some node =>
      let node := set_activeConnections (activeConnections node + 1) node in
      (with_nodes (map_set serverId node (nodes lb)) lb, [connection_incremented node])
  | None => (lb, [])
  end.

Definition decrementConnection (lb : t) (serverId : string) : t * list Event :=
  match map_get serverId (nodes lb) with
  | Some node =>
      let node := set_activeConnections (Z.max 0 (activeConnections node - 1)) node in
      (with_nodes (map_set serverId node (nodes lb)) lb, [connection_decremented node])
  | None => (lb, [])
  end.

Definition setStrategy (lb : t) (s : Strategy) : t * list Event :=
  (with_strategy s lb, [strategy_changed s]).

Definition startHealthChecks (lb : t) : t * list Event :=
  if healthCheckInterval lb then (lb, [])
  else (with_interval true lb, [health_checks_started]).

Definition stopHealthChecks (lb : t) : t * list Event :=
  if healthCheckInterval lb then (with_interval false lb, [health_checks_stopped])
  else (lb, []).

(** [checkServerHealth(node)] keeps the node object it was called with
    across its [await] and writes to that object when the probe finishes.
    By then the object is either still the one that the registry holds
    under its id, or it has left the registry: [removeServer] deleted it,
    or a second [addServer] of the same id put a new object in its place.
    A detached object is given by the state it is in when the probe
    finishes. *)
Inductive ProbedNode :=
| Registered (serverId : string)
| Detached (node : ServerNode).

(** The [try] block of [checkServerHealth] after [fetch] resolved with
    [response.ok = ok], on the node object [node]: the object after the
    three assignments, and the events. The probe started at [startTime]
    and the clock reads [now]. *)
Definition resolved (node : ServerNode) (ok : bool) (startTime now : Z)
    : ServerNode * list Event :=
  let wasHealthy := isHealthy node in
  let node := set_health ok now (inject_Z (now - startTime)) node in
  (node,
   (if Bool.eqb wasHealthy ok then []
    else [if ok then server_healthy node else server_unhealthy node])
   ++ [health_check_completed node]).

(** The [catch] block of [checkServerHealth], on the node object [node]. *)
Definition rejected (node : ServerNode) (startTime now : Z)
    : ServerNode * list Event :=
  let wasHealthy := isHealthy node in
  let node := set_health false now (inject_Z (now - startTime)) node in
  (node,
   (if wasHealthy then [server_unhealthy node] else [])
   ++ [health_check_failed node]).

(** A probe that finishes with [response.ok = ok]. The writes reach the
    registry when the probed object is the registered one (a registered
    object is found under its id); the events are emitted either way. *)
Definition probeResolved (lb : t) (probed : ProbedNode) (ok : bool)
    (startTime now : Z) : t * list Event :=
  match probed with
  | Registered serverId =>
      match map_get serverId (nodes lb) with
      | Some node =>
          let '(node, events) := resolved node ok startTime now in
          (with_nodes (map_set serverId node (nodes lb)) lb, events)
      | None => (lb, [])
      end
  | Detached node => (lb, snd (resolved node ok startTime now))
  end.

(** A probe whose [fetch] is rejected. *)
Definition probeRejected (lb : t) (probed : ProbedNode) (startTime now : Z)
    : t * list Event :=
  match probed with
  | Registered serverId =>
      match map_get serverId (nodes lb) with
      | Some node =>
          let '(node, events) := rejected node startTime now in
          (with_nodes (map_set serverId node (nodes lb)) lb, events)
      | None => (lb, [])
      end
  | Detached node => (lb, snd (rejected node startTime now))
  end.

Definition getServerById (lb : t) (serverId : string) : option ServerNode :=
  map_get serverId (nodes lb).

Definition getAllServers (lb : t) : list ServerNode := map_values (nodes lb).

Definition assignStickySession (lb : t) (sessionId serverId : string) : t :=
  with_sticky (<[sessionId := serverId]> (stickySessionMap lb)) lb.

(** [getStickyServer]: [if (serverId)] is false for a missing entry and for
    an entry that holds the empty string. *)
Definition getStickyServer (lb : t) (sessionId : string) : option ServerNode * t :=
  match stickySessionMap lb !! sessionId with
  | Some serverId =>
      if truthy_str serverId then
        match map_get serverId (nodes lb) with
        | Some server =>
            if isHealthy server && (activeConnections server <? maxConnections server)
            then (Some server, lb)
            else (None, with_sticky (delete sessionId (stickySessionMap lb)) lb)
        | None => (None, with_sticky (delete sessionId (stickySessionMap lb)) lb)
        end
      else (None, lb)
  | None => (None, lb)
  end.

Definition removeStickySession (lb : t) (sessionId : string) : t :=
  with_sticky (delete sessionId (stickySessionMap lb)) lb.

(** [isCircuitOpen(serverId)] with the clock reading [now]. *)
Definition isCircuitOpen (lb : t) (serverId : string) (now : Z) : bool * t :=
  match circuitBreakers lb !! serverId with
  | None => (false, lb)
  | Some breaker =>
      match state breaker with
      | open =>
          let timeSinceLastFailure := now - lastFailureTime breaker in
          if 60000 <? timeSinceLastFailure then
            (false,
             with_breakers
               (<[serverId := mkBreaker 0 (lastFailureTime breaker) half_open]>
                  (circuitBreakers lb)) lb)
          else (true, lb)
      | _ => (false, lb)
      end
  end.

Definition recordFailure (lb : t) (serverId : string) (now : Z) : t * list Event :=
  let breaker := match circuitBreakers lb !! serverId with
                 | Some b => b
                 | None => mkBreaker 0 0 closed
                 end in
  let breaker := mkBreaker (failures breaker + 1) now (state breaker) in
  if 5 <=? failures breaker then
    (with_breakers
       (<[serverId := mkBreaker (failures breaker) (lastFailureTime breaker) open]>
          (circuitBreakers lb)) lb,
     [circuit_breaker_opened serverId])
  else
    (with_breakers (<[serverId := breaker]> (circuitBreakers lb)) lb, []).

Definition recordSuccess (lb : t) (serverId : string) : t * list Event :=
  match circuitBreakers lb !! serverId with
  | Some breaker =>
      match state breaker with
      | half_open =>
          (with_breakers
             (<[serverId := mkBreaker 0 (lastFailureTime breaker) closed]>
                (circuitBreakers lb)) lb,
           [circuit_breaker_closed serverId])
      | _ => (lb, [])
      end
  | None => (lb, [])
  end.

(** Consecutive [recordFailure(serverId)] calls, one per clock reading. *)
Fixpoint recordFailures (lb : t) (serverId : string) (times : list Z) : t :=
  match times with
  | [] => lb
  | now :: rest => recordFailures (fst (recordFailure lb serverId now)) serverId rest
  end.

(** The breaker object that [recordFailure] works on: the stored one, or
    the fresh [{ failures: 0, lastFailureTime: 0, state: 'closed' }]. *)
Definition breakerOr (lb : t) (serverId : string) : Breaker :=
  match circuitBreakers lb !! serverId with
  | Some b => b
  | None => mkBreaker 0 0 closed
  end.

(** The state of the breaker of [serverId], when there is one. *)
Definition breakerState (lb : t) (serverId : string) : option BreakerState :=
  state <$> circuitBreakers lb !! serverId.

(** The two calls that report on a server to its breaker. *)
Inductive BreakerEvent :=
| Failure (serverId : string) (now : Z)
| Success (serverId : string).

Definition recordEvent (lb : t) (e : BreakerEvent) : t :=
  match e with
  | Failure serverId now => fst (recordFailure lb serverId now)
  | Success serverId => fst (recordSuccess lb serverId)
  end.

(** The operations of the class that change the balancer, as one
    transition function. *)
Inductive Op :=
| AddServer (config : ServerConfig)
| RemoveServer (serverId : string)
| UpdateServerStats (serverId : string) (stats : Stats)
| SelectServer
| IncrementConnection (serverId : string)
| DecrementConnection (serverId : string)
| SetStrategy (s : Strategy)
| StartHealthChecks
| StopHealthChecks
| ProbeResolved (probed : ProbedNode) (ok : bool) (startTime now : Z)
| ProbeRejected (probed : ProbedNode) (startTime now : Z)
| AssignStickySession (sessionId serverId : string)
| GetStickyServer (sessionId : string)
| RemoveStickySession (sessionId : string)
| IsCircuitOpen (serverId : string) (now : Z)
| RecordFailure (serverId : string) (now : Z)
| RecordSuccess (serverId : string).

Definition step (lb : t) (op : Op) : t :=
  match op with
  | AddServer config => fst (addServer lb config)
  | RemoveServer serverId => snd (fst (removeServer lb serverId))
  | UpdateServerStats serverId stats => fst (updateServerStats lb serverId stats)
  | SelectServer => snd (fst (selectServer lb))
  | IncrementConnection serverId => fst (incrementConnection lb serverId)
  | DecrementConnection serverId => fst (decrementConnection lb serverId)
  | SetStrategy s => fst (setStrategy lb s)
  | StartHealthChecks => fst (startHealthChecks lb)
  | StopHealthChecks => fst (stopHealthChecks lb)
  | ProbeResolved probed ok startTime now =>
      fst (probeResolved lb probed ok startTime now)
  | ProbeRejected probed startTime now => fst (probeRejected lb probed startTime now)
  | AssignStickySession sessionId serverId => assignStickySession lb sessionId serverId
  | GetStickyServer sessionId => snd (getStickyServer lb sessionId)
  | RemoveStickySession sessionId => removeStickySession lb sessionId
  | IsCircuitOpen serverId now => snd (isCircuitOpen lb serverId now)
  | RecordFailure serverId now => fst (recordFailure lb serverId now)
  | RecordSuccess serverId => fst (recordSuccess lb serverId)
  end.

(** Every registered node has a non-negative connection counter. *)
Definition countersNonNegative (lb : t) : Prop :=
  Forall (fun kv => 0 <= activeConnections (snd kv)) (nodes lb).

(** The registry, reduced to the counter of each node. *)
Definition counters (lb : t) : list (string * Z) :=
  List.map (fun kv => (fst kv, activeConnections (snd kv))) (nodes lb).

(** The operations whose source assigns [activeConnections]: the object
    literal of [addServer], [Object.assign] in [updateServerStats], and
    the two counting methods; [removeServer] drops a node with its
    counter. *)
Definition writesCounter (op : Op) : bool :=
  match op with
  | AddServer _ | RemoveServer _ | UpdateServerStats _ _
  | IncrementConnection _ | DecrementConnection _ => true
  | _ => false
  end.

(** *** The remaining methods of [LoadBalancer] *)

Definition getServerStatus (lb : t) : list ServerNode * list ServerNode * nat :=
  let allNodes := map_values (nodes lb) in
  let healthy := List.filter isHealthy allNodes in
  let unhealthy := List.filter (fun node => negb (isHealthy node)) allNodes in
  (healthy, unhealthy, length allNodes).

Record LoadBalancingStats := mkLoadBalancingStats {
  stat_strategy : string;
  stat_totalServers : nat;
  stat_healthyServers : nat;
  stat_totalConnections : Z;
  stat_averageLoad : Q
}.

Definition getLoadBalancingStats (lb : t) : LoadBalancingStats :=
  let allNodes := map_values (nodes lb) in
  let healthyNodes := List.filter isHealthy allNodes in
  let totalConnections :=
    fold_left (fun sum node => sum + activeConnections node) allNodes 0 in
  let averageLoad :=
    if (0 <? length healthyNodes)%nat
    then (inject_Z totalConnections / inject_Z (Z.of_nat (length healthyNodes)))%Q
    else 0%Q in
  {| stat_strategy := name (strategy lb);
     stat_totalServers := length allNodes;
     stat_healthyServers := length healthyNodes;
     stat_totalConnections := totalConnections;
     stat_averageLoad := averageLoad |}.

(** The nodes returned by [n] consecutive calls of the round-robin
    strategy on the same node list, with the index after the last call. *)
Fixpoint roundRobin_run (n : nat) (currentIndex : nat) (nodes : list ServerNode)
    : list (option ServerNode) * nat :=
  match n with
  | O => ([], currentIndex)
  | S n' =>
      let '(r, i) := roundRobin_select currentIndex nodes in
      let '(rs, j) := roundRobin_run n' i nodes in
      (r :: rs, j)
  end.

(** The registry holds each node under its own identifier, and no
    identifier twice. *)
Definition registryWellKeyed (lb : t) : Prop :=
  List.NoDup (List.map fst (nodes lb)) /\
  Forall (fun kv => fst kv = id (snd kv)) (nodes lb).

(** *** Sample nodes and balancers *)

Definition sampleNode (i : string) (healthy : bool) (active w : Z) : ServerNode :=
  {| id := i; host := "10.0.0.1"; port := 8080; isHealthy := healthy;
     lastHealthCheck := 0; activeConnections := active; maxConnections := 10;
     cpuUsage := 0; memoryUsage := 0; responseTime := 0; weight := w |}.

Definition sampleConfig (i : string) (w : Z) : ServerConfig :=
  {| cfg_id := i; cfg_host := "10.0.0.1"; cfg_port := 8080;
     cfg_maxConnections := 10; cfg_cpuUsage := 0; cfg_memoryUsage := 0;
     cfg_responseTime := 0; cfg_weight := w |}.

(** A balancer with one healthy, idle node ["A"]. *)
Definition oneNodeBalancer : t :=
  fst (probeResolved (fst (addServer (create (RoundRobinStrategy 0)) (sampleConfig "A" 1)))
                     (Registered "A") true 0 5).

(** A balancer whose only node is registered under the empty identifier
    and is healthy and idle; session ["s1"] is stuck to it. *)
Definition emptyIdBalancer : t :=
  assignStickySession
    (fst (probeResolved (fst (addServer (create (RoundRobinStrategy 0)) (sampleConfig EmptyString 1)))
                        (Registered EmptyString) true 0 5))
    "s1" EmptyString.

(** Node ["A"] was stuck to session ["s1"] and has since failed a probe. *)
Definition staleStickyBalancer : t :=
  fst (probeRejected (assignStickySession oneNodeBalancer "s1" "A") (Registered "A") 10 15).

(** The breaker of ["A"] after five failures and a check 60001 ms after
    the last of them. *)
Definition halfOpenBalancer : t :=
  snd (isCircuitOpen
         (recordFailures (create (RoundRobinStrategy 0)) "A" [1; 2; 3; 4; 5])
         "A" 60006).

End LoadBalancer.

(** ** The connection counter over every value it can hold *)

(** [LoadBalancer] above reads [activeConnections] as an integer, which is
    what it is as long as [updateServerStats] is given integers and the
    counter stays below 2^53.
    [Object.assign(node, stats)] stores whatever [stats] carries, though,
    so this module follows the one property [activeConnections] of the
    registered nodes through the places of the class that write it, over
    every value it can then hold. Numbers are IEEE 754 doubles. *)
Module ConnectionCounter.

(** What a caller can store in a property of type [number]: a double,
    [undefined] through the optional property of [Partial], and [null]
    when [strictNullChecks] is off. *)
Inductive Value :=
| undefined
| null
| number (x : spec_float).

Definition prec : Z := 53.
Definition emax : Z := 1024.

(** The literals [0] and [1]. *)
Definition zero : spec_float := S754_zero false.
Definition one : spec_float := S754_finite false 4503599627370496 (-52).

Definition ToNumber (v : Value) : spec_float :=
  match v with
  | undefined => S754_nan
  | null => zero
  | number x => x
  end.

(** [Math.max(x, y)]: [NaN] when an argument is, and [+0] is larger than
    [-0]. *)
Definition Math_max (x y : spec_float) : spec_float :=
  match SFcompare x y with
  | None => S754_nan
  | Some Lt => y
  | Some Gt => x
  | Some Eq =>
      match x, y with
      | S754_zero true, S754_zero false => y
      | _, _ => x
      end
  end.

(** [x] is a number (not [NaN]) whose sign bit is [s]. *)
Definition signed (s : bool) (x : spec_float) : Prop :=
  match x with
  | S754_zero s' | S754_infinity s' | S754_finite s' _ _ => s' = s
  | S754_nan => False
  end.

(** [v >= 0]. *)
Definition nonNegative (v : Value) : bool := SFleb zero (ToNumber v).

(** The registry, reduced to the counter of each node. *)
Definition Registry := list (string * Value).

(** [addServer]: [activeConnections: 0] comes after [...config] in the
    object literal, so the new node starts at 0 whatever [config] holds. *)
Definition addServer (reg : Registry) (serverId : string) : Registry :=
  LoadBalancer.map_set serverId (number zero) reg.

Definition removeServer (reg : Registry) (serverId : string) : Registry :=
  match LoadBalancer.map_get serverId reg with
  | Some _ => LoadBalancer.map_delete serverId reg
  | None => reg
  end.

(** [updateServerStats]: [activeConnections] is [None] when [stats] has
    no such property, and the value of the property otherwise. *)
Definition updateServerStats (reg : Registry) (serverId : string)
    (activeConnections : option Value) : Registry :=
  match LoadBalancer.map_get serverId reg with
  | Some _ =>
      match activeConnections with
      | Some v => LoadBalancer.map_set serverId v reg
      | None => reg
      end
  | None => reg
  end.

(** [node.activeConnections++]. *)
Definition incrementConnection (reg : Registry) (serverId : string) : Registry :=
  match LoadBalancer.map_get serverId reg with
  | Some v =>
      LoadBalancer.map_set serverId (number (SFadd prec emax (ToNumber v) one)) reg
  | None => reg
  end.

(** [node.activeConnections = Math.max(0, node.activeConnections - 1)]. *)
Definition decrementConnection (reg : Registry) (serverId : string) : Registry :=
  match LoadBalancer.map_get serverId reg with
  | Some v =>
      LoadBalancer.map_set serverId
        (number (Math_max zero (SFsub prec emax (ToNumber v) one))) reg
  | None => reg
  end.

(** The methods of the class that do not assign [activeConnections]. *)
Inductive Method :=
| selectServer | setStrategy | startHealthChecks | stopHealthChecks
| performHealthChecks | checkServerHealth
| getServerStatus | getServerById | getAllServers | getLoadBalancingStats
| assignStickySession | getStickyServer | removeStickySession
| isCircuitOpen | recordFailure | recordSuccess.

Inductive Op :=
| AddServer (serverId : string)
| RemoveServer (serverId : string)
| UpdateServerStats (serverId : string) (activeConnections : option Value)
| IncrementConnection (serverId : string)
| DecrementConnection (serverId : string)
| Other (method : Method).

Definition step (reg : Registry) (op : Op) : Registry :=
  match op with
  | AddServer serverId => addServer reg serverId
  | RemoveServer serverId => removeServer reg serverId
  | UpdateServerStats serverId activeConnections =>
      updateServerStats reg serverId activeConnections
  | IncrementConnection serverId => incrementConnection reg serverId
  | DecrementConnection serverId => decrementConnection reg serverId
  | Other _ => reg
  end.

Definition run (reg : Registry) (ops : list Op) : Registry := fold_left step ops reg.

(** Every registered node has [activeConnections >= 0]. *)
Definition countersNonNegative (reg : Registry) : Prop :=
  Forall (fun kv => nonNegative (snd kv) = true) reg.

(** Every operation is harmless except a stats update that carries an
    [activeConnections] for which [>= 0] is false: a negative number,
    [NaN] or [undefined]. *)
Definition harmless (op : Op) : Prop :=
  match op with
  | UpdateServerStats _ (Some v) => nonNegative v = true
  | _ => True
  end.

(** Some doubles: [-1], [0.5], [2^53 - 1], [2^53] and [+Infinity]. *)
Definition minusOne : spec_float := S754_finite true 4503599627370496 (-52).
Definition half : spec_float := S754_finite false 4503599627370496 (-53).
Definition maxSafeInteger : spec_float := S754_finite false 9007199254740991 0.
Definition twoTo53 : spec_float := S754_finite false 4503599627370496 1.
Definition infinity : spec_float := S754_infinity false.

End ConnectionCounter.

(** * Properties of the rate limiter *)

Module RateLimiterProofs.
Import RateLimiter.

Lemma put_same (rl : t) (clientId : string) (c : ClientData) :
  clients rl !! clientId = Some c -> put rl clientId c = rl.
Proof.
  intros H. destruct rl as [cfg m]. unfold put. cbn [config clients] in *.
  f_equal. by apply insert_id.
Qed.

(** The results of a run depend on the limiter only through its
    configuration and the client's own record. *)
Lemma fst_checkLimits (times : list Z) : forall (rl : t) (clientId : string),
  fst (checkLimits rl clientId times) =
  fst (checkClients (config rl)
         (match clients rl !! clientId with Some c => c | None => freshClient end)
         times).
Proof.
  induction times as [|now rest IH]; intros rl clientId; [reflexivity|].
  cbn [checkLimits checkClients]. unfold checkLimit.
  destruct (checkClient _ _ true now) as [r c1].
  specialize (IH (put rl clientId c1) clientId).
  cbn [put config clients] in IH. rewrite lookup_insert_eq in IH.
  destruct (checkLimits (put rl clientId c1) clientId rest) as [rs rl2].
  destruct (checkClients (config rl) c1 rest) as [rs' c2].
  cbn [fst] in *. congruence.
Qed.

(** A check made while the block is running is denied and leaves the
    client record as it is. *)
Lemma checkClient_stillBlocked (cfg : RateLimitConfig) (c : ClientData)
    (isSuccess : bool) (now u : Z) :
  blocked c = true -> blockedUntil c = Some u -> 0 <= now < u ->
  checkClient cfg c isSuccess now =
  (mkResult false 0 (Some (ceil_div_1000 (u - now))), c).
Proof.
  intros Hb Hu Hn. unfold checkClient, stillBlocked. rewrite Hb, Hu.
  cbn [truthy_num andb].
  replace (u =? 0) with false by lia. replace (now <? u) with true by lia.
  reflexivity.
Qed.

Lemma ceil_div_1000_mono (x y : Z) : x <= y -> ceil_div_1000 x <= ceil_div_1000 y.
Proof. intros H. unfold ceil_div_1000. apply Z.div_le_mono; lia. Qed.

(** Inside a running block the denials persist and the hint does not
    grow: this is the path on which the retry hint is derived from
    [blockedUntil]. *)
Lemma running_block_keeps_denying (cfg : RateLimitConfig) (c : ClientData)
    (s1 s2 : bool) (u t1 t2 : Z) :
  blocked c = true -> blockedUntil c = Some u -> 0 <= t1 <= t2 -> t2 < u ->
  exists r1 r2,
    checkClient cfg c s1 t1 = (mkResult false 0 (Some r1), c) /\
    checkClient cfg c s2 t2 = (mkResult false 0 (Some r2), c) /\
    r2 <= r1.
Proof.
  intros Hb Hu Ht1 Ht2.
  exists (ceil_div_1000 (u - t1)), (ceil_div_1000 (u - t2)).
  rewrite !(checkClient_stillBlocked cfg c _ _ u) by (assumption || lia).
  repeat split. apply ceil_div_1000_mono. lia.
Qed.

Ltac run_check H1 H2 :=
  unfold checkClient, detectSuspiciousActivity;
  repeat (progress (simpl; rewrite ?H1, ?H2)); try reflexivity.

(** C2, as amended: with the configuration [{windowMs: 60000, max: 3}] and
    a fresh client, three [checkLimit] calls at one instant [now] are
    allowed with [remaining] 2, 1 and 0, and a fourth call at that instant
    is denied with [remaining = 0] and [retryAfter = 120]: the fourth call
    flags the client as suspicious and computes the hint after the warning
    count has become 1. *)
Theorem scenario_three_allowed_fourth_denied (clientId : string) (now : Z) :
  fst (checkLimits (create scenarioConfig) clientId [now; now; now; now]) =
  [mkResult true 2 None; mkResult true 1 None; mkResult true 0 None;
   mkResult false 0 (Some 120)].
Proof.
  rewrite fst_checkLimits. cbn [create config clients]. rewrite lookup_empty.
  assert (H1 : (now - 60000 <? now) = true) by lia.
  assert (H2 : (now - 10000 <? now) = true) by lia.
  set (cfg := {| windowMs := _ |}).
  assert (S1 : checkClient cfg freshClient true now =
               (mkResult true 2 None, mkClient [now] false None 0 1 false))
    by run_check H1 H2.
  assert (S2 : checkClient cfg (mkClient [now] false None 0 1 false) true now =
               (mkResult true 1 None, mkClient [now; now] false None 0 2 false))
    by run_check H1 H2.
  assert (S3 : checkClient cfg (mkClient [now; now] false None 0 2 false) true now =
               (mkResult true 0 None, mkClient [now; now; now] false None 0 3 false))
    by run_check H1 H2.
  assert (S4 : exists c4,
             checkClient cfg (mkClient [now; now; now] false None 0 3 false) true now =
             (mkResult false 0 (Some 120), c4))
    by (eexists; run_check H1 H2).
  destruct S4 as [c4 S4].
  cbn [checkClients]. rewrite S1, S2, S3, S4. reflexivity.
Qed.

(** C2, as stated, fails: at clock reading 5000 the fourth result does not
    carry a hint anywhere below 120 seconds, so none near 60. *)
Lemma scenario_retryAfter_is_not_60 :
  ~ (exists r : Z,
       fst (checkLimits (create scenarioConfig) "client" [5000; 5000; 5000; 5000]) =
       [mkResult true 2 None; mkResult true 1 None; mkResult true 0 None;
        mkResult false 0 (Some r)] /\ 0 <= r < 120).
Proof.
  intros [r [H Hr]]. rewrite fst_checkLimits in H.
  cbn [create config clients] in H. rewrite lookup_empty in H.
  vm_compute in H. injection H as H. subst r. lia.
Qed.

(** C4, the failing run: the fourth call at clock reading 5000 is denied
    with [retryAfter = 120], and the call one second later is allowed. The
    record left by the fourth call has [blockedUntil = 5000]: the block was
    computed with the warning count 0 and the hint with the count 1. *)
Theorem denied_client_allowed_before_retryAfter :
  fst (checkLimits (create scenarioConfig) "client" [5000; 5000; 5000; 5000; 6000]) =
  [mkResult true 2 None; mkResult true 1 None; mkResult true 0 None;
   mkResult false 0 (Some 120); mkResult true 2 None] /\
  snd (checkClients (config (create scenarioConfig)) freshClient [5000; 5000; 5000; 5000]) =
  mkClient [5000; 5000; 5000] true (Some 5000) 1 4 true.
Proof.
  split.
  - rewrite fst_checkLimits. cbn [create config clients]. rewrite lookup_empty.
    vm_compute. reflexivity.
  - vm_compute. reflexivity.
Qed.

(** The penalty does not shrink when the warning count grows. *)
Lemma getBlockDuration_mono (c : ClientData) (w1 w2 : Z) :
  w1 <= w2 ->
  getBlockDuration (set_warnings w1 c) <= getBlockDuration (set_warnings w2 c).
Proof.
  intros Hw. unfold getBlockDuration. cbn [set_warnings warnings suspiciousActivity].
  destruct (suspiciousActivity c); [lia|].
  apply Z.mul_le_mono_nonneg_l; [lia|].
  destruct (Z.le_gt_cases 0 (Z.min (Z.min w1 10) 5)) as [Hn|Hn].
  - apply Z.pow_le_mono_r; lia.
  - rewrite (Z.pow_neg_r 2 (Z.min (Z.min w1 10) 5)) by lia.
    apply Z.pow_nonneg. lia.
Qed.

(** C5, the failing comparison: for every warning count the penalty of a
    suspicious client is at most the penalty of an unsuspicious one, so it
    is never strictly greater. *)
Theorem suspicious_penalty_never_longer (c : ClientData) :
  0 <= warnings c ->
  getBlockDuration (set_suspicious true c) <= getBlockDuration (set_suspicious false c).
Proof.
  intros Hw. unfold getBlockDuration. cbn [set_suspicious warnings suspiciousActivity].
  destruct (Z.le_gt_cases 5 (warnings c)) as [H5|H5].
  - replace (Z.min (Z.min (warnings c) 10) 5) with 5 by lia.
    change (2 ^ 5) with 32. lia.
  - assert (Hc : warnings c = 0 \/ warnings c = 1 \/ warnings c = 2 \/
                 warnings c = 3 \/ warnings c = 4) by lia.
    destruct Hc as [-> | [-> | [-> | [-> | ->]]]]; vm_compute; discriminate.
Qed.

Lemma suspicious_penalty_never_longer_witness :
  getBlockDuration (set_suspicious true freshClient) = 0 /\
  getBlockDuration (set_suspicious false freshClient) = 60000 /\
  getBlockDuration (set_suspicious true freshClient) <=
  getBlockDuration (set_suspicious false freshClient).
Proof.
  split; [reflexivity|]. split; [reflexivity|].
  apply (suspicious_penalty_never_longer freshClient). cbn. lia.
Defined.

(** C10: [blacklistClient] on a client that the limiter has never seen
    stores a record with [blocked = true], [blockedUntil = now + duration]
    (24 hours when the duration is omitted) and [suspiciousActivity = true],
    so the limiter changes; at every clock reading from [now] until the
    duration has elapsed [isBlocked] is true and [checkLimit] is denied,
    leaving the limiter as it is. *)
Theorem blacklist_unseen_client (rl : t) (clientId : string) (duration : option Z)
    (now time : Z) (isSuccess : bool) :
  clients rl !! clientId = None ->
  0 <= now ->
  now <= time ->
  time < now + match duration with Some d => d | None => 86400000 end ->
  let d := match duration with Some d => d | None => 86400000 end in
  let rl' := blacklistClient rl clientId duration now in
  clients rl' !! clientId = Some (mkClient [] true (Some (now + d)) 0 0 true) /\
  rl' <> rl /\
  isBlocked rl' clientId time = true /\
  checkLimit rl' clientId isSuccess time =
  (mkResult false 0 (Some (ceil_div_1000 (now + d - time))), rl').
Proof.
  intros Hnone Hnow Hge Hlt d rl'. fold d in Hlt.
  assert (Hc : clients rl' !! clientId = Some (mkClient [] true (Some (now + d)) 0 0 true)).
  { unfold rl', blacklistClient. rewrite Hnone. cbn [put clients].
    rewrite lookup_insert_eq. unfold d. destruct duration; reflexivity. }
  split; [exact Hc|]. split.
  { intros Heq. rewrite Heq in Hc. congruence. }
  split.
  - unfold isBlocked. rewrite Hc. unfold stillBlocked.
    cbn [blocked blockedUntil truthy_num andb].
    replace (now + d =? 0) with false by lia.
    replace (time <? now + d) with true by lia. reflexivity.
  - unfold checkLimit. rewrite Hc.
    rewrite (checkClient_stillBlocked _ _ _ time (now + d)); [|reflexivity|reflexivity|lia].
    f_equal. by apply put_same.
Qed.

Lemma blacklist_unseen_client_witness :
  let rl := create scenarioConfig in
  let rl' := blacklistClient rl "client" None 1000 in
  clients rl' !! "client"%string =
    Some (mkClient [] true (Some (1000 + 86400000)) 0 0 true) /\
  rl' <> rl /\
  isBlocked rl' "client" 2000 = true /\
  checkLimit rl' "client" true 2000 =
  (mkResult false 0 (Some (ceil_div_1000 (1000 + 86400000 - 2000))), rl').
Proof.
  apply (blacklist_unseen_client (create scenarioConfig) "client" None 1000 2000 true).
  - reflexivity.
  - lia.
  - lia.
  - lia.
Defined.

End RateLimiterProofs.

(** * Properties of the selection strategies *)

Module StrategyProofs.
Import LoadBalancer.

Lemma selectable_spec (n : ServerNode) :
  selectable n = true <-> isHealthy n = true /\ activeConnections n < maxConnections n.
Proof. unfold selectable. rewrite andb_true_iff, Z.ltb_lt. tauto. Qed.

Lemma filter_nil_none {A : Type} (p : A -> bool) (l : list A) :
  (forall x, In x l -> p x = false) -> List.filter p l = [].
Proof.
  induction l as [|x l IH]; intros H; [reflexivity|].
  cbn [List.filter]. rewrite (H x) by (left; reflexivity).
  apply IH. intros y Hy. apply H. right; exact Hy.
Qed.

Lemma roundRobin_select_in (i : nat) (nodes : list ServerNode) (n : ServerNode) :
  fst (roundRobin_select i nodes) = Some n -> In n (List.filter selectable nodes).
Proof.
  unfold roundRobin_select. destruct (List.filter selectable nodes) as [|x l] eqn:E.
  - discriminate.
  - cbn [fst]. apply nth_error_In.
Qed.

Lemma fold_least_in (rest : list ServerNode) : forall first : ServerNode,
  In (fold_left
        (fun min node =>
           if activeConnections node <? activeConnections min then node else min)
        rest first) (first :: rest).
Proof.
  induction rest as [|x rest IH]; intros first; cbn [fold_left].
  - left; reflexivity.
  - destruct (activeConnections x <? activeConnections first).
    + right. apply IH.
    + destruct (IH first) as [H|H]; [left; exact H | right; right; exact H].
Qed.

Lemma leastConnections_select_in (nodes : list ServerNode) (n : ServerNode) :
  leastConnections_select nodes = Some n -> In n (List.filter selectable nodes).
Proof.
  unfold leastConnections_select.
  destruct (List.filter selectable nodes) as [|x l]; [discriminate|].
  intros [= <-]. apply fold_least_in.
Qed.

Lemma insertByScore_in {A : Type} (score : A -> Q) (x y : A) (l : list A) :
  In y (insertByScore score x l) -> y = x \/ In y l.
Proof.
  induction l as [|z l IH]; cbn [insertByScore].
  - intros [H|[]]. left; congruence.
  - destruct (Qle_bool (score x) (score z)).
    + intros [H|H]; [left; congruence | right; exact H].
    + intros [H|H]; [right; left; exact H|].
      destruct (IH H) as [H'|H']; [left; exact H' | right; right; exact H'].
Qed.

Lemma sortByScore_in {A : Type} (score : A -> Q) (y : A) (l : list A) :
  In y (sortByScore score l) -> In y l.
Proof.
  induction l as [|x l IH]; cbn [sortByScore fold_right]; [tauto|].
  intros H. apply insertByScore_in in H. destruct H as [->|H].
  - left; reflexivity.
  - right. apply IH. exact H.
Qed.

Lemma performance_select_in (nodes : list ServerNode) (n : ServerNode) :
  performance_select nodes = Some n -> In n (List.filter selectable nodes).
Proof.
  unfold performance_select.
  destruct (List.filter selectable nodes) as [|x l] eqn:E; [discriminate|].
  set (scored := sortByScore snd _).
  destruct scored as [|[m sc] rest] eqn:Es; [discriminate|].
  cbn. intros [= <-].
  assert (Hin : In (m, sc) scored) by (rewrite Es; left; reflexivity).
  apply sortByScore_in, in_map_iff in Hin.
  destruct Hin as [m' [[= -> _] Hm]]. exact Hm.
Qed.

(** ** The weighted queue after reconciliation *)

Lemma has_id_true (i : string) (e : QueueEntry) :
  has_id i e = true <-> id (server e) = i.
Proof. unfold has_id. apply String.eqb_eq. Qed.

Lemma existsb_has_id (i : string) (q : list QueueEntry) :
  existsb (has_id i) q = true <-> In i (entryIds q).
Proof.
  rewrite existsb_exists. unfold entryIds. rewrite in_map_iff.
  split; intros [e [H1 H2]]; exists e.
  - apply has_id_true in H2. tauto.
  - split; [exact H2 | apply has_id_true; exact H1].
Qed.

Lemma entryIds_refreshFirst (n : ServerNode) (q : list QueueEntry) :
  entryIds (refreshFirst n q) = entryIds q.
Proof.
  induction q as [|e q IH]; [reflexivity|]. cbn [refreshFirst].
  destruct (has_id (id n) e) eqn:E.
  - apply has_id_true in E. unfold entryIds. cbn [List.map server]. by rewrite E.
  - unfold entryIds in *. cbn [List.map]. by rewrite IH.
Qed.

Section Reconcile.
Variable all : list ServerNode.

Lemma refreshFirst_settled (handled : list ServerNode) (n : ServerNode)
    (q : list QueueEntry) :
  List.NoDup (entryIds q) ->
  Forall (settled all handled) q ->
  In (id n) (entryIds q) ->
  Forall (settled all (handled ++ [n])) (refreshFirst n q).
Proof.
  induction q as [|e q IH]; intros Hnd Hq Hin; [constructor|].
  cbn [refreshFirst]. inversion Hnd as [|? ? Hnotin Hnd']; subst.
  inversion Hq as [|? ? He Hq']; subst.
  destruct (has_id (id n) e) eqn:E.
  - apply has_id_true in E. constructor.
    + left. cbn. apply in_or_app. right. left. reflexivity.
    + rewrite List.Forall_forall in Hq'. apply List.Forall_forall. intros e' He'.
      assert (Hne : id (server e') <> id n).
      { intros Heq. apply Hnotin. rewrite E, <- Heq.
        unfold entryIds. apply in_map_iff. exists e'. split; [reflexivity | exact He']. }
      destruct (Hq' e' He') as [H|[H1 H2]].
      * left. apply in_or_app. left; exact H.
      * right. split; [|exact H2]. rewrite List.map_app, in_app_iff.
        intros [H|[H|[]]]; [tauto | congruence].
  - assert (Hne : id (server e) <> id n).
    { intros Heq. apply has_id_true in Heq. congruence. }
    constructor.
    + destruct He as [H|[H1 H2]].
      * left. apply in_or_app. left; exact H.
      * right. split; [|exact H2]. rewrite List.map_app, in_app_iff.
        intros [H|[H|[]]]; [tauto | congruence].
    + apply IH; [exact Hnd' | exact Hq' |].
      destruct Hin as [H|H]; [congruence | exact H].
Qed.

Lemma reconcile_settled (handled : list ServerNode) (n : ServerNode)
    (q : list QueueEntry) :
  List.NoDup (entryIds q) ->
  Forall (settled all handled) q ->
  List.NoDup (entryIds (reconcile q n)) /\
  Forall (settled all (handled ++ [n])) (reconcile q n).
Proof.
  intros Hnd Hq. unfold reconcile.
  destruct (existsb (has_id (id n)) q) eqn:E; cbn [negb].
  - apply existsb_has_id in E. split.
    + rewrite entryIds_refreshFirst. exact Hnd.
    + apply refreshFirst_settled; assumption.
  - assert (Hnotin : ~ In (id n) (entryIds q)).
    { intros H. apply existsb_has_id in H. congruence. }
    split.
    + unfold entryIds. rewrite List.map_app. cbn.
      apply List.NoDup_app; [exact Hnd | |].
      * constructor; [intros [] | constructor].
      * intros x Hx [<-|[]]. exact (Hnotin Hx).
    + apply Forall_app. split.
      * rewrite List.Forall_forall in Hq. apply List.Forall_forall. intros e He.
        assert (Hne : id (server e) <> id n).
        { intros Heq. apply Hnotin. rewrite <- Heq. unfold entryIds.
          apply in_map_iff. exists e. split; [reflexivity | exact He]. }
        destruct (Hq e He) as [H|[H1 H2]].
        -- left. apply in_or_app. left; exact H.
        -- right. split; [|exact H2]. rewrite List.map_app, in_app_iff.
           intros [H|[H|[]]]; [tauto | congruence].
      * constructor; [|constructor]. left. cbn. apply in_or_app. right. left. reflexivity.
Qed.

Lemma fold_reconcile_settled (l : list ServerNode) :
  forall (handled : list ServerNode) (q : list QueueEntry),
    List.NoDup (entryIds q) ->
    Forall (settled all handled) q ->
    List.NoDup (entryIds (fold_left reconcile l q)) /\
    Forall (settled all (handled ++ l)) (fold_left reconcile l q).
Proof.
  induction l as [|n l IH]; intros handled q Hnd Hq; cbn [fold_left].
  - rewrite app_nil_r. tauto.
  - destruct (reconcile_settled handled n q Hnd Hq) as [Hnd' Hq'].
    replace (handled ++ n :: l) with ((handled ++ [n]) ++ l)
      by (rewrite <- app_assoc; reflexivity).
    apply IH; assumption.
Qed.
End Reconcile.

Lemma entryIds_filter_NoDup (p : QueueEntry -> bool) (q : list QueueEntry) :
  List.NoDup (entryIds q) -> List.NoDup (entryIds (List.filter p q)).
Proof.
  induction q as [|e q IH]; intros Hnd; [exact Hnd|].
  unfold entryIds in *. cbn [List.map List.filter] in *.
  apply List.NoDup_cons_iff in Hnd. destruct Hnd as [Hnotin Hnd].
  destruct (p e); [|apply IH; exact Hnd].
  cbn [List.map]. constructor; [|apply IH; exact Hnd].
  intros Hin. apply Hnotin. apply in_map_iff in Hin.
  destruct Hin as [e' [Heq He']]. apply filter_In in He'.
  apply in_map_iff. exists e'. tauto.
Qed.

Lemma updateWeightedQueue_servers (q : list QueueEntry) (nodes : list ServerNode) :
  List.NoDup (entryIds q) ->
  List.NoDup (entryIds (updateWeightedQueue q nodes)) /\
  Forall (fun e => In (server e) nodes) (updateWeightedQueue q nodes).
Proof.
  intros Hnd. unfold updateWeightedQueue.
  set (kept := List.filter _ q).
  assert (Hk : Forall (settled nodes []) kept).
  { apply List.Forall_forall. intros e He. apply filter_In in He.
    destruct He as [_ He]. apply existsb_exists in He.
    destruct He as [n [Hn Hid]]. apply andb_true_iff in Hid.
    destruct Hid as [Hid _]. apply String.eqb_eq in Hid.
    right. split; [intros []|]. rewrite <- Hid. apply in_map. exact Hn. }
  destruct (fold_reconcile_settled nodes nodes [] kept) as [Hnd' Hs];
    [apply entryIds_filter_NoDup; exact Hnd | exact Hk |].
  split; [exact Hnd'|]. cbn [app] in Hs.
  eapply List.Forall_impl; [|exact Hs].
  intros e [H|[H1 H2]]; [exact H | contradiction].
Qed.

Lemma entryIds_alter_decrement (i : nat) : forall q : list QueueEntry,
  entryIds (alter decrement i q) = entryIds q.
Proof.
  induction i as [|i IH]; intros [|e q]; try reflexivity.
  unfold entryIds in *. cbn [alter list_alter List.map]. f_equal. apply IH.
Qed.

Lemma entryIds_resetWeight (q : list QueueEntry) :
  entryIds (List.map resetWeight q) = entryIds q.
Proof. unfold entryIds. rewrite List.map_map. reflexivity. Qed.

Lemma entryIds_pickEntry (q : list QueueEntry) :
  entryIds (snd (pickEntry q)) = entryIds q.
Proof.
  unfold pickEntry. destruct q as [|e q]; [reflexivity|].
  destruct (findIndex _ (e :: q)); cbn [snd].
  - apply entryIds_alter_decrement.
  - rewrite entryIds_alter_decrement. apply entryIds_resetWeight.
Qed.

Lemma pickEntry_server (q : list QueueEntry) (n : ServerNode) :
  fst (pickEntry q) = Some n -> exists e, In e q /\ server e = n.
Proof.
  unfold pickEntry. destruct q as [|e q]; [discriminate|].
  destruct (findIndex _ (e :: q)) as [i|]; cbn [fst].
  - destruct ((e :: q) !! i) as [e'|] eqn:E; [|discriminate].
    intros [= <-]. exists e'. split; [|reflexivity].
    apply list_elem_of_In. eapply list_elem_of_lookup_2. exact E.
  - cbn. intros [= <-]. exists e. split; [left|]; reflexivity.
Qed.

Lemma weighted_select_sound (q : list QueueEntry) (nodes : list ServerNode) :
  List.NoDup (entryIds q) ->
  List.NoDup (entryIds (snd (weighted_select q nodes))) /\
  (forall n, fst (weighted_select q nodes) = Some n ->
             In n (List.filter selectable nodes)).
Proof.
  intros Hnd. unfold weighted_select.
  destruct (List.filter selectable nodes) as [|x l] eqn:E; [split; [exact Hnd|discriminate]|].
  destruct (updateWeightedQueue_servers q (x :: l) Hnd) as [Hnd' Hs].
  split.
  - rewrite entryIds_pickEntry. exact Hnd'.
  - intros n Hn. apply pickEntry_server in Hn. destruct Hn as [e [He <-]].
    rewrite List.Forall_forall in Hs. apply Hs. exact He.
Qed.

Lemma newStrategy_wellFormed (c : StrategyClass) : wellFormed (newStrategy c).
Proof. destruct c; cbn; try exact I. constructor. Qed.

Lemma strategy_selectServer_wellFormed (s : Strategy) (nodes : list ServerNode) :
  wellFormed s -> wellFormed (snd (strategy_selectServer s nodes)).
Proof.
  destruct s as [i| |q|]; intros Hwf; cbn [strategy_selectServer].
  - destruct (roundRobin_select i nodes). exact I.
  - exact I.
  - destruct (weighted_select_sound q nodes Hwf) as [H _].
    destruct (weighted_select q nodes). exact H.
  - exact I.
Qed.

Lemma afterCalls_wellFormed (calls : list (list ServerNode)) : forall s : Strategy,
  wellFormed s -> wellFormed (afterCalls s calls).
Proof.
  induction calls as [|nodes calls IH]; intros s Hwf; [exact Hwf|].
  cbn [afterCalls fold_left]. apply IH. apply strategy_selectServer_wellFormed. exact Hwf.
Qed.

Lemma strategy_selectServer_in (s : Strategy) (nodes : list ServerNode) (n : ServerNode) :
  wellFormed s ->
  fst (strategy_selectServer s nodes) = Some n ->
  In n (List.filter selectable nodes).
Proof.
  destruct s as [i| |q|]; intros Hwf; cbn [strategy_selectServer].
  - pose proof (roundRobin_select_in i nodes n) as H.
    destruct (roundRobin_select i nodes). exact H.
  - apply leastConnections_select_in.
  - destruct (weighted_select_sound q nodes Hwf) as [_ H].
    destruct (weighted_select q nodes). apply H.
  - apply performance_select_in.
Qed.

Lemma strategy_selectServer_none (s : Strategy) (nodes : list ServerNode) :
  List.filter selectable nodes = [] ->
  fst (strategy_selectServer s nodes) = None.
Proof.
  intros E. destruct s as [i| |q|]; cbn [strategy_selectServer].
  - unfold roundRobin_select. rewrite E. reflexivity.
  - unfold leastConnections_select. rewrite E. reflexivity.
  - unfold weighted_select. rewrite E. reflexivity.
  - unfold performance_select. rewrite E. reflexivity.
Qed.

(** C1: whatever calls a strategy object of one of the four classes has
    served since it was built, the node that [selectServer] returns for a
    list [nodes] is one of [nodes], is healthy and has
    [activeConnections < maxConnections]; and when every node of the list
    is unhealthy or at capacity the call returns none. *)
Theorem selectServer_returns_only_selectable (c : StrategyClass)
    (calls : list (list ServerNode)) (nodes : list ServerNode) :
  let s := afterCalls (newStrategy c) calls in
  (forall n, fst (strategy_selectServer s nodes) = Some n ->
     In n nodes /\ isHealthy n = true /\ activeConnections n < maxConnections n) /\
  ((forall n, In n nodes ->
      isHealthy n = false \/ maxConnections n <= activeConnections n) ->
   fst (strategy_selectServer s nodes) = None).
Proof.
  intros s. split.
  - intros n Hn. apply strategy_selectServer_in in Hn.
    + apply filter_In in Hn. destruct Hn as [Hin Hsel].
      apply selectable_spec in Hsel. tauto.
    + apply afterCalls_wellFormed, newStrategy_wellFormed.
  - intros Hnone. apply strategy_selectServer_none. apply filter_nil_none.
    intros n Hn. unfold selectable. destruct (Hnone n Hn) as [H|H].
    + rewrite H. reflexivity.
    + replace (activeConnections n <? maxConnections n) with false by lia.
      apply andb_false_r.
Qed.

Lemma selectServer_returns_only_selectable_witness :
  let a := sampleNode "A" true 0 2 in
  let b := sampleNode "B" false 0 1 in
  let full := sampleNode "C" true 10 1 in
  (In a [b; a; full] /\ isHealthy a = true /\ activeConnections a < maxConnections a) /\
  fst (strategy_selectServer
         (afterCalls (newStrategy WeightedRoundRobin) [[b; a; full]]) [b; full]) = None.
Proof.
  cbn zeta. split.
  - apply (proj1 (selectServer_returns_only_selectable WeightedRoundRobin
                    [[sampleNode "B" false 0 1; sampleNode "A" true 0 2;
                      sampleNode "C" true 10 1]]
                    [sampleNode "B" false 0 1; sampleNode "A" true 0 2;
                     sampleNode "C" true 10 1])).
    reflexivity.
  - apply (proj2 (selectServer_returns_only_selectable WeightedRoundRobin
                    [[sampleNode "B" false 0 1; sampleNode "A" true 0 2;
                      sampleNode "C" true 10 1]]
                    [sampleNode "B" false 0 1; sampleNode "C" true 10 1])).
    intros n [<-|[<-|[]]]; [left; reflexivity | right; cbn; lia].
Defined.

(** ** The weighted strategy on a static node list *)

Lemma filter_all {A : Type} (p : A -> bool) (l : list A) :
  Forall (fun x => p x = true) l -> List.filter p l = l.
Proof.
  induction 1 as [|x l Hx _ IH]; [reflexivity|].
  cbn [List.filter]. rewrite Hx, IH. reflexivity.
Qed.

Lemma entryIds_servers (q : list QueueEntry) :
  entryIds q = List.map id (List.map server q).
Proof. unfold entryIds. rewrite List.map_map. reflexivity. Qed.

Lemma refreshFirst_same (n : ServerNode) (q : list QueueEntry) :
  List.NoDup (entryIds q) -> In n (List.map server q) -> refreshFirst n q = q.
Proof.
  induction q as [|e q IH]; intros Hnd Hin; [reflexivity|].
  cbn [refreshFirst]. unfold entryIds in Hnd. cbn [List.map] in Hnd, Hin.
  apply List.NoDup_cons_iff in Hnd. destruct Hnd as [Hnotin Hnd].
  destruct (has_id (id n) e) eqn:E.
  - apply has_id_true in E. destruct Hin as [Hin|Hin].
    + subst n. destruct e; reflexivity.
    + exfalso. apply Hnotin. rewrite E. apply in_map_iff in Hin.
      destruct Hin as [e' [<- He']]. apply in_map_iff. exists e'. tauto.
  - f_equal. apply IH; [exact Hnd|]. destruct Hin as [Hin|Hin]; [|exact Hin].
    subst n. unfold has_id in E. rewrite String.eqb_refl in E. discriminate.
Qed.

Lemma fold_reconcile_same (l : list ServerNode) (q : list QueueEntry) :
  List.NoDup (entryIds q) ->
  (forall n, In n l -> In n (List.map server q)) ->
  fold_left reconcile l q = q.
Proof.
  intros Hnd. induction l as [|n l IH]; intros Hl; [reflexivity|].
  cbn [fold_left].
  assert (Hn : In n (List.map server q)) by (apply Hl; left; reflexivity).
  assert (E : reconcile q n = q).
  { unfold reconcile.
    assert (Hex : existsb (has_id (id n)) q = true).
    { apply existsb_has_id. rewrite entryIds_servers. apply in_map. exact Hn. }
    rewrite Hex. cbn [negb]. apply refreshFirst_same; assumption. }
  rewrite E. apply IH. intros m Hm. apply Hl. right; exact Hm.
Qed.

Lemma fold_reconcile_fresh (l : list ServerNode) : forall q : list QueueEntry,
  List.NoDup (List.map id l) ->
  (forall n, In n l -> ~ In (id n) (entryIds q)) ->
  fold_left reconcile l q = q ++ initialQueue l.
Proof.
  induction l as [|n l IH]; intros q Hnd Hfresh; cbn [fold_left initialQueue List.map].
  - rewrite app_nil_r. reflexivity.
  - cbn [List.map] in Hnd. apply List.NoDup_cons_iff in Hnd. destruct Hnd as [Hnotin Hnd].
    assert (E : reconcile q n = q ++ [mkEntry n (weight n)]).
    { unfold reconcile.
      destruct (existsb (has_id (id n)) q) eqn:Hex; [|reflexivity].
      apply existsb_has_id in Hex. exfalso. apply (Hfresh n); [left; reflexivity | exact Hex]. }
    rewrite E, IH; [rewrite <- app_assoc; reflexivity | exact Hnd |].
    intros m Hm Hin. unfold entryIds in Hin. rewrite List.map_app, in_app_iff in Hin.
    destruct Hin as [Hin|[Hin|[]]].
    + apply (Hfresh m); [right; exact Hm | exact Hin].
    + cbn in Hin. apply Hnotin. rewrite Hin. apply in_map. exact Hm.
Qed.

Lemma weighted_select_nonempty (q : list QueueEntry) (nodes : list ServerNode) :
  List.filter selectable nodes <> [] ->
  weighted_select q nodes =
  pickEntry (updateWeightedQueue q (List.filter selectable nodes)).
Proof.
  intros Hne. unfold weighted_select.
  destruct (List.filter selectable nodes); [congruence | reflexivity].
Qed.

Lemma findIndex_pending (q : list QueueEntry) : forall i : nat,
  findIndex (fun entry => 0 <? remainingWeight entry) q = Some i ->
  exists e, q !! i = Some e /\
            pending q = server e :: pending (alter decrement i q) /\
            List.map server (alter decrement i q) = List.map server q.
Proof.
  induction q as [|e q IH]; intros i; cbn [findIndex]; [discriminate|].
  destruct (0 <? remainingWeight e) eqn:E.
  - intros [= <-]. exists e. split; [reflexivity|]. split; [|reflexivity].
    apply Z.ltb_lt in E. unfold pending.
    cbn [alter list_alter flat_map decrement server remainingWeight].
    replace (Z.to_nat (remainingWeight e)) with (S (Z.to_nat (remainingWeight e - 1))) by lia.
    reflexivity.
  - destruct (findIndex _ q) as [j|] eqn:Ej; [|discriminate].
    intros [= <-]. destruct (IH j eq_refl) as [e' [H1 [H2 H3]]].
    exists e'. split; [exact H1|]. apply Z.ltb_ge in E. unfold pending in *.
    cbn [alter list_alter flat_map List.map].
    replace (Z.to_nat (remainingWeight e)) with O by lia. cbn [repeat app].
    split; [exact H2 | f_equal; exact H3].
Qed.

Lemma findIndex_none_pending (q : list QueueEntry) :
  findIndex (fun entry => 0 <? remainingWeight entry) q = None -> pending q = [].
Proof.
  induction q as [|e q IH]; cbn [findIndex]; [reflexivity|].
  destruct (0 <? remainingWeight e) eqn:E; [discriminate|].
  destruct (findIndex _ q); [discriminate|]. intros _.
  apply Z.ltb_ge in E. unfold pending in *. cbn [flat_map].
  replace (Z.to_nat (remainingWeight e)) with O by lia. cbn [repeat app].
  apply IH. reflexivity.
Qed.

Lemma pending_resetWeight (q : list QueueEntry) :
  pending (List.map resetWeight q) = fullCycle (List.map server q).
Proof.
  unfold pending, fullCycle. induction q as [|e q IH]; [reflexivity|].
  cbn [List.map flat_map resetWeight server remainingWeight]. rewrite IH. reflexivity.
Qed.

(** A step that draws on what the queue still owes. *)
Lemma pickEntry_pending (q : list QueueEntry) (x : ServerNode) (l : list ServerNode) :
  pending q = x :: l ->
  exists q', pickEntry q = (Some x, q') /\
             List.map server q' = List.map server q /\ pending q' = l.
Proof.
  intros Hp. unfold pickEntry. destruct q as [|e q]; [discriminate|].
  destruct (findIndex _ (e :: q)) as [i|] eqn:E.
  - destruct (findIndex_pending _ _ E) as [e' [H1 [H2 H3]]].
    rewrite H1. cbn [fmap option_fmap option_map].
    rewrite Hp in H2. injection H2 as -> ->.
    eexists. split; [reflexivity|]. split; [exact H3 | reflexivity].
  - apply findIndex_none_pending in E. congruence.
Qed.

(** A step on an exhausted queue: the weights are reset and the first
    entry is taken. *)
Lemma pickEntry_exhausted (e : QueueEntry) (q : list QueueEntry) :
  pending (e :: q) = [] ->
  1 <= weight (server e) ->
  exists q', pickEntry (e :: q) = (Some (server e), q') /\
             List.map server q' = List.map server (e :: q) /\
             fullCycle (List.map server (e :: q)) = server e :: pending q'.
Proof.
  intros Hp Hw. unfold pickEntry.
  destruct (findIndex _ (e :: q)) as [i|] eqn:E.
  - destruct (findIndex_pending _ _ E) as [e' [_ [H2 _]]]. congruence.
  - eexists. split; [reflexivity|]. cbn [List.map alter list_alter]. split.
    + cbn [decrement resetWeight server]. f_equal.
      rewrite List.map_map. reflexivity.
    + unfold fullCycle, pending. cbn [flat_map decrement resetWeight server remainingWeight].
      replace (Z.to_nat (weight (server e))) with (S (Z.to_nat (weight (server e) - 1))) by lia.
      cbn [repeat app]. f_equal. f_equal.
      change (fullCycle (List.map server q) = pending (List.map resetWeight q)).
      symmetry. apply pending_resetWeight.
Qed.

Lemma weighted_run_app (a b : nat) (nodes : list ServerNode) :
  forall q : list QueueEntry,
    weighted_run (a + b) q nodes =
    (fst (weighted_run a q nodes) ++
     fst (weighted_run b (snd (weighted_run a q nodes)) nodes),
     snd (weighted_run b (snd (weighted_run a q nodes)) nodes)).
Proof.
  induction a as [|a IH]; intros q; cbn [Nat.add weighted_run].
  - cbn. destruct (weighted_run b q nodes); reflexivity.
  - destruct (weighted_select q nodes) as [r q1]. rewrite IH.
    destruct (weighted_run a q1 nodes) as [rs q2]. reflexivity.
Qed.

Lemma timesSelected_Some (i : string) (l : list ServerNode) :
  timesSelected i (List.map Some l) = countId i l.
Proof.
  unfold timesSelected, countId. induction l as [|n l IH]; [reflexivity|].
  cbn [List.map List.filter]. destruct (String.eqb (id n) i); cbn [length]; lia.
Qed.

Lemma countId_app (i : string) (l1 l2 : list ServerNode) :
  countId i (l1 ++ l2) = (countId i l1 + countId i l2)%nat.
Proof. unfold countId. rewrite List.filter_app, length_app. reflexivity. Qed.

Lemma countId_repeat (i : string) (n : ServerNode) (k : nat) :
  countId i (repeat n k) = if String.eqb (id n) i then k else O.
Proof.
  unfold countId. induction k as [|k IH]; cbn [repeat List.filter].
  - destruct (String.eqb (id n) i); reflexivity.
  - destruct (String.eqb (id n) i); cbn [length]; lia.
Qed.

Lemma countId_rotate (i : string) (j : nat) (l : list ServerNode) :
  countId i (skipn j l ++ firstn j l) = countId i l.
Proof.
  rewrite countId_app, Nat.add_comm, <- countId_app, firstn_skipn. reflexivity.
Qed.

Lemma countId_fullCycle_absent (i : string) (nodes : list ServerNode) :
  ~ In i (List.map id nodes) -> countId i (fullCycle nodes) = O.
Proof.
  induction nodes as [|m nodes IH]; intros Hi; [reflexivity|].
  unfold fullCycle in *. cbn [flat_map]. rewrite countId_app, countId_repeat.
  cbn [List.map] in Hi. destruct (String.eqb (id m) i) eqn:E.
  - apply String.eqb_eq in E. exfalso. apply Hi. left; exact E.
  - rewrite IH; [reflexivity|]. intros H. apply Hi. right; exact H.
Qed.

Lemma countId_fullCycle (n : ServerNode) (nodes : list ServerNode) :
  List.NoDup (List.map id nodes) -> In n nodes ->
  countId (id n) (fullCycle nodes) = Z.to_nat (weight n).
Proof.
  induction nodes as [|m nodes IH]; intros Hnd Hin; [destruct Hin|].
  cbn [List.map] in Hnd. apply List.NoDup_cons_iff in Hnd. destruct Hnd as [Hnotin Hnd].
  change (fullCycle (m :: nodes)) with (repeat m (Z.to_nat (weight m)) ++ fullCycle nodes).
  rewrite countId_app, countId_repeat. destruct Hin as [->|Hin].
  - rewrite String.eqb_refl, countId_fullCycle_absent by exact Hnotin. lia.
  - destruct (String.eqb (id m) (id n)) eqn:E.
    + apply String.eqb_eq in E. exfalso. apply Hnotin. rewrite E. apply in_map. exact Hin.
    + rewrite IH by assumption. reflexivity.
Qed.

Lemma length_fullCycle (nodes : list ServerNode) :
  Forall (fun n => 0 <= weight n) nodes ->
  length (fullCycle nodes) = Z.to_nat (totalWeight nodes).
Proof.
  unfold fullCycle, totalWeight. induction 1 as [|n nodes Hn Hall IH]; [reflexivity|].
  cbn [flat_map List.map fold_right]. rewrite length_app, repeat_length, IH.
  assert (0 <= fold_right Z.add 0 (List.map weight nodes)).
  { clear -Hall. induction Hall; cbn; lia. }
  lia.
Qed.

Section Static.
Variable nodes : list ServerNode.
Hypothesis nodes_selectable : Forall (fun n => selectable n = true) nodes.
Hypothesis nodes_ids : List.NoDup (List.map id nodes).

Lemma update_static (q : list QueueEntry) :
  List.map server q = nodes -> updateWeightedQueue q nodes = q.
Proof.
  intros Hq. unfold updateWeightedQueue.
  assert (Hnd : List.NoDup (entryIds q)) by (rewrite entryIds_servers, Hq; exact nodes_ids).
  rewrite filter_all.
  - apply fold_reconcile_same; [exact Hnd|]. intros n Hn. rewrite Hq. exact Hn.
  - apply List.Forall_forall. intros e He. apply existsb_exists.
    exists (server e). assert (Hin : In (server e) nodes).
    { rewrite <- Hq. apply in_map. exact He. }
    split; [exact Hin|]. rewrite String.eqb_refl. cbn [andb].
    rewrite List.Forall_forall in nodes_selectable. apply nodes_selectable. exact Hin.
Qed.

Lemma update_initial : updateWeightedQueue [] nodes = initialQueue nodes.
Proof.
  unfold updateWeightedQueue. cbn [List.filter].
  rewrite fold_reconcile_fresh; [reflexivity | exact nodes_ids |].
  intros n _ [].
Qed.

Lemma servers_initialQueue : List.map server (initialQueue nodes) = nodes.
Proof.
  unfold initialQueue. rewrite List.map_map. cbn [server]. apply List.map_id.
Qed.

Lemma weighted_select_static (q : list QueueEntry) :
  List.map server q = nodes -> nodes <> [] ->
  weighted_select q nodes = pickEntry q.
Proof.
  intros Hq Hne. rewrite weighted_select_nonempty;
    rewrite (filter_all _ _ nodes_selectable); [|exact Hne].
  rewrite update_static by exact Hq. reflexivity.
Qed.

Lemma weighted_select_first :
  nodes <> [] ->
  weighted_select [] nodes = pickEntry (initialQueue nodes).
Proof.
  intros Hne. rewrite weighted_select_nonempty;
    rewrite (filter_all _ _ nodes_selectable); [|exact Hne].
  rewrite update_initial. reflexivity.
Qed.

Hypothesis first_weight :
  match nodes with [] => True | first :: _ => 1 <= weight first end.

Lemma step_owed (q : list QueueEntry) (x : ServerNode) (l : list ServerNode) :
  List.map server q = nodes -> pending q = x :: l ->
  exists q', weighted_select q nodes = (Some x, q') /\
             List.map server q' = nodes /\ pending q' = l.
Proof.
  intros Hq Hp.
  assert (Hne : nodes <> []).
  { intros E. rewrite E in Hq. apply map_eq_nil in Hq. subst q. discriminate. }
  rewrite weighted_select_static by assumption.
  destruct (pickEntry_pending q x l Hp) as [q' [H1 [H2 H3]]].
  exists q'. rewrite H2, Hq in *. tauto.
Qed.

Lemma step_exhausted (q : list QueueEntry) :
  List.map server q = nodes -> nodes <> [] -> pending q = [] ->
  exists x l q', fullCycle nodes = x :: l /\
                 weighted_select q nodes = (Some x, q') /\
                 List.map server q' = nodes /\ pending q' = l.
Proof.
  intros Hq Hne Hp. rewrite weighted_select_static by assumption.
  destruct q as [|e q]; [cbn in Hq; congruence|].
  assert (Hw : 1 <= weight (server e)).
  { clear -first_weight Hq. rewrite <- Hq in first_weight. exact first_weight. }
  destruct (pickEntry_exhausted e q Hp Hw) as [q' [H1 [H2 H3]]].
  exists (server e), (pending q'), q'. rewrite Hq in *. tauto.
Qed.

Lemma run_owed (m : nat) : forall (q : list QueueEntry) (l : list ServerNode),
  List.map server q = nodes -> pending q = l -> (m <= length l)%nat ->
  exists q', weighted_run m q nodes = (List.map Some (firstn m l), q') /\
             List.map server q' = nodes /\ pending q' = skipn m l.
Proof.
  induction m as [|m IH]; intros q l Hq Hp Hm.
  - exists q. cbn. tauto.
  - destruct l as [|x l]; [cbn in Hm; lia|].
    destruct (step_owed q x l Hq Hp) as [q1 [H1 [H2 H3]]].
    destruct (IH q1 l H2 H3) as [q' [H4 [H5 H6]]]; [cbn in Hm; lia|].
    exists q'. cbn [weighted_run]. rewrite H1, H4. cbn. tauto.
Qed.

Lemma run_refill (m : nat) (q : list QueueEntry) :
  List.map server q = nodes -> nodes <> [] -> pending q = [] ->
  (1 <= m <= length (fullCycle nodes))%nat ->
  exists q', weighted_run m q nodes = (List.map Some (firstn m (fullCycle nodes)), q') /\
             position nodes m q'.
Proof.
  intros Hq Hne Hp Hm. destruct m as [|m]; [lia|].
  destruct (step_exhausted q Hq Hne Hp) as [x [l [q1 [HE [H1 [H2 H3]]]]]].
  rewrite HE in *. cbn [length] in Hm.
  destruct (run_owed m q1 l H2 H3) as [q' [H4 [H5 H6]]]; [lia|].
  exists q'. cbn [weighted_run]. rewrite H1, H4. unfold position. rewrite HE.
  cbn [firstn skipn List.map]. split; [reflexivity | split; [exact H5 | exact H6]].
Qed.

Lemma step_position (j : nat) (q : list QueueEntry) :
  nodes <> [] -> position nodes j q ->
  exists j', (j' <= length (fullCycle nodes))%nat /\
             position nodes j' (snd (weighted_select q nodes)).
Proof.
  intros Hne [Hq Hp].
  destruct (pending q) as [|x l] eqn:E.
  - destruct (step_exhausted q Hq Hne E) as [x [l [q' [HE [H1 [H2 H3]]]]]].
    exists 1%nat. rewrite H1, HE. cbn. unfold position. split; [lia|]. rewrite HE. cbn. tauto.
  - destruct (step_owed q x l Hq E) as [q' [H1 [H2 H3]]].
    assert (Hlen : (j < length (fullCycle nodes))%nat).
    { destruct (Nat.lt_ge_cases j (length (fullCycle nodes))) as [H|H]; [exact H|].
      rewrite skipn_all2 in Hp by exact H. discriminate. }
    exists (S j). rewrite H1. cbn [snd]. split; [lia|]. split; [exact H2|].
    rewrite H3. replace (S j) with (1 + j)%nat by lia.
    rewrite <- skipn_skipn, <- Hp. reflexivity.
Qed.

Lemma run_position (k : nat) : forall (j : nat) (q : list QueueEntry),
  nodes <> [] -> (j <= length (fullCycle nodes))%nat -> position nodes j q ->
  exists j', (j' <= length (fullCycle nodes))%nat /\
             position nodes j' (snd (weighted_run k q nodes)).
Proof.
  induction k as [|k IH]; intros j q Hne Hj Hpos.
  - exists j. cbn. tauto.
  - destruct (step_position j q Hne Hpos) as [j1 [Hj1 Hpos1]].
    cbn [weighted_run]. destruct (weighted_select q nodes) as [r q1]. cbn [snd] in Hpos1.
    destruct (IH j1 q1 Hne Hj1 Hpos1) as [j' H].
    destruct (weighted_run k q1 nodes) as [rs q2]. cbn [snd] in *. exists j'. exact H.
Qed.

(** From any position, as many calls as the cycle is long return the
    cycle, rotated. *)
Lemma run_window (j : nat) (q : list QueueEntry) :
  nodes <> [] -> (j <= length (fullCycle nodes))%nat -> position nodes j q ->
  fst (weighted_run (length (fullCycle nodes)) q nodes) =
  List.map Some (skipn j (fullCycle nodes) ++ firstn j (fullCycle nodes)).
Proof.
  intros Hne Hj [Hq Hp]. set (E := fullCycle nodes) in *.
  replace (length E) with ((length E - j) + j)%nat by lia.
  rewrite weighted_run_app. cbn [fst].
  destruct (run_owed (length E - j) q (skipn j E) Hq Hp) as [q1 [H1 [H2 H3]]];
    [rewrite length_skipn; lia|].
  rewrite H1. cbn [fst snd].
  rewrite firstn_all2 by (rewrite length_skipn; lia).
  rewrite skipn_all2 in H3 by (rewrite length_skipn; lia).
  rewrite List.map_app. f_equal.
  destruct j as [|j]; [reflexivity|].
  destruct (run_refill (S j) q1 H2 Hne H3) as [q2 [H4 _]]; [fold E; lia|].
  rewrite H4. reflexivity.
Qed.
End Static.

(** C6, as amended: for a static list of nodes with distinct identifiers,
    all healthy and below capacity, with non-negative weights of which the
    first node's is at least 1, every run of sum-of-all-weights consecutive
    [selectServer] calls of the weighted strategy, started after any number
    [k] of earlier calls, returns each node exactly [weight] times. *)
Theorem weighted_cycle_counts (nodes : list ServerNode) (k : nat) (n : ServerNode) :
  Forall (fun n => selectable n = true) nodes ->
  List.NoDup (List.map id nodes) ->
  Forall (fun n => 0 <= weight n) nodes ->
  match nodes with [] => True | first :: _ => 1 <= weight first end ->
  In n nodes ->
  let queue := snd (weighted_run k [] nodes) in
  let cycle := fst (weighted_run (Z.to_nat (totalWeight nodes)) queue nodes) in
  Z.of_nat (timesSelected (id n) cycle) = weight n.
Proof.
  intros Hsel Hids Hw Hfirst Hin queue cycle.
  assert (Hne : nodes <> []) by (intros E; rewrite E in Hin; destruct Hin).
  assert (Hwn : 0 <= weight n).
  { rewrite List.Forall_forall in Hw. apply Hw. exact Hin. }
  assert (Hlen : (1 <= length (fullCycle nodes))%nat).
  { destruct nodes as [|first rest]; [congruence|].
    change (fullCycle (first :: rest))
      with (repeat first (Z.to_nat (weight first)) ++ fullCycle rest).
    rewrite length_app, repeat_length. lia. }
  assert (Hinit : position nodes 0 (initialQueue nodes)).
  { split; [apply servers_initialQueue|]. unfold pending, fullCycle, initialQueue.
    cbn [skipn]. clear. induction nodes as [|m l IH]; [reflexivity|].
    cbn [List.map flat_map server remainingWeight]. rewrite IH. reflexivity. }
  assert (Hpos : exists j q, (j <= length (fullCycle nodes))%nat /\ position nodes j q /\
            cycle = fst (weighted_run (Z.to_nat (totalWeight nodes)) q nodes)).
  { unfold cycle, queue. destruct k as [|k].
    - exists O, (initialQueue nodes). split; [lia|]. split; [exact Hinit|].
      cbn [weighted_run snd]. rewrite <- length_fullCycle by exact Hw.
      destruct (length (fullCycle nodes)) as [|m]; [lia|].
      cbn [weighted_run]. rewrite weighted_select_first by assumption.
      rewrite (weighted_select_static nodes Hsel Hids (initialQueue nodes));
        [reflexivity | apply servers_initialQueue | exact Hne].
    - assert (E : weighted_run (S k) [] nodes = weighted_run (S k) (initialQueue nodes) nodes).
      { cbn [weighted_run]. rewrite weighted_select_first by assumption.
        rewrite (weighted_select_static nodes Hsel Hids (initialQueue nodes));
          [reflexivity | apply servers_initialQueue | exact Hne]. }
      rewrite E.
      destruct (run_position nodes Hsel Hids Hfirst (S k) 0 (initialQueue nodes))
        as [j [Hj Hposj]]; [exact Hne | lia | exact Hinit |].
      exists j, (snd (weighted_run (S k) (initialQueue nodes) nodes)). tauto. }
  destruct Hpos as [j [q [Hj [Hposj ->]]]].
  rewrite <- length_fullCycle by exact Hw.
  rewrite (run_window nodes Hsel Hids Hfirst j q Hne Hj Hposj).
  rewrite timesSelected_Some, countId_rotate, countId_fullCycle by assumption.
  lia.
Qed.

Lemma weighted_cycle_counts_witness :
  let nodes := [sampleNode "A" true 0 2; sampleNode "B" true 0 1] in
  let queue := snd (weighted_run 2 [] nodes) in
  let cycle := fst (weighted_run (Z.to_nat (totalWeight nodes)) queue nodes) in
  Z.of_nat (timesSelected "A" cycle) = 2.
Proof.
  apply (weighted_cycle_counts [sampleNode "A" true 0 2; sampleNode "B" true 0 1] 2
                               (sampleNode "A" true 0 2)).
  - repeat constructor.
  - repeat constructor; cbn; intuition discriminate.
  - repeat constructor; cbn; lia.
  - cbn. lia.
  - left. reflexivity.
Defined.

(** C6, as stated, fails when the first node has weight 0: with nodes
    ["A"] (weight 0) and ["B"] (weight 1) the calls return B, A, B, A, ...,
    so the one-call cycle after the first call returns ["A"] once. *)
Lemma weighted_cycle_zero_weight_first :
  let nodes := [sampleNode "A" true 0 0; sampleNode "B" true 0 1] in
  Forall (fun n => selectable n = true) nodes /\
  List.NoDup (List.map id nodes) /\
  ~ (forall (k : nat) (n : ServerNode), In n nodes ->
       Z.of_nat (timesSelected (id n)
                   (fst (weighted_run (Z.to_nat (totalWeight nodes))
                           (snd (weighted_run k [] nodes)) nodes))) = weight n).
Proof.
  cbn zeta. split; [repeat constructor|]. split.
  - repeat constructor; cbn; intuition discriminate.
  - intros H. specialize (H 1%nat (sampleNode "A" true 0 0) (or_introl eq_refl)).
    vm_compute in H. discriminate.
Qed.

End StrategyProofs.

(** * Properties of the balancer *)

Module BalancerProofs.
Import LoadBalancer.

(** ** The node registry *)
Lemma map_get_In {V : Type} (k : string) (m : list (string * V)) (v : V) :
  map_get k m = Some v -> exists k', In (k', v) m.
Proof.
  induction m as [|[k' v'] m IH]; cbn [map_get]; [discriminate|].
  destruct (String.eqb k' k).
  - intros [= <-]. exists k'. left; reflexivity.
  - intros H. destruct (IH H) as [k'' Hk]. exists k''. right; exact Hk.
Qed.

Lemma map_get_absent {V : Type} (k : string) (m : list (string * V)) :
  ~ In k (List.map fst m) -> map_get k m = None.
Proof.
  induction m as [|[k' v'] m IH]; intros Hk; [reflexivity|].
  cbn [map_get]. cbn [List.map fst] in Hk.
  destruct (String.eqb k' k) eqn:E.
  - apply String.eqb_eq in E. exfalso. apply Hk. left; exact E.
  - apply IH. intros H. apply Hk. right; exact H.
Qed.

Lemma map_set_Forall {V : Type} (P : string * V -> Prop) (k : string) (v : V)
    (m : list (string * V)) :
  P (k, v) -> Forall P m -> Forall P (map_set k v m).
Proof.
  intros Hv. induction 1 as [|[k' v'] m Hx Hm IH]; cbn [map_set].
  - constructor; [exact Hv | constructor].
  - destruct (String.eqb k' k); constructor; assumption.
Qed.

Lemma map_delete_Forall {V : Type} (P : string * V -> Prop) (k : string)
    (m : list (string * V)) :
  Forall P m -> Forall P (map_delete k m).
Proof.
  intros H. unfold map_delete. rewrite List.Forall_forall in *.
  intros x Hx. apply filter_In in Hx. apply H. tauto.
Qed.

Lemma map_get_Forall {V : Type} (P : string * V -> Prop) (Q : V -> Prop)
    (k : string) (m : list (string * V)) (v : V) :
  (forall k' v', P (k', v') -> Q v') ->
  Forall P m -> map_get k m = Some v -> Q v.
Proof.
  intros HPQ Hm Hget. destruct (map_get_In k m v Hget) as [k' Hin].
  rewrite List.Forall_forall in Hm. exact (HPQ k' v (Hm _ Hin)).
Qed.

(** ** Unknown identifiers *)

(** C9: for an identifier that is not a key of the node registry,
    [removeServer] returns false and [updateServerStats],
    [incrementConnection] and [decrementConnection] return normally; each
    leaves the whole balancer (registry, breaker table, sticky sessions)
    as it is and emits no event. *)
Theorem unknown_server_noop (lb : t) (serverId : string) (stats : Stats) :
  ~ In serverId (List.map fst (nodes lb)) ->
  removeServer lb serverId = (false, lb, []) /\
  updateServerStats lb serverId stats = (lb, []) /\
  incrementConnection lb serverId = (lb, []) /\
  decrementConnection lb serverId = (lb, []).
Proof.
  intros H. apply map_get_absent in H.
  unfold removeServer, updateServerStats, incrementConnection, decrementConnection.
  rewrite H. repeat split.
Qed.

Lemma unknown_server_noop_witness :
  removeServer staleStickyBalancer "B" = (false, staleStickyBalancer, []) /\
  updateServerStats staleStickyBalancer "B" (mkStats None None None (Some 3)) =
    (staleStickyBalancer, []) /\
  incrementConnection staleStickyBalancer "B" = (staleStickyBalancer, []) /\
  decrementConnection staleStickyBalancer "B" = (staleStickyBalancer, []).
Proof.
  apply (unknown_server_noop staleStickyBalancer "B" (mkStats None None None (Some 3))).
  cbn. intros [H|[]]. discriminate H.
Defined.

(** ** Sticky sessions *)

Lemma truthy_str_nonempty (s : string) : s <> EmptyString -> truthy_str s = true.
Proof. destruct s; [congruence | reflexivity]. Qed.

(** C8, as amended: for a session mapped to a non-empty server
    identifier, [getStickyServer] returns a node exactly when that node is
    the one registered under the identifier and is healthy and below
    capacity; when it returns none the mapping has been deleted and a
    second call returns none again. *)
Theorem sticky_server_selectable (lb : t) (sessionId serverId : string) :
  stickySessionMap lb !! sessionId = Some serverId ->
  serverId <> EmptyString ->
  let result := getStickyServer lb sessionId in
  (forall node, fst result = Some node <->
     map_get serverId (nodes lb) = Some node /\
     isHealthy node = true /\ activeConnections node < maxConnections node) /\
  (fst result = None ->
     stickySessionMap (snd result) !! sessionId = None /\
     getStickyServer (snd result) sessionId = (None, snd result)).
Proof.
  intros Hs Hne result. unfold result, getStickyServer. rewrite Hs.
  rewrite (truthy_str_nonempty serverId Hne).
  destruct (map_get serverId (nodes lb)) as [server|] eqn:E.
  - destruct (isHealthy server) eqn:Hh;
      [destruct (activeConnections server <? maxConnections server) eqn:Hc|];
      cbn [andb fst snd].
    + split; [|discriminate]. intros node. split.
      * intros [= <-]. apply Z.ltb_lt in Hc. tauto.
      * intros [[= <-] _]. reflexivity.
    + split.
      * intros node. split; [discriminate|]. intros [[= <-] [_ H]].
        apply Z.ltb_ge in Hc. lia.
      * intros _. cbn [with_sticky stickySessionMap]. rewrite lookup_delete_eq.
        split; reflexivity.
    + split.
      * intros node. split; [discriminate|]. intros [[= <-] [H _]]. congruence.
      * intros _. cbn [with_sticky stickySessionMap]. rewrite lookup_delete_eq.
        split; reflexivity.
  - cbn [fst snd]. split.
    + intros node. split; [discriminate|]. intros [H _]. discriminate.
    + intros _. cbn [with_sticky stickySessionMap]. rewrite lookup_delete_eq.
      split; reflexivity.
Qed.

Lemma sticky_server_selectable_witness :
  let result := getStickyServer staleStickyBalancer "s1" in
  fst result = None /\
  stickySessionMap (snd result) !! "s1"%string = None /\
  getStickyServer (snd result) "s1" = (None, snd result).
Proof.
  cbn zeta.
  pose proof (sticky_server_selectable staleStickyBalancer "s1" "A" eq_refl
                ltac:(discriminate)) as H.
  cbn zeta in H. destruct H as [_ H].
  assert (E : fst (getStickyServer staleStickyBalancer "s1") = None) by reflexivity.
  split; [exact E | exact (H E)].
Defined.

(** C8, as stated, fails for a session mapped to the empty identifier:
    the node registered under it is healthy and below capacity, yet
    [getStickyServer] returns none, and the mapping is still there. *)
Lemma sticky_empty_server_id :
  exists node,
    stickySessionMap emptyIdBalancer !! "s1"%string = Some EmptyString /\
    map_get EmptyString (nodes emptyIdBalancer) = Some node /\
    isHealthy node = true /\ activeConnections node < maxConnections node /\
    fst (getStickyServer emptyIdBalancer "s1") = None /\
    stickySessionMap (snd (getStickyServer emptyIdBalancer "s1")) !! "s1"%string
      = Some EmptyString.
Proof.
  eexists. split; [reflexivity|]. split; [reflexivity|].
  split; [reflexivity|]. split; [reflexivity|]. split; reflexivity.
Qed.

(** ** The circuit breaker *)

Lemma recordFailure_breaker (lb : t) (serverId : string) (now : Z) :
  let b := breakerOr lb serverId in
  circuitBreakers (fst (recordFailure lb serverId now)) !! serverId =
  Some (mkBreaker (failures b + 1) now
                  (if 5 <=? failures b + 1 then open else state b)).
Proof.
  cbn zeta. unfold recordFailure, breakerOr.
  destruct (circuitBreakers lb !! serverId) as [b|]; cbn [failures lastFailureTime state];
    destruct (5 <=? _); cbn [fst with_breakers circuitBreakers];
    rewrite lookup_insert_eq; reflexivity.
Qed.

Lemma last_cons {A : Type} (l : list A) : forall a d : A,
  List.last (a :: l) d = List.last l a.
Proof.
  induction l as [|x l IH]; intros a d; [reflexivity|].
  change (List.last (a :: x :: l) d) with (List.last (x :: l) d).
  rewrite !IH. reflexivity.
Qed.

Lemma recordFailures_breaker (times : list Z) : forall (lb : t) (serverId : string) (time : Z),
  let b := breakerOr lb serverId in
  let n := Z.of_nat (length (time :: times)) in
  circuitBreakers (recordFailures lb serverId (time :: times)) !! serverId =
  Some (mkBreaker (failures b + n) (List.last times time)
                  (if 5 <=? failures b + n then open else state b)).
Proof.
  induction times as [|t2 times IH]; intros lb serverId time.
  - cbn [recordFailures length List.last]. apply recordFailure_breaker.
  - cbn zeta in *. cbn [recordFailures] in *.
    specialize (IH (fst (recordFailure lb serverId time)) serverId t2).
    rewrite IH. unfold breakerOr at 1 2 3. rewrite recordFailure_breaker.
    cbn [failures state length]. rewrite (last_cons times t2 time).
    replace (failures (breakerOr lb serverId) + 1 + Z.of_nat (S (length times)))
      with (failures (breakerOr lb serverId) + Z.of_nat (S (S (length times)))) by lia.
    destruct (5 <=? failures (breakerOr lb serverId) + 1) eqn:E1; [|reflexivity].
    apply Z.leb_le in E1.
    replace (5 <=? failures (breakerOr lb serverId) + Z.of_nat (S (S (length times))))
      with true by (symmetry; apply Z.leb_le; lia).
    reflexivity.
Qed.

(** C3, as amended. With [b] the breaker of a node (a node without one
    counts as closed with no failures) and [n >= 1] recorded failures:
    from closed with a failure count of 0 the breaker is open exactly when
    [n >= 5]; while open, an [isCircuitOpen] check more than 60000 ms after
    the last recorded failure returns false and leaves the breaker
    half-open with the count reset; a recorded success while half-open
    leaves it closed with count 0; and from half-open with the count at 0
    the recorded failures accumulate, the breaker is open again exactly when
    [n >= 5] and is half-open before. *)
Theorem circuit_breaker_transitions (lb : t) (serverId : string)
    (time : Z) (times : list Z) (now : Z) :
  let b := breakerOr lb serverId in
  let n := Z.of_nat (length (time :: times)) in
  (state b = closed -> failures b = 0 ->
   breakerState (recordFailures lb serverId (time :: times)) serverId =
   Some (if 5 <=? n then open else closed)) /\
  (state b = open -> 60000 < now - lastFailureTime b ->
   isCircuitOpen lb serverId now =
   (false,
    with_breakers
      (<[serverId := mkBreaker 0 (lastFailureTime b) half_open]> (circuitBreakers lb))
      lb)) /\
  (state b = half_open ->
   fst (recordSuccess lb serverId) =
   with_breakers
     (<[serverId := mkBreaker 0 (lastFailureTime b) closed]> (circuitBreakers lb)) lb) /\
  (state b = half_open -> failures b = 0 ->
   breakerState (recordFailures lb serverId (time :: times)) serverId =
   Some (if 5 <=? n then open else half_open)).
Proof.
  intros b n.
  assert (Hcount : forall s, state b = s -> failures b = 0 ->
            breakerState (recordFailures lb serverId (time :: times)) serverId =
            Some (if 5 <=? n then open else s)).
  { intros s Hs Hf. unfold breakerState.
    rewrite recordFailures_breaker. fold b. fold n. rewrite Hf, Hs.
    cbn [fmap option_fmap option_map state]. rewrite Z.add_0_l. reflexivity. }
  split; [apply Hcount|]. split; [|split; [|apply Hcount]].
  - intros Hs Hlate. unfold isCircuitOpen. unfold b, breakerOr in *.
    destruct (circuitBreakers lb !! serverId) as [b'|]; [|discriminate Hs].
    rewrite Hs. replace (60000 <? now - lastFailureTime b') with true by lia.
    reflexivity.
  - intros Hs. unfold recordSuccess. unfold b, breakerOr in *.
    destruct (circuitBreakers lb !! serverId) as [b'|]; [|discriminate Hs].
    rewrite Hs. reflexivity.
Qed.

Lemma circuit_breaker_transitions_witness :
  let fresh := create (RoundRobinStrategy 0) in
  let opened := recordFailures fresh "A" [1; 2; 3; 4; 5] in
  breakerState (recordFailures fresh "A" [1; 2; 3; 4]) "A" = Some closed /\
  breakerState opened "A" = Some open /\
  breakerState (snd (isCircuitOpen opened "A" 60006)) "A" = Some half_open /\
  breakerState (fst (recordSuccess halfOpenBalancer "A")) "A" = Some closed /\
  breakerState (recordFailures halfOpenBalancer "A" [60007]) "A" = Some half_open.
Proof.
  cbn zeta. split; [|split; [|split; [|split]]].
  - apply (proj1 (circuit_breaker_transitions (create (RoundRobinStrategy 0)) "A"
                    1 [2; 3; 4] 0)); reflexivity.
  - apply (proj1 (circuit_breaker_transitions (create (RoundRobinStrategy 0)) "A"
                    1 [2; 3; 4; 5] 0)); reflexivity.
  - rewrite (proj1 (proj2 (circuit_breaker_transitions
                             (recordFailures (create (RoundRobinStrategy 0)) "A"
                                             [1; 2; 3; 4; 5])
                             "A" 0 [] 60006)));
      [reflexivity | reflexivity | vm_compute; reflexivity].
  - rewrite (proj1 (proj2 (proj2 (circuit_breaker_transitions halfOpenBalancer "A"
                                    0 [] 0))));
      reflexivity.
  - apply (proj2 (proj2 (proj2 (circuit_breaker_transitions halfOpenBalancer "A"
                                  60007 [] 0)))); reflexivity.
Defined.

(** C3, as stated, fails in its last part: a single recorded failure on
    the half-open breaker reached by five failures and a late check leaves
    it half-open. *)
Lemma half_open_failure_stays_half_open :
  ~ (forall (lb : t) (serverId : string) (now : Z),
       breakerState lb serverId = Some half_open ->
       breakerState (fst (recordFailure lb serverId now)) serverId = Some open).
Proof.
  intros H. specialize (H halfOpenBalancer "A"%string 60007 eq_refl).
  vm_compute in H. discriminate H.
Qed.

End BalancerProofs.

(** * The connection counter *)

Module CounterProofs.
Import ConnectionCounter.

(** ** The sign of a rounded result *)

(** Rounding shifts the mantissa to the right and may add one to it: a
    mantissa that is not negative stays so, and the result carries the sign
    it was given. *)
Lemma shr_1_nonneg (mrs : shr_record) : 0 <= shr_m mrs -> 0 <= shr_m (shr_1 mrs).
Proof.
  destruct mrs as [m r s]. cbn [shr_m]. intros H.
  destruct m as [|p|p]; cbn; [lia | destruct p; cbn; lia | lia].
Qed.

Lemma iter_shr_1_nonneg (p : positive) :
  forall mrs, 0 <= shr_m mrs -> 0 <= shr_m (SpecFloat.iter_pos shr_1 p mrs).
Proof.
  induction p as [p IH|p IH|]; intros mrs H; cbn [SpecFloat.iter_pos].
  - apply IH, IH, shr_1_nonneg, H.
  - apply IH, IH, H.
  - apply shr_1_nonneg, H.
Qed.

Lemma shr_nonneg (mrs : shr_record) (e n : Z) :
  0 <= shr_m mrs -> 0 <= shr_m (fst (shr mrs e n)).
Proof.
  intros H. destruct n; cbn [shr fst]; try exact H. apply iter_shr_1_nonneg, H.
Qed.

Lemma shr_record_of_loc_m (m : Z) (l : location) : shr_m (shr_record_of_loc m l) = m.
Proof. destruct l as [|[]]; reflexivity. Qed.

Lemma shr_fexp_nonneg (m e : Z) (l : location) :
  0 <= m -> 0 <= shr_m (fst (shr_fexp prec emax m e l)).
Proof.
  intros H. unfold shr_fexp. apply shr_nonneg. rewrite shr_record_of_loc_m. exact H.
Qed.

Lemma round_nearest_even_nonneg (m : Z) (l : location) :
  0 <= m -> 0 <= round_nearest_even m l.
Proof.
  intros H. destruct l as [|[]]; cbn [round_nearest_even]; try lia.
  destruct (Z.even m); lia.
Qed.

Lemma binary_round_aux_signed (sx : bool) (mx ex : Z) (lx : location) :
  0 <= mx -> signed sx (binary_round_aux prec emax sx mx ex lx).
Proof.
  intros H. unfold binary_round_aux.
  pose proof (shr_fexp_nonneg mx ex lx H) as H1.
  destruct (shr_fexp prec emax mx ex lx) as [mrs' e']. cbn [fst] in H1.
  pose proof (shr_fexp_nonneg
                (round_nearest_even (shr_m mrs') (loc_of_shr_record mrs')) e' loc_Exact
                (round_nearest_even_nonneg _ _ H1)) as H2.
  destruct (shr_fexp prec emax (round_nearest_even _ _) e' loc_Exact) as [mrs'' e''].
  cbn [fst] in H2.
  destruct (shr_m mrs'') as [|p|p]; [reflexivity | | lia].
  destruct (e'' <=? _); reflexivity.
Qed.

Lemma binary_round_signed (sx : bool) (mx : positive) (ex : Z) :
  signed sx (binary_round prec emax sx mx ex).
Proof.
  unfold binary_round. destruct (shl_align _ _ _) as [mz ez].
  apply binary_round_aux_signed. lia.
Qed.

Lemma binary_normalize_signed (m e : Z) :
  signed (m <? 0) (binary_normalize prec emax m e false).
Proof.
  destruct m; cbn [binary_normalize Z.ltb Z.compare];
    [reflexivity | apply binary_round_signed | apply binary_round_signed].
Qed.

(** ** The three operations on a counter *)

Lemma signed_nonNegative (x : spec_float) : signed false x -> SFleb zero x = true.
Proof. destruct x as [s|s| |s m e]; cbn; intros H; subst; try reflexivity. contradiction. Qed.

Lemma nonNegative_cases (x : spec_float) :
  SFleb zero x = true ->
  (exists s, x = S754_zero s) \/ x = S754_infinity false \/
  (exists m e, x = S754_finite false m e).
Proof.
  destruct x as [s|[]| |[] m e]; cbn; intros H; try discriminate.
  - left. exists s. reflexivity.
  - right; left. reflexivity.
  - right; right. exists m, e. reflexivity.
Qed.

(** [x + 1] is at least 0 when [x] is. *)
Lemma increment_nonNegative (x : spec_float) :
  SFleb zero x = true -> SFleb zero (SFadd prec emax x one) = true.
Proof.
  intros H. destruct (nonNegative_cases x H) as [[s ->]|[->|(m & e & ->)]];
    [reflexivity | reflexivity |].
  apply signed_nonNegative. unfold SFadd, one. cbn [cond_Zopp].
  match goal with |- signed false (binary_normalize _ _ ?m _ _) =>
    replace false with (m <? 0) at 1 by (apply Z.ltb_ge; lia)
  end.
  apply binary_normalize_signed.
Qed.

(** [x - 1] is a number when [x] is. *)
Lemma decrement_number (x : spec_float) :
  x <> S754_nan -> SFsub prec emax x one <> S754_nan.
Proof.
  intros H. destruct x as [s|s| |s m e]; [destruct s; discriminate | discriminate
                                         | contradiction |].
  unfold SFsub, one.
  match goal with |- binary_normalize _ _ ?m ?e _ <> _ =>
    pose proof (binary_normalize_signed m e) as Hs;
    destruct (binary_normalize prec emax m e false)
  end; [discriminate | discriminate | contradiction | discriminate].
Qed.

(** [Math.max(0, y)] is at least 0 when [y] is a number. *)
Lemma Math_max_zero_nonNegative (y : spec_float) :
  y <> S754_nan -> SFleb zero (Math_max zero y) = true.
Proof.
  intros H. destruct y as [s|[]| |[] m e]; try reflexivity. contradiction.
Qed.

Lemma nonNegative_number (v : Value) : nonNegative v = true -> ToNumber v <> S754_nan.
Proof. destruct v as [| |x]; cbn; [discriminate | discriminate |]. destruct x; cbn; congruence. Qed.

(** ** The registry of counters *)

(** In the model of the whole class, the methods that [Other] stands for
    leave every key and every counter of the registry as they are; a
    finished probe writes [isHealthy], [lastHealthCheck] and
    [responseTime] only. *)
Lemma map_set_same_counter (k : string) (node node' : LoadBalancer.ServerNode)
    (m : list (string * LoadBalancer.ServerNode)) :
  LoadBalancer.map_get k m = Some node ->
  LoadBalancer.activeConnections node' = LoadBalancer.activeConnections node ->
  List.map (fun kv => (fst kv, LoadBalancer.activeConnections (snd kv)))
           (LoadBalancer.map_set k node' m) =
  List.map (fun kv => (fst kv, LoadBalancer.activeConnections (snd kv))) m.
Proof.
  intros Hget Hsame. induction m as [|[k' v'] m IH]; [discriminate Hget|].
  cbn [LoadBalancer.map_get LoadBalancer.map_set] in *.
  destruct (String.eqb k' k) eqn:E.
  - apply String.eqb_eq in E. subst k'. injection Hget as ->.
    cbn [List.map fst snd]. rewrite Hsame. reflexivity.
  - cbn [List.map fst snd]. rewrite (IH Hget). reflexivity.
Qed.

Lemma other_methods_keep_counters (lb : LoadBalancer.t) (op : LoadBalancer.Op) :
  LoadBalancer.writesCounter op = false ->
  LoadBalancer.counters (LoadBalancer.step lb op) = LoadBalancer.counters lb.
Proof.
  intros Hop. destruct op; try discriminate Hop; cbn [LoadBalancer.step];
    unfold LoadBalancer.counters.
  - unfold LoadBalancer.selectServer.
    destruct (LoadBalancer.strategy_selectServer _ _). reflexivity.
  - reflexivity.
  - unfold LoadBalancer.startHealthChecks.
    destruct (LoadBalancer.healthCheckInterval lb); reflexivity.
  - unfold LoadBalancer.stopHealthChecks.
    destruct (LoadBalancer.healthCheckInterval lb); reflexivity.
  - unfold LoadBalancer.probeResolved. destruct probed as [serverId|detached];
      [|reflexivity].
    destruct (LoadBalancer.map_get serverId (LoadBalancer.nodes lb)) as [node|] eqn:E;
      [|reflexivity].
    cbn. apply (map_set_same_counter serverId node); [exact E | reflexivity].
  - unfold LoadBalancer.probeRejected. destruct probed as [serverId|detached];
      [|reflexivity].
    destruct (LoadBalancer.map_get serverId (LoadBalancer.nodes lb)) as [node|] eqn:E;
      [|reflexivity].
    cbn. apply (map_set_same_counter serverId node); [exact E | reflexivity].
  - reflexivity.
  - unfold LoadBalancer.getStickyServer.
    destruct (LoadBalancer.stickySessionMap lb !! sessionId) as [sid|]; [|reflexivity].
    destruct (truthy_str sid); [|reflexivity].
    destruct (LoadBalancer.map_get sid (LoadBalancer.nodes lb)) as [srv|]; [|reflexivity].
    destruct (LoadBalancer.isHealthy srv && _); reflexivity.
  - reflexivity.
  - unfold LoadBalancer.isCircuitOpen.
    destruct (LoadBalancer.circuitBreakers lb !! serverId) as [b|]; [|reflexivity].
    destruct (LoadBalancer.state b); try reflexivity. destruct (60000 <? _); reflexivity.
  - unfold LoadBalancer.recordFailure. cbn [LoadBalancer.failures].
    destruct (5 <=? _); reflexivity.
  - unfold LoadBalancer.recordSuccess.
    destruct (LoadBalancer.circuitBreakers lb !! serverId) as [b|]; [|reflexivity].
    destruct (LoadBalancer.state b); reflexivity.
Qed.

Lemma registered_counter (reg : Registry) (serverId : string) (v : Value) :
  countersNonNegative reg -> LoadBalancer.map_get serverId reg = Some v ->
  nonNegative v = true.
Proof.
  intros Hinv Hget.
  apply (BalancerProofs.map_get_Forall (fun kv => nonNegative (snd kv) = true)
           (fun v => nonNegative v = true) serverId reg v);
    [intros k' v' H; exact H | exact Hinv | exact Hget].
Qed.

Lemma step_preserves (reg : Registry) (op : Op) :
  countersNonNegative reg -> harmless op -> countersNonNegative (step reg op).
Proof.
  intros Hinv Hop. unfold countersNonNegative in *.
  destruct op as [serverId|serverId|serverId [v|]|serverId|serverId|method];
    cbn [step]; try exact Hinv.
  - apply BalancerProofs.map_set_Forall; [reflexivity | exact Hinv].
  - unfold removeServer. destruct (LoadBalancer.map_get serverId reg); [|exact Hinv].
    apply BalancerProofs.map_delete_Forall. exact Hinv.
  - unfold updateServerStats. destruct (LoadBalancer.map_get serverId reg); [|exact Hinv].
    apply BalancerProofs.map_set_Forall; [exact Hop | exact Hinv].
  - unfold updateServerStats. destruct (LoadBalancer.map_get serverId reg); exact Hinv.
  - unfold incrementConnection.
    destruct (LoadBalancer.map_get serverId reg) as [v|] eqn:E; [|exact Hinv].
    apply BalancerProofs.map_set_Forall; [|exact Hinv].
    apply increment_nonNegative. exact (registered_counter reg serverId v Hinv E).
  - unfold decrementConnection.
    destruct (LoadBalancer.map_get serverId reg) as [v|] eqn:E; [|exact Hinv].
    apply BalancerProofs.map_set_Forall; [|exact Hinv].
    apply Math_max_zero_nonNegative, decrement_number, nonNegative_number.
    exact (registered_counter reg serverId v Hinv E).
Qed.

(** C7, as amended: that every registered node has
    [activeConnections >= 0] holds after any sequence of operations of the
    balancer in which no [updateServerStats] call carries an
    [activeConnections] for which [>= 0] is false (a negative number, [NaN]
    or [undefined]); the counter ranges over every value of its type, with
    the arithmetic of doubles. [decrementConnection] stores
    [Math.max(0, activeConnections - 1)], so decrements in excess of the
    increments leave the counter at 0 or above. *)
Theorem counter_stays_non_negative (reg : Registry) (ops : list Op) :
  countersNonNegative reg -> Forall harmless ops ->
  countersNonNegative (run reg ops).
Proof.
  intros Hinv Hops. revert reg Hinv. unfold run.
  induction Hops as [|op ops Hop Hops IH]; intros reg Hinv; cbn [fold_left].
  - exact Hinv.
  - apply IH. apply step_preserves; assumption.
Qed.

Lemma counter_stays_non_negative_witness :
  let reg := addServer [] "A" in
  let ops := [IncrementConnection "A"; DecrementConnection "A";
              DecrementConnection "A"; DecrementConnection "A";
              UpdateServerStats "A" (Some (number half));
              DecrementConnection "A";
              UpdateServerStats "A" (Some (number twoTo53));
              IncrementConnection "A"; DecrementConnection "A";
              UpdateServerStats "A" (Some null); Other selectServer;
              UpdateServerStats "A" (Some (number infinity));
              DecrementConnection "A"; AddServer "B"; RemoveServer "B"] in
  countersNonNegative reg /\ Forall harmless ops /\
  countersNonNegative (run reg ops).
Proof.
  cbn zeta.
  assert (Hinv : countersNonNegative (addServer [] "A")) by (repeat constructor).
  assert (Hops : Forall harmless
                   [IncrementConnection "A"; DecrementConnection "A";
                    DecrementConnection "A"; DecrementConnection "A";
                    UpdateServerStats "A" (Some (number half));
                    DecrementConnection "A";
                    UpdateServerStats "A" (Some (number twoTo53));
                    IncrementConnection "A"; DecrementConnection "A";
                    UpdateServerStats "A" (Some null); Other selectServer;
                    UpdateServerStats "A" (Some (number infinity));
                    DecrementConnection "A"; AddServer "B"; RemoveServer "B"])
    by (repeat constructor).
  split; [exact Hinv | split; [exact Hops |]].
  exact (counter_stays_non_negative _ _ Hinv Hops).
Defined.

(** C7, as stated, fails: on a balancer whose one node has a counter of
    0, [updateServerStats("A", {activeConnections: v})] with [v] one of
    [-1], [NaN] and [undefined] leaves node ["A"] with a counter for which
    [>= 0] is false; after the last two, [incrementConnection] and
    [decrementConnection] keep it so. *)
Lemma stats_update_breaks_counter :
  let reg := addServer [] "A" in
  countersNonNegative reg /\
  ~ countersNonNegative (updateServerStats reg "A" (Some (number minusOne))) /\
  (forall v, v = number S754_nan \/ v = undefined ->
     ~ countersNonNegative (updateServerStats reg "A" (Some v)) /\
     ~ countersNonNegative
         (incrementConnection (updateServerStats reg "A" (Some v)) "A") /\
     ~ countersNonNegative
         (decrementConnection (updateServerStats reg "A" (Some v)) "A")).
Proof.
  cbn zeta. split; [repeat constructor|]. split.
  - intros H. inversion H as [|? ? Hneg _]. discriminate Hneg.
  - intros v [->| ->]; repeat split; intros H; inversion H as [|? ? Hneg _];
      discriminate Hneg.
Qed.

(** The counter does not follow the integers everywhere: at [2^53] an
    increment is lost, so that an increment and a decrement lead from
    [2^53] to [2^53 - 1]; decrements of a fraction stop at 0. *)
Example counter_beyond_safe_integers :
  let reg := updateServerStats (addServer [] "A") "A" (Some (number twoTo53)) in
  incrementConnection reg "A" = reg /\
  decrementConnection (incrementConnection reg "A") "A" = [("A"%string, number maxSafeInteger)] /\
  decrementConnection [("A"%string, number half)] "A" = [("A"%string, number zero)].
Proof. vm_compute. repeat split. Qed.

End CounterProofs.

(** * Further properties of the rate limiter *)

Module RateLimiterExtras.
Import RateLimiter.

Lemma detect_requests (cfg : RateLimitConfig) (c : ClientData) (now : Z) :
  requests (detectSuspiciousActivity cfg c now) = requests c /\
  blocked (detectSuspiciousActivity cfg c now) = blocked c /\
  blockedUntil (detectSuspiciousActivity cfg c now) = blockedUntil c /\
  warnings (detectSuspiciousActivity cfg c now) = warnings c /\
  totalRequests (detectSuspiciousActivity cfg c now) = totalRequests c /\
  (suspiciousActivity c = true ->
   suspiciousActivity (detectSuspiciousActivity cfg c now) = true).
Proof.
  unfold detectSuspiciousActivity.
  destruct (8 * max cfg <? _); destruct (9 * max cfg <? _); cbn; tauto.
Qed.

Lemma filter_length_le {A : Type} (p : A -> bool) (l : list A) :
  (length (List.filter p l) <= length l)%nat.
Proof.
  induction l as [|x l IH]; cbn [List.filter length]; [lia|].
  destruct (p x); cbn [length]; lia.
Qed.

(** What one call does to an unblocked record with room in its window. *)
Lemma checkClient_room (cfg : RateLimitConfig) (c : ClientData) (isSuccess : bool)
    (now : Z) :
  blocked c = false ->
  Z.of_nat (length (requests c)) < max cfg ->
  allowed (fst (checkClient cfg c isSuccess now)) = true /\
  blocked (snd (checkClient cfg c isSuccess now)) = false /\
  (length (requests (snd (checkClient cfg c isSuccess now))) <= S (length (requests c)))%nat.
Proof.
  intros Hb Hlen. unfold checkClient, stillBlocked, blockExpired. rewrite Hb.
  cbn [andb].
  destruct (_ || _); [cbn; split; [reflexivity|split; [exact Hb|lia]]|].
  set (kept := List.filter _ (requests c)).
  pose proof (filter_length_le (fun time => now - windowMs cfg <? time) (requests c)) as Hk.
  fold kept in Hk.
  set (c1 := set_totalRequests _ (set_requests kept c)).
  destruct (detect_requests cfg c1 now) as [Hr [Hbl _]].
  change (requests c1) with kept in Hr. change (blocked c1) with (blocked c) in Hbl.
  rewrite Hr.
  replace (max cfg <=? Z.of_nat (length kept)) with false by lia.
  cbn [fst snd allowed set_requests requests blocked].
  rewrite Hbl, length_app. cbn [length].
  split; [reflexivity|]. split; [exact Hb | lia].
Qed.

Lemma checkClients_room (times : list Z) : forall (cfg : RateLimitConfig) (c : ClientData),
  blocked c = false ->
  Z.of_nat (length (requests c)) + Z.of_nat (length times) <= max cfg ->
  Forall (fun r => allowed r = true) (fst (checkClients cfg c times)).
Proof.
  induction times as [|now rest IH]; intros cfg c Hb Hlen; [constructor|].
  cbn [checkClients length] in *.
  destruct (checkClient_room cfg c true now Hb) as [Ha [Hb' Hl]]; [lia|].
  destruct (checkClient cfg c true now) as [r c1]. cbn [fst snd] in *.
  specialize (IH cfg c1 Hb'). destruct (checkClients cfg c1 rest) as [rs c2].
  cbn [fst] in *. constructor; [exact Ha|]. apply IH. lia.
Qed.

(** X1: a client that the limiter has not seen is allowed on each of its first
    [max] calls, whatever the clock readings of the calls are. *)
Theorem first_requests_allowed (rl : t) (clientId : string) (times : list Z) :
  clients rl !! clientId = None ->
  Z.of_nat (length times) <= max (config rl) ->
  Forall (fun r => allowed r = true) (fst (checkLimits rl clientId times)).
Proof.
  intros Hnone Hlen. rewrite RateLimiterProofs.fst_checkLimits, Hnone.
  apply checkClients_room; [reflexivity | cbn; lia].
Qed.

Lemma first_requests_allowed_witness :
  Forall (fun r => allowed r = true)
         (fst (checkLimits (create scenarioConfig) "client" [10; 70000; 20])).
Proof.
  apply (first_requests_allowed (create scenarioConfig) "client" [10; 70000; 20]).
  - reflexivity.
  - cbn. lia.
Defined.

Lemma stillBlocked_until (c : ClientData) (now : Z) :
  stillBlocked c now = true -> exists u, blockedUntil c = Some u.
Proof.
  unfold stillBlocked. destruct (blockedUntil c) as [u|].
  - intros _. exists u. reflexivity.
  - rewrite andb_false_r. discriminate.
Qed.

Lemma checkClient_hint (cfg : RateLimitConfig) (c : ClientData) (isSuccess : bool)
    (now : Z) :
  let r := fst (checkClient cfg c isSuccess now) in
  if allowed r then retryAfter r = None
  else remaining r = 0 /\ exists h, retryAfter r = Some h.
Proof.
  cbn zeta. unfold checkClient.
  destruct (stillBlocked c now) eqn:Hs.
  - destruct (stillBlocked_until c now Hs) as [u Hu]. rewrite Hu. cbn.
    split; [reflexivity | eexists; reflexivity].
  - destruct (_ || _); [reflexivity|].
    destruct (max cfg <=? _); cbn; [|reflexivity].
    split; [reflexivity | eexists; reflexivity].
Qed.

(** X2: every [checkLimit] result either is allowed and carries no
    [retryAfter], or is denied with [remaining = 0] and a [retryAfter]
    value. *)
Theorem denial_carries_hint (rl : t) (clientId : string) (isSuccess : bool) (now : Z) :
  let r := fst (checkLimit rl clientId isSuccess now) in
  if allowed r then retryAfter r = None
  else remaining r = 0 /\ exists h, retryAfter r = Some h.
Proof.
  cbn zeta. unfold checkLimit.
  pose proof (checkClient_hint (config rl)
                (match clients rl !! clientId with Some c => c | None => freshClient end)
                isSuccess now) as H.
  cbn zeta in H. destruct (checkClient _ _ isSuccess now) as [r c1]. exact H.
Qed.

Lemma checkClient_counters (cfg : RateLimitConfig) (c : ClientData) (isSuccess : bool)
    (now : Z) :
  let c' := snd (checkClient cfg c isSuccess now) in
  warnings c <= warnings c' /\ totalRequests c <= totalRequests c' /\
  (suspiciousActivity c = true -> suspiciousActivity c' = true).
Proof.
  cbn zeta. unfold checkClient.
  destruct (stillBlocked c now); [cbn; repeat split; lia || tauto|].
  set (c0 := if blockExpired c now then _ else c).
  assert (H0 : warnings c0 = warnings c /\ totalRequests c0 = totalRequests c /\
               suspiciousActivity c0 = suspiciousActivity c).
  { unfold c0. destruct (blockExpired c now); cbn; tauto. }
  destruct H0 as [Hw [Ht Hsus]].
  destruct (_ || _); [cbn; rewrite Hw, Ht, Hsus; repeat split; lia || tauto|].
  set (c1 := set_totalRequests _ _).
  destruct (detect_requests cfg c1 now) as [_ [_ [_ [Hw1 [Ht1 Hs1]]]]].
  assert (Hc1 : warnings c1 = warnings c /\ totalRequests c1 = totalRequests c + 1 /\
                suspiciousActivity c1 = suspiciousActivity c).
  { unfold c1. cbn. rewrite Hw, Ht, Hsus. tauto. }
  destruct Hc1 as [Hw2 [Ht2 Hs2]].
  destruct (max cfg <=? _); cbn; rewrite ?Hw1, ?Ht1, ?Hw2, ?Ht2;
    (split; [lia|]; split; [lia|]; intros Hs; apply Hs1; rewrite Hs2; exact Hs).
Qed.

Lemma lookup_checkLimit (rl : t) (clientId : string) (isSuccess : bool) (now : Z) :
  clients (snd (checkLimit rl clientId isSuccess now)) !! clientId =
  Some (snd (checkClient (config rl)
               (match clients rl !! clientId with Some c => c | None => freshClient end)
               isSuccess now)).
Proof.
  unfold checkLimit. destruct (checkClient _ _ isSuccess now) as [r c1].
  cbn [snd put clients]. apply lookup_insert_eq.
Qed.

(** X3: for a client the limiter knows, [checkLimit] never lowers
    [warnings] or [totalRequests] and never clears [suspiciousActivity]. *)
Theorem counters_never_decrease (rl : t) (clientId : string) (c : ClientData)
    (isSuccess : bool) (now : Z) :
  clients rl !! clientId = Some c ->
  exists c', clients (snd (checkLimit rl clientId isSuccess now)) !! clientId = Some c' /\
             warnings c <= warnings c' /\ totalRequests c <= totalRequests c' /\
             (suspiciousActivity c = true -> suspiciousActivity c' = true).
Proof.
  intros Hc. eexists. split; [apply lookup_checkLimit|]. rewrite Hc.
  apply checkClient_counters.
Qed.

Lemma checkClient_skipped (cfg : RateLimitConfig) (c : ClientData) (now : Z) :
  truthy_flag (skipSuccessfulRequests cfg) = true -> blocked c = false ->
  checkClient cfg c true now = (mkResult true (max cfg) None, c).
Proof.
  intros Hskip Hb. unfold checkClient, stillBlocked, blockExpired.
  rewrite Hb, Hskip. reflexivity.
Qed.

Lemma checkClients_skipped (times : list Z) (cfg : RateLimitConfig) (c : ClientData) :
  truthy_flag (skipSuccessfulRequests cfg) = true -> blocked c = false ->
  checkClients cfg c times =
  (List.map (fun _ => mkResult true (max cfg) None) times, c).
Proof.
  intros Hskip Hb. induction times as [|now rest IH]; [reflexivity|].
  cbn [checkClients List.map]. rewrite checkClient_skipped by assumption.
  rewrite IH. reflexivity.
Qed.

(** X4: with [skipSuccessfulRequests] set, every call of a new client
    with the default [isSuccess] is allowed with [remaining = max]; nothing
    is counted, so the client is never blocked by such calls. *)
Theorem skipped_requests_never_block (rl : t) (clientId : string) (times : list Z) :
  truthy_flag (skipSuccessfulRequests (config rl)) = true ->
  clients rl !! clientId = None ->
  fst (checkLimits rl clientId times) =
  List.map (fun _ => mkResult true (max (config rl)) None) times.
Proof.
  intros Hskip Hnone. rewrite RateLimiterProofs.fst_checkLimits, Hnone.
  rewrite checkClients_skipped; [reflexivity | exact Hskip | reflexivity].
Qed.

Lemma skipped_requests_never_block_witness :
  fst (checkLimits (create (mkConfig 60000 1 (Some true) None)) "client" [1; 2; 3]) =
  [mkResult true 1 None; mkResult true 1 None; mkResult true 1 None].
Proof.
  apply (skipped_requests_never_block (create (mkConfig 60000 1 (Some true) None))
                                      "client" [1; 2; 3]); reflexivity.
Defined.

(** X5: after [whitelistClient] on a known client its record holds no
    requests, no block, no warnings and no suspicion (only [totalRequests]
    is kept), [isBlocked] is false and the next [checkLimit] is allowed,
    provided [max >= 1]. *)
Theorem whitelist_restores (rl : t) (clientId : string) (c : ClientData)
    (isSuccess : bool) (now : Z) :
  clients rl !! clientId = Some c ->
  1 <= max (config rl) ->
  let rl' := whitelistClient rl clientId in
  clients rl' !! clientId = Some (mkClient [] false None 0 (totalRequests c) false) /\
  isBlocked rl' clientId now = false /\
  allowed (fst (checkLimit rl' clientId isSuccess now)) = true.
Proof.
  intros Hc Hmax rl'.
  assert (Hc' : clients rl' !! clientId =
                Some (mkClient [] false None 0 (totalRequests c) false)).
  { unfold rl', whitelistClient. rewrite Hc. cbn [put clients].
    rewrite lookup_insert_eq. reflexivity. }
  split; [exact Hc'|]. split.
  - unfold isBlocked. rewrite Hc'. reflexivity.
  - unfold checkLimit. rewrite Hc'.
    assert (Hcfg : config rl' = config rl).
    { unfold rl', whitelistClient. rewrite Hc. reflexivity. }
    rewrite Hcfg.
    destruct (checkClient_room (config rl)
                (mkClient [] false None 0 (totalRequests c) false) isSuccess now)
      as [Ha _]; [reflexivity | cbn; lia |].
    destruct (checkClient _ _ isSuccess now) as [r c1]. exact Ha.
Qed.

Lemma whitelist_restores_witness :
  let rl := blacklistClient (create scenarioConfig) "client" None 1000 in
  let rl' := whitelistClient rl "client" in
  clients rl' !! "client"%string = Some (mkClient [] false None 0 0 false) /\
  isBlocked rl' "client" 2000 = false /\
  allowed (fst (checkLimit rl' "client" true 2000)) = true.
Proof.
  apply (whitelist_restores (blacklistClient (create scenarioConfig) "client" None 1000)
           "client" (mkClient [] true (Some (1000 + 86400000)) 0 0 true) true 2000).
  - reflexivity.
  - cbn. lia.
Defined.

(** X6: [cleanup] at clock reading [now] does not change what
    [isBlocked] answers at [now] or later, for any client. *)
Theorem cleanup_keeps_blocks (rl : t) (clientId : string) (now time : Z) :
  now <= time ->
  isBlocked (cleanup rl now) clientId time = isBlocked rl clientId time.
Proof.
  intros Ht. unfold isBlocked, cleanup. cbn [clients]. rewrite lookup_omap.
  destruct (clients rl !! clientId) as [c|]; [|reflexivity]. cbn [mbind option_bind].
  destruct (blocked c) eqn:Hb; cbn [negb andb].
  - destruct (blockedUntil c) as [u|] eqn:Hu; cbn [truthy_num].
    + destruct (negb (u =? 0) && (u <? now)) eqn:E.
      * unfold stillBlocked. cbn [set_requests set_block blocked andb].
        rewrite Hb, Hu. apply andb_true_iff in E. destruct E as [_ E].
        replace (time <? u) with false by lia. rewrite andb_false_r. reflexivity.
      * reflexivity.
    + reflexivity.
  - destruct (_ <? _); [|reflexivity].
    unfold stillBlocked. rewrite Hb. reflexivity.
Qed.

Lemma cleanup_keeps_blocks_witness :
  isBlocked (cleanup (blacklistClient (create scenarioConfig) "client" (Some 500) 1000) 2000)
            "client" 2000 =
  isBlocked (blacklistClient (create scenarioConfig) "client" (Some 500) 1000) "client" 2000.
Proof.
  apply (cleanup_keeps_blocks
           (blacklistClient (create scenarioConfig) "client" (Some 500) 1000)
           "client" 2000 2000).
  lia.
Defined.

Lemma checkClient_within (cfg : RateLimitConfig) (c : ClientData) (isSuccess : bool)
    (now : Z) :
  Z.of_nat (length (requests c)) <= max cfg ->
  Z.of_nat (length (requests (snd (checkClient cfg c isSuccess now)))) <= max cfg.
Proof.
  intros Hlen. unfold checkClient.
  destruct (stillBlocked c now); [exact Hlen|].
  set (c0 := if blockExpired c now then _ else c).
  assert (H0 : (length (requests c0) <= length (requests c))%nat).
  { unfold c0. destruct (blockExpired c now); cbn; lia. }
  destruct (_ || _); [cbn [snd]; lia|].
  set (kept := List.filter _ (requests c0)).
  pose proof (filter_length_le (fun time => now - windowMs cfg <? time) (requests c0)) as Hk.
  fold kept in Hk.
  set (c1 := set_totalRequests _ (set_requests kept c0)).
  destruct (detect_requests cfg c1 now) as [Hr _].
  change (requests c1) with kept in Hr. rewrite Hr.
  destruct (max cfg <=? Z.of_nat (length kept)) eqn:E; cbn [snd set_warnings set_block
    set_requests requests]; rewrite ?Hr.
  - lia.
  - rewrite length_app. cbn [length]. lia.
Qed.

Lemma config_step (rl : t) (op : Op) : config (step rl op) = config rl.
Proof.
  destruct op; cbn [step]; try reflexivity.
  - unfold checkLimit. destruct (checkClient _ _ _ _). reflexivity.
  - unfold whitelistClient. destruct (clients rl !! clientId); reflexivity.
Qed.

(** X7: for a limiter whose [max] is an integer that is not negative, no
    call ([checkLimit], [blacklistClient], [whitelistClient], [cleanup],
    [destroy]) makes a client record hold [max + 1] request times or more:
    no record ever holds more than [max] of them. *)
Theorem window_never_overfull (rl : t) (op : Op) :
  0 <= max (config rl) -> withinLimit rl -> withinLimit (step rl op).
Proof.
  intros Hmax Hin. unfold withinLimit in *. rewrite config_step.
  assert (Hget : forall i, Z.of_nat (length (requests
             (match clients rl !! i with Some c => c | None => freshClient end)))
           <= max (config rl)).
  { intros i. destruct (clients rl !! i) as [c|] eqn:E; [|cbn; lia].
    pose proof (Hin i c E) as Hc. cbn beta in Hc. lia. }
  destruct op; cbn [step].
  - rewrite map_Forall_lookup. intros i c Hi.
    destruct (decide (i = clientId)) as [->|Hne].
    + rewrite lookup_checkLimit in Hi. injection Hi as <-.
      apply Z.lt_succ_r, checkClient_within, Hget.
    + unfold checkLimit in Hi. destruct (checkClient _ _ _ _) in Hi.
      cbn [snd put clients] in Hi. rewrite lookup_insert_ne in Hi by congruence.
      exact (Hin i c Hi).
  - unfold blacklistClient. cbn [put clients].
    apply map_Forall_insert_2; [|exact Hin]. cbn. apply Z.lt_succ_r, Hget.
  - unfold whitelistClient. destruct (clients rl !! clientId) as [c|]; [|exact Hin].
    cbn [put clients]. apply map_Forall_insert_2; [|exact Hin]. cbn. lia.
  - unfold cleanup. cbn [clients]. rewrite map_Forall_lookup. intros i c Hi.
    rewrite lookup_omap in Hi. destruct (clients rl !! i) as [c0|] eqn:E; [|discriminate].
    cbn [mbind option_bind] in Hi.
    destruct (negb (blocked c0) && _); [discriminate|].
    destruct (blocked c0 && _ && _); injection Hi as <-; [cbn; lia | exact (Hin i c0 E)].
  - cbn. apply map_Forall_empty.
Qed.

Lemma window_never_overfull_witness :
  withinLimit (step (create scenarioConfig) (CheckLimit "client" true 1000)).
Proof.
  apply (window_never_overfull (create scenarioConfig) (CheckLimit "client" true 1000)).
  - cbn. lia.
  - apply map_Forall_empty.
Defined.

(** X8: the blocked and the suspicious counts that [getStats] reports lie
    between 0 and its [totalClients]. *)
Theorem getStats_bounds (rl : t) :
  0 <= stat_blockedClients (getStats rl) <= stat_totalClients (getStats rl) /\
  0 <= stat_suspiciousClients (getStats rl) <= stat_totalClients (getStats rl).
Proof.
  unfold getStats.
  pose proof (map_fold_weak_ind
    (fun (acc : Z * Z * Z) (m : gmap string ClientData) =>
       0 <= fst (fst acc) <= Z.of_nat (size m) /\
       0 <= snd (fst acc) <= Z.of_nat (size m))
    (fun (_ : string) client acc => countClient client acc) (0, 0, 0)) as Hind.
  specialize (Hind ltac:(cbn; rewrite map_size_empty; lia)).
  assert (Hstep : forall (i : string) (x : ClientData) (m : gmap string ClientData)
            (r : Z * Z * Z),
            m !! i = None ->
            (0 <= fst (fst r) <= Z.of_nat (size m) /\ 0 <= snd (fst r) <= Z.of_nat (size m)) ->
            0 <= fst (fst (countClient x r)) <= Z.of_nat (size (<[i:=x]> m)) /\
            0 <= snd (fst (countClient x r)) <= Z.of_nat (size (<[i:=x]> m))).
  { intros i x m [[b s] n] Hi [Hb Hs]. cbn [fst snd] in *.
    rewrite map_size_insert_None by exact Hi. unfold countClient. cbn [fst snd].
    destruct (blocked x), (suspiciousActivity x); lia. }
  specialize (Hind Hstep (clients rl)).
  destruct (map_fold _ _ (clients rl)) as [[b s] n]. cbn [fst snd] in *.
  cbn [stat_blockedClients stat_suspiciousClients stat_totalClients]. exact Hind.
Qed.

Lemma detect_flags (cfg : RateLimitConfig) (c : ClientData) (now : Z) :
  1 <= max cfg -> max cfg <= Z.of_nat (length (requests c)) ->
  suspiciousActivity (detectSuspiciousActivity cfg c now) = true.
Proof.
  intros Hmax Hlen. unfold detectSuspiciousActivity.
  destruct (8 * max cfg <? _); cbn [set_suspicious requests];
    replace (9 * max cfg <? 10 * Z.of_nat (length (requests c))) with true by lia;
    reflexivity.
Qed.

(** X9: with [max >= 1], whenever [checkLimit] denies a client that was
    not in a running block, the record it stores is blocked and flagged
    suspicious, with the warning count [w] raised by one; the block runs
    until [now + 120000 * min(w, 10)] (so it has length 0 for [w = 0]) while
    the returned [retryAfter] is [120 * min(w + 1, 10)] seconds. *)
Theorem limit_block_is_suspicious (rl : t) (clientId : string) (isSuccess : bool)
    (now : Z) :
  1 <= max (config rl) ->
  isBlocked rl clientId now = false ->
  allowed (fst (checkLimit rl clientId isSuccess now)) = false ->
  let w := warnings (match clients rl !! clientId with
                     | Some c => c | None => freshClient end) in
  exists c',
    clients (snd (checkLimit rl clientId isSuccess now)) !! clientId = Some c' /\
    blocked c' = true /\ suspiciousActivity c' = true /\ warnings c' = w + 1 /\
    blockedUntil c' = Some (now + 120000 * Z.min w 10) /\
    retryAfter (fst (checkLimit rl clientId isSuccess now)) =
      Some (120 * Z.min (w + 1) 10).
Proof.
  intros Hmax Hnb Hdenied w. eexists. split; [apply lookup_checkLimit|].
  unfold checkLimit in *. unfold isBlocked in Hnb.
  set (c := match clients rl !! clientId with Some c => c | None => freshClient end) in *.
  assert (Hs : stillBlocked c now = false).
  { unfold c. destruct (clients rl !! clientId); [exact Hnb | reflexivity]. }
  clear Hnb. revert Hdenied. unfold checkClient. rewrite Hs.
  set (c0 := if blockExpired c now then _ else c).
  assert (H0 : warnings c0 = warnings c).
  { unfold c0. destruct (blockExpired c now); reflexivity. }
  destruct (_ || _); [cbn; discriminate|].
  set (c1 := set_totalRequests _ _).
  destruct (detect_requests (config rl) c1 now) as [Hr [_ [_ [Hw _]]]].
  destruct (max (config rl) <=? Z.of_nat (length (requests
              (detectSuspiciousActivity (config rl) c1 now)))) eqn:E;
    [|cbn; discriminate].
  intros _. apply Z.leb_le in E.
  assert (Hsus : suspiciousActivity (detectSuspiciousActivity (config rl) c1 now) = true).
  { apply detect_flags; [exact Hmax|]. rewrite <- Hr. exact E. }
  change (warnings c1) with (warnings c0) in Hw. rewrite H0 in Hw. fold w in Hw.
  cbn [fst snd set_warnings set_block blocked suspiciousActivity warnings blockedUntil
       retryAfter].
  unfold getBlockDuration.
  cbn [set_warnings set_block suspiciousActivity warnings]. rewrite Hsus, Hw.
  split; [reflexivity|]. split; [reflexivity|]. split; [reflexivity|]. split.
  - f_equal. lia.
  - f_equal. unfold ceil_div_1000.
    replace (60000 * Z.min (w + 1) 10 * 2 + 999) with (999 + 120 * Z.min (w + 1) 10 * 1000)
      by lia.
    rewrite Z.div_add by lia. reflexivity.
Qed.

Lemma limit_block_is_suspicious_witness :
  let rl := snd (checkLimits (create scenarioConfig) "client" [5000; 5000; 5000]) in
  exists c',
    clients (snd (checkLimit rl "client" true 5000)) !! "client"%string = Some c' /\
    blocked c' = true /\ suspiciousActivity c' = true /\ warnings c' = 0 + 1 /\
    blockedUntil c' = Some (5000 + 120000 * Z.min 0 10) /\
    retryAfter (fst (checkLimit rl "client" true 5000)) = Some (120 * Z.min (0 + 1) 10).
Proof.
  apply (limit_block_is_suspicious
           (snd (checkLimits (create scenarioConfig) "client" [5000; 5000; 5000]))
           "client" true 5000).
  - vm_compute. discriminate.
  - vm_compute. reflexivity.
  - vm_compute. reflexivity.
Defined.

Lemma checkClient_expired (cfg : RateLimitConfig) (c : ClientData) (u now : Z)
    (isSuccess : bool) :
  blocked c = true -> blockedUntil c = Some u -> u <> 0 -> u <= now ->
  checkClient cfg c isSuccess now =
  checkClient cfg (set_requests [] (set_block false None c)) isSuccess now.
Proof.
  intros Hb Hu Hne Hle. unfold checkClient, stillBlocked, blockExpired.
  rewrite Hb, Hu. cbn [truthy_num andb set_requests set_block blocked blockedUntil].
  replace (u =? 0) with false by lia. replace (now <? u) with false by lia.
  replace (u <=? now) with true by lia. reflexivity.
Qed.

Lemma checkClient_room_record (cfg : RateLimitConfig) (c : ClientData)
    (isSuccess : bool) (now : Z) :
  blocked c = false ->
  Z.of_nat (length (requests c)) < max cfg ->
  max cfg - Z.of_nat (length (requests c)) - 1 <=
    remaining (fst (checkClient cfg c isSuccess now)) /\
  blockedUntil (snd (checkClient cfg c isSuccess now)) = blockedUntil c /\
  (requests (snd (checkClient cfg c isSuccess now)) = requests c \/
   requests (snd (checkClient cfg c isSuccess now)) =
   List.filter (fun time => now - windowMs cfg <? time) (requests c) ++ [now]).
Proof.
  intros Hb Hlen. unfold checkClient, stillBlocked, blockExpired. rewrite Hb.
  cbn [andb].
  destruct (_ || _); [cbn; split; [lia | tauto]|].
  set (kept := List.filter _ (requests c)).
  pose proof (filter_length_le (fun time => now - windowMs cfg <? time) (requests c)) as Hk.
  fold kept in Hk.
  set (c1 := set_totalRequests _ (set_requests kept c)).
  destruct (detect_requests cfg c1 now) as [Hr [_ [Hbu _]]].
  change (requests c1) with kept in Hr. change (blockedUntil c1) with (blockedUntil c) in Hbu.
  rewrite Hr.
  replace (max cfg <=? Z.of_nat (length kept)) with false by lia.
  cbn [fst snd remaining set_requests requests blockedUntil].
  rewrite Hbu, length_app. cbn [length].
  split; [lia|]. split; [reflexivity | right; reflexivity].
Qed.

(** X10: the first [checkLimit] at or after [blockedUntil] clears the
    block and the request history: it is allowed with at least [max - 1]
    remaining, and the record holds at most the current request. *)
Theorem expired_block_gives_fresh_window (rl : t) (clientId : string) (c : ClientData)
    (u now : Z) (isSuccess : bool) :
  clients rl !! clientId = Some c ->
  blocked c = true -> blockedUntil c = Some u -> u <> 0 -> u <= now ->
  1 <= max (config rl) ->
  let result := checkLimit rl clientId isSuccess now in
  allowed (fst result) = true /\
  max (config rl) - 1 <= remaining (fst result) /\
  exists c', clients (snd result) !! clientId = Some c' /\
             blocked c' = false /\ blockedUntil c' = None /\
             (requests c' = [] \/ requests c' = [now]).
Proof.
  intros Hc Hb Hu Hne Hle Hmax result. unfold result, checkLimit. rewrite Hc.
  rewrite (checkClient_expired _ c u now) by assumption.
  set (c0 := set_requests [] (set_block false None c)).
  destruct (checkClient_room (config rl) c0 isSuccess now) as [Ha [Hb' _]];
    [reflexivity | cbn; lia |].
  destruct (checkClient_room_record (config rl) c0 isSuccess now) as [Hrem [Hbu Hreq]];
    [reflexivity | cbn; lia |].
  destruct (checkClient (config rl) c0 isSuccess now) as [r c'].
  cbn [fst snd put clients] in *. rewrite lookup_insert_eq.
  change (requests c0) with (@nil Z) in Hrem. cbn [length Z.of_nat] in Hrem.
  split; [exact Ha|]. split; [lia|].
  exists c'. split; [reflexivity|]. split; [exact Hb'|]. split; [exact Hbu | exact Hreq].
Qed.

Lemma expired_block_gives_fresh_window_witness :
  let rl := blacklistClient (create scenarioConfig) "client" (Some 500) 1000 in
  let result := checkLimit rl "client" true 1500 in
  allowed (fst result) = true /\
  max (config rl) - 1 <= remaining (fst result) /\
  exists c', clients (snd result) !! "client"%string = Some c' /\
             blocked c' = false /\ blockedUntil c' = None /\
             (requests c' = [] \/ requests c' = [1500]).
Proof.
  apply (expired_block_gives_fresh_window
           (blacklistClient (create scenarioConfig) "client" (Some 500) 1000)
           "client" (mkClient [] true (Some 1500) 0 0 true) 1500 1500 true).
  - reflexivity.
  - reflexivity.
  - reflexivity.
  - lia.
  - lia.
  - cbn. lia.
Defined.

Lemma counters_never_decrease_witness :
  let rl := blacklistClient (create scenarioConfig) "client" None 1000 in
  exists c', clients (snd (checkLimit rl "client" true 2000)) !! "client"%string = Some c' /\
             0 <= warnings c' /\ 0 <= totalRequests c' /\
             (true = true -> suspiciousActivity c' = true).
Proof.
  apply (counters_never_decrease
           (blacklistClient (create scenarioConfig) "client" None 1000) "client"
           (mkClient [] true (Some (1000 + 86400000)) 0 0 true) true 2000).
  reflexivity.
Defined.

(** After [blacklistClient], whatever the limiter knew of the client. *)
Lemma blacklistClient_blocks (rl : t) (clientId : string) (duration : option Z)
    (now time : Z) (isSuccess : bool) :
  0 <= now -> now <= time ->
  time < now + match duration with Some d => d | None => 86400000 end ->
  exists h,
    fst (checkLimit (blacklistClient rl clientId duration now) clientId isSuccess time) =
    mkResult false 0 (Some h).
Proof.
  intros Hnow Hge Hlt.
  set (d := match duration with Some d => d | None => 86400000 end) in *.
  assert (Hc : exists c, clients (blacklistClient rl clientId duration now) !! clientId
                         = Some c /\ blocked c = true /\ blockedUntil c = Some (now + d)).
  { unfold blacklistClient. cbn [put clients]. rewrite lookup_insert_eq.
    eexists. split; [reflexivity|]. split; [reflexivity|].
    unfold d. destruct duration; reflexivity. }
  destruct Hc as [c [Hc [Hb Hu]]].
  unfold checkLimit. rewrite Hc.
  rewrite (RateLimiterProofs.checkClient_stillBlocked _ c _ time (now + d))
    by (assumption || lia).
  eexists. reflexivity.
Qed.
End RateLimiterExtras.

(** * Properties of the socket rate limiter *)

Module SocketLimiterProofs.
Import SocketRateLimiter.

Lemma base64_prefix (ua : string) :
  substring 0 10 (base64 ua) = substring 0 10 (base64 (substring 0 8 ua)).
Proof.
  destruct ua as [|a0 [|a1 [|a2 [|a3 [|a4 [|a5 [|a6 [|a7 [|a8 rest]]]]]]]]];
    reflexivity.
Qed.

(** X11: [getClientId] depends on the user agent only through its first
    eight bytes: two sockets with one address whose user agents agree there
    get the same client id. *)
Theorem clientId_reads_eight_bytes (ip ua1 ua2 : string) :
  substring 0 8 ua1 = substring 0 8 ua2 ->
  getClientId (mkSocket ip (Some ua1)) = getClientId (mkSocket ip (Some ua2)).
Proof.
  intros H. unfold getClientId. cbn [address userAgent].
  rewrite (base64_prefix ua1), (base64_prefix ua2), H. reflexivity.
Qed.

Lemma clientId_reads_eight_bytes_witness :
  getClientId (mkSocket "10.0.0.7" (Some "Mozilla/5.0 (Windows NT 10.0)"%string)) =
  getClientId (mkSocket "10.0.0.7" (Some "Mozilla/4.0 (compatible; MSIE 6.0)"%string)).
Proof.
  apply (clientId_reads_eight_bytes "10.0.0.7" "Mozilla/5.0 (Windows NT 10.0)"
           "Mozilla/4.0 (compatible; MSIE 6.0)").
  reflexivity.
Defined.

(** X12: a check on an event with a limiter of its own leaves the global
    limiter and the limiter of every other event as they are, so the result
    of a later check on another event is what it would have been without
    it. *)
Theorem dedicated_limiter_isolated (sl : t) (socket1 socket2 : Socket)
    (event1 event2 : string) (limiter : RateLimiter.t) (t1 t2 : Z) :
  eventLimiters sl !! event1 = Some limiter ->
  event1 <> event2 ->
  let sl1 := snd (checkEventLimit sl socket1 event1 t1) in
  rateLimiter sl1 = rateLimiter sl /\
  eventLimiters sl1 !! event2 = eventLimiters sl !! event2 /\
  fst (checkEventLimit sl1 socket2 event2 t2) = fst (checkEventLimit sl socket2 event2 t2).
Proof.
  intros He Hne sl1.
  assert (H1 : rateLimiter sl1 = rateLimiter sl /\
               eventLimiters sl1 !! event2 = eventLimiters sl !! event2).
  { unfold sl1, checkEventLimit. rewrite He.
    destruct (RateLimiter.checkLimit limiter _ true t1) as [r rl].
    cbn [snd rateLimiter eventLimiters]. rewrite lookup_insert_ne by exact Hne.
    split; reflexivity. }
  destruct H1 as [Hg He2]. split; [exact Hg|]. split; [exact He2|].
  unfold checkEventLimit. rewrite He2, Hg.
  destruct (eventLimiters sl !! event2) as [l2|].
  - destruct (RateLimiter.checkLimit l2 _ true t2). reflexivity.
  - destruct (RateLimiter.checkLimit (rateLimiter sl) _ true t2). reflexivity.
Qed.

(** X13: after [blacklistSocket], until the duration has elapsed, the
    socket is denied by [checkEventLimit] on every event, with or without a
    limiter of its own, and by [middleware], each time with a retry hint. *)
Theorem blacklisted_socket_denied (sl : t) (socket : Socket) (duration : option Z)
    (event : string) (now time : Z) :
  0 <= now -> now <= time ->
  time < now + match duration with Some d => d | None => 86400000 end ->
  let sl' := blacklistSocket sl socket duration now in
  (exists h, fst (checkEventLimit sl' socket event time) = mkEventResult false (Some h)) /\
  (exists h, fst (middleware sl' socket time) = Some (mkRateLimitError (Some h))).
Proof.
  intros Hnow Hge Hlt sl'. split.
  - unfold checkEventLimit, sl', blacklistSocket. cbn [eventLimiters rateLimiter].
    rewrite lookup_fmap. destruct (eventLimiters sl !! event) as [l|]; cbn [fmap option_fmap option_map].
    + destruct (RateLimiterExtras.blacklistClient_blocks l (getClientId socket) duration
                  now time true Hnow Hge Hlt) as [h Hh].
      destruct (RateLimiter.checkLimit _ _ true time) as [r rl]. cbn [fst] in *.
      subst r. exists h. reflexivity.
    + destruct (RateLimiterExtras.blacklistClient_blocks (rateLimiter sl)
                  (getClientId socket) duration now time true Hnow Hge Hlt) as [h Hh].
      destruct (RateLimiter.checkLimit _ _ true time) as [r rl]. cbn [fst] in *.
      subst r. exists h. reflexivity.
  - unfold middleware, sl', blacklistSocket. cbn [eventLimiters rateLimiter].
    destruct (RateLimiterExtras.blacklistClient_blocks (rateLimiter sl)
                (getClientId socket) duration now time true Hnow Hge Hlt) as [h Hh].
    destruct (RateLimiter.checkLimit _ _ true time) as [r rl]. cbn [fst] in *.
    subst r. exists h. reflexivity.
Qed.
Lemma dedicated_limiter_isolated_witness :
  let sl := create RateLimiter.scenarioConfig
              (Some {["join" := RateLimiter.mkConfig 60000 1 None None]}) in
  let s := mkSocket "10.0.0.7" None in
  let sl1 := snd (checkEventLimit sl s "join" 1000) in
  rateLimiter sl1 = rateLimiter sl /\
  eventLimiters sl1 !! "offer"%string = eventLimiters sl !! "offer"%string /\
  fst (checkEventLimit sl1 s "offer" 1000) = fst (checkEventLimit sl s "offer" 1000).
Proof.
  apply (dedicated_limiter_isolated
           (create RateLimiter.scenarioConfig
              (Some {["join" := RateLimiter.mkConfig 60000 1 None None]}))
           (mkSocket "10.0.0.7" None) (mkSocket "10.0.0.7" None) "join" "offer"
           (RateLimiter.create (RateLimiter.mkConfig 60000 1 None None)) 1000 1000).
  - reflexivity.
  - discriminate.
Defined.

Lemma blacklisted_socket_denied_witness :
  let sl := create RateLimiter.scenarioConfig
              (Some {["join" := RateLimiter.mkConfig 60000 1 None None]}) in
  let s := mkSocket "10.0.0.7" None in
  let sl' := blacklistSocket sl s (Some 5000) 1000 in
  (exists h, fst (checkEventLimit sl' s "join" 2000) = mkEventResult false (Some h)) /\
  (exists h, fst (middleware sl' s 2000) = Some (mkRateLimitError (Some h))).
Proof.
  apply (blacklisted_socket_denied
           (create RateLimiter.scenarioConfig
              (Some {["join" := RateLimiter.mkConfig 60000 1 None None]}))
           (mkSocket "10.0.0.7" None) (Some 5000) "join" 1000 2000); lia.
Defined.
End SocketLimiterProofs.

(** * Further properties of the selection strategies *)

Module StrategyExtras.
Import LoadBalancer.

(** ** A selectable node is always found *)

Lemma insertByScore_length {A : Type} (score : A -> Q) (x : A) (l : list A) :
  length (insertByScore score x l) = S (length l).
Proof.
  induction l as [|y l IH]; cbn [insertByScore]; [reflexivity|].
  destruct (Qle_bool (score x) (score y)); cbn [length]; [reflexivity|].
  rewrite IH. reflexivity.
Qed.

Lemma sortByScore_length {A : Type} (score : A -> Q) (l : list A) :
  length (sortByScore score l) = length l.
Proof.
  induction l as [|x l IH]; [reflexivity|].
  change (sortByScore score (x :: l)) with (insertByScore score x (sortByScore score l)).
  rewrite insertByScore_length, IH. reflexivity.
Qed.

Lemma refreshFirst_length (n : ServerNode) (q : list QueueEntry) :
  length (refreshFirst n q) = length q.
Proof.
  induction q as [|e q IH]; [reflexivity|]. cbn [refreshFirst].
  destruct (has_id (id n) e); cbn [length]; [reflexivity | f_equal; exact IH].
Qed.

Lemma reconcile_length (q : list QueueEntry) (n : ServerNode) :
  (length q <= length (reconcile q n))%nat /\ (1 <= length (reconcile q n))%nat.
Proof.
  unfold reconcile. destruct (existsb (has_id (id n)) q) eqn:E; cbn [negb].
  - rewrite refreshFirst_length. split; [lia|].
    destruct q; [discriminate E | cbn; lia].
  - rewrite length_app. cbn [length]. lia.
Qed.

Lemma fold_reconcile_length (l : list ServerNode) : forall q : list QueueEntry,
  (length q <= length (fold_left reconcile l q))%nat.
Proof.
  induction l as [|n l IH]; intros q; cbn [fold_left]; [lia|].
  pose proof (reconcile_length q n). pose proof (IH (reconcile q n)). lia.
Qed.

Lemma updateWeightedQueue_nonempty (q : list QueueEntry) (n : ServerNode)
    (l : list ServerNode) :
  updateWeightedQueue q (n :: l) <> [].
Proof.
  unfold updateWeightedQueue. cbn [fold_left]. set (kept := List.filter _ q).
  pose proof (reconcile_length kept n) as [_ H1].
  pose proof (fold_reconcile_length l (reconcile kept n)) as H2.
  intros E. rewrite E in H2. cbn in H2. lia.
Qed.

Lemma findIndex_lookup {A : Type} (p : A -> bool) (l : list A) : forall i : nat,
  findIndex p l = Some i -> exists x, l !! i = Some x /\ p x = true.
Proof.
  induction l as [|y l IH]; intros i; cbn [findIndex]; [discriminate|].
  destruct (p y) eqn:E.
  - intros [= <-]. exists y. split; [reflexivity | exact E].
  - destruct (findIndex p l) as [j|]; [|discriminate].
    intros [= <-]. destruct (IH j eq_refl) as [x Hx]. exists x. exact Hx.
Qed.

Lemma pickEntry_some (q : list QueueEntry) :
  q <> [] -> exists r, fst (pickEntry q) = Some r.
Proof.
  intros Hne. unfold pickEntry. destruct q as [|e q]; [congruence|].
  destruct (findIndex _ (e :: q)) as [i|] eqn:E; cbn [fst].
  - destruct (findIndex_lookup _ _ _ E) as [x [Hx _]]. rewrite Hx.
    eexists. reflexivity.
  - eexists. reflexivity.
Qed.

Lemma strategy_selectServer_some (s : Strategy) (nodes : list ServerNode) :
  List.filter selectable nodes <> [] ->
  exists r, fst (strategy_selectServer s nodes) = Some r.
Proof.
  intros Hne.
  destruct s as [i| |q|]; cbn [strategy_selectServer].
  - unfold roundRobin_select.
    destruct (List.filter selectable nodes) as [|x l] eqn:E; [congruence|].
    cbn [fst].
    destruct (nth_error (x :: l) (i mod length (x :: l))%nat) as [r|] eqn:Hn;
      [exists r; reflexivity|].
    apply nth_error_None in Hn.
    pose proof (Nat.mod_upper_bound i (length (x :: l))) as Hb.
    cbn [length] in *. lia.
  - unfold leastConnections_select.
    destruct (List.filter selectable nodes) as [|x l]; [congruence|].
    eexists. reflexivity.
  - unfold weighted_select.
    destruct (List.filter selectable nodes) as [|x l] eqn:E; [congruence|].
    destruct (pickEntry_some (updateWeightedQueue q (x :: l))) as [r Hr];
      [apply updateWeightedQueue_nonempty|].
    exists r. destruct (pickEntry _). exact Hr.
  - unfold performance_select.
    destruct (List.filter selectable nodes) as [|x l] eqn:E; [congruence|].
    set (scored := sortByScore snd _).
    assert (Hlen : length scored = S (length l)).
    { unfold scored. rewrite sortByScore_length, length_map. reflexivity. }
    destruct scored as [|[m sc] rest]; [discriminate Hlen|].
    eexists. reflexivity.
Qed.

(** X14: whatever the state of the strategy object, [selectServer]
    returns a node when the list holds a healthy node below capacity. *)
Theorem selectable_node_is_found (s : Strategy) (nodes : list ServerNode)
    (n : ServerNode) :
  In n nodes -> selectable n = true ->
  exists r, fst (strategy_selectServer s nodes) = Some r.
Proof.
  intros Hin Hsel. apply strategy_selectServer_some.
  intros E. assert (H : In n (List.filter selectable nodes))
    by (apply filter_In; tauto).
  rewrite E in H. destruct H.
Qed.

Lemma selectable_node_is_found_witness :
  exists r,
    fst (strategy_selectServer (newStrategy PerformanceBased)
           [sampleNode "C" false 0 1; sampleNode "A" true 0 1]) = Some r.
Proof.
  apply (selectable_node_is_found (newStrategy PerformanceBased)
           [sampleNode "C" false 0 1; sampleNode "A" true 0 1]
           (sampleNode "A" true 0 1)).
  - right. left. reflexivity.
  - reflexivity.
Defined.

(** ** Round-robin order *)

(** X15: on a fixed node list, call [j] of the round-robin strategy
    (counting from 0, with the index at [i] before) returns the selectable
    node at position [(i + j) mod k] of the [k] selectable nodes in list
    order, and none when there is no selectable node. *)
Theorem roundRobin_rotation (n : nat) : forall (i j : nat) (nodes : list ServerNode),
  (j < n)%nat ->
  let healthyNodes := List.filter selectable nodes in
  nth_error (fst (roundRobin_run n i nodes)) j =
  Some (nth_error healthyNodes ((i + j) mod length healthyNodes)%nat).
Proof.
  induction n as [|n IH]; intros i j nodes Hj healthyNodes; [lia|].
  cbn [roundRobin_run].
  assert (Hsel : roundRobin_select i nodes =
                 (nth_error healthyNodes (i mod length healthyNodes)%nat,
                  match healthyNodes with
                  | [] => i
                  | _ :: _ => ((i + 1) mod length healthyNodes)%nat
                  end)).
  { unfold roundRobin_select. fold healthyNodes.
    destruct healthyNodes; [destruct (i mod _)%nat|]; reflexivity. }
  rewrite Hsel. set (i' := match healthyNodes with [] => i | _ => _ end).
  specialize (IH i' (pred j) nodes).
  destruct (roundRobin_run n i' nodes) as [rs k]. cbn [fst] in *.
  destruct j as [|j]; cbn [nth_error].
  - rewrite Nat.add_0_r. reflexivity.
  - cbn [pred] in IH. rewrite IH by lia. fold healthyNodes. f_equal.
    unfold i'. destruct healthyNodes as [|x l] eqn:E.
    + destruct ((i + j) mod _)%nat, ((i + S j) mod _)%nat; reflexivity.
    + f_equal. rewrite Nat.Div0.add_mod_idemp_l. f_equal. lia.
Qed.

Lemma roundRobin_rotation_witness :
  let a := sampleNode "A" true 0 1 in
  let b := sampleNode "B" true 0 1 in
  nth_error (fst (roundRobin_run 4 0 [a; sampleNode "C" false 0 1; b])) 3 = Some (Some b).
Proof.
  apply (roundRobin_rotation 4 0 3
           [sampleNode "A" true 0 1; sampleNode "C" false 0 1; sampleNode "B" true 0 1]).
  lia.
Defined.

(** ** Least connections *)

Lemma fold_least_split (rest : list ServerNode) :
  forall (l1 : list ServerNode) (m : ServerNode) (mid : list ServerNode),
    (forall x, In x l1 -> activeConnections m < activeConnections x) ->
    (forall x, In x mid -> activeConnections m <= activeConnections x) ->
    let r := fold_left
               (fun min node =>
                  if activeConnections node <? activeConnections min then node else min)
               rest m in
    exists l1' l2',
      l1 ++ m :: mid ++ rest = l1' ++ r :: l2' /\
      (forall x, In x l1' -> activeConnections r < activeConnections x) /\
      (forall x, In x l2' -> activeConnections r <= activeConnections x).
Proof.
  induction rest as [|y rest IH]; intros l1 m mid H1 H2; cbn [fold_left].
  - exists l1, mid. rewrite app_nil_r. tauto.
  - destruct (activeConnections y <? activeConnections m) eqn:E.
    + apply Z.ltb_lt in E.
      destruct (IH (l1 ++ m :: mid) y []) as [l1' [l2' [Heq H]]].
      * intros x Hx. apply in_app_or in Hx. destruct Hx as [Hx|[<-|Hx]].
        -- specialize (H1 x Hx). lia.
        -- exact E.
        -- specialize (H2 x Hx). lia.
      * intros x [].
      * exists l1', l2'. split; [|exact H]. rewrite <- Heq.
        rewrite <- app_assoc. reflexivity.
    + apply Z.ltb_ge in E.
      destruct (IH l1 m (mid ++ [y])) as [l1' [l2' [Heq H]]].
      * exact H1.
      * intros x Hx. apply in_app_or in Hx. destruct Hx as [Hx|[<-|[]]].
        -- exact (H2 x Hx).
        -- exact E.
      * exists l1', l2'. split; [|exact H]. rewrite <- Heq.
        rewrite <- app_assoc. reflexivity.
Qed.

(** X16: the node that the least-connections strategy returns has no
    more active connections than any selectable node, and strictly fewer
    than every selectable node before it in the list. *)
Theorem leastConnections_first_minimum (nodes : list ServerNode) (r : ServerNode) :
  leastConnections_select nodes = Some r ->
  exists before after,
    List.filter selectable nodes = before ++ r :: after /\
    (forall x, In x before -> activeConnections r < activeConnections x) /\
    (forall x, In x after -> activeConnections r <= activeConnections x).
Proof.
  unfold leastConnections_select.
  destruct (List.filter selectable nodes) as [|first rest]; [discriminate|].
  intros [= <-].
  destruct (fold_least_split rest [] first []) as [l1 [l2 H]];
    [intros x [] | intros x [] |].
  exists l1, l2. exact H.
Qed.

Lemma leastConnections_first_minimum_witness :
  let a := sampleNode "A" true 0 1 in
  let b := sampleNode "B" true 5 1 in
  let c := sampleNode "C" false 0 1 in
  exists before after,
    List.filter selectable [b; a; c] = before ++ a :: after /\
    (forall x, In x before -> activeConnections a < activeConnections x) /\
    (forall x, In x after -> activeConnections a <= activeConnections x).
Proof.
  apply (leastConnections_first_minimum
           [sampleNode "B" true 5 1; sampleNode "A" true 0 1; sampleNode "C" false 0 1]
           (sampleNode "A" true 0 1)).
  reflexivity.
Defined.
End StrategyExtras.

(** * Further properties of the balancer *)

Module BalancerExtras.
Import LoadBalancer.

(** ** Laws of the ordered registry *)

Lemma map_get_set_eq {V : Type} (k : string) (v : V) (m : list (string * V)) :
  map_get k (map_set k v m) = Some v.
Proof.
  induction m as [|[k' v'] m IH]; cbn [map_set map_get].
  - rewrite String.eqb_refl. reflexivity.
  - destruct (String.eqb k' k) eqn:E; cbn [map_get].
    + rewrite String.eqb_refl. reflexivity.
    + rewrite E. exact IH.
Qed.

Lemma map_get_set_ne {V : Type} (k k2 : string) (v : V) (m : list (string * V)) :
  k <> k2 -> map_get k2 (map_set k v m) = map_get k2 m.
Proof.
  intros Hne. induction m as [|[k' v'] m IH]; cbn [map_set map_get].
  - apply String.eqb_neq in Hne. rewrite Hne. reflexivity.
  - destruct (String.eqb k' k) eqn:E; cbn [map_get].
    + apply String.eqb_eq in E. subst k'. apply String.eqb_neq in Hne.
      rewrite Hne. reflexivity.
    + destruct (String.eqb k' k2); [reflexivity | exact IH].
Qed.

Lemma map_get_delete_eq {V : Type} (k : string) (m : list (string * V)) :
  map_get k (map_delete k m) = None.
Proof.
  unfold map_delete. induction m as [|[k' v'] m IH]; [reflexivity|].
  cbn [List.filter fst]. destruct (String.eqb k' k) eqn:E; cbn [negb].
  - exact IH.
  - cbn [map_get]. rewrite E. exact IH.
Qed.

Lemma map_get_delete_ne {V : Type} (k k2 : string) (m : list (string * V)) :
  k <> k2 -> map_get k2 (map_delete k m) = map_get k2 m.
Proof.
  intros Hne. unfold map_delete. induction m as [|[k' v'] m IH]; [reflexivity|].
  cbn [List.filter fst]. destruct (String.eqb k' k) eqn:E; cbn [negb map_get].
  - apply String.eqb_eq in E. subst k'. apply String.eqb_neq in Hne.
    rewrite Hne. exact IH.
  - destruct (String.eqb k' k2); [reflexivity | exact IH].
Qed.

Lemma map_get_In_key {V : Type} (k : string) (m : list (string * V)) (v : V) :
  map_get k m = Some v -> In (k, v) m.
Proof.
  induction m as [|[k' v'] m IH]; cbn [map_get]; [discriminate|].
  destruct (String.eqb k' k) eqn:E.
  - apply String.eqb_eq in E. intros [= <-]. left. congruence.
  - intros H. right. exact (IH H).
Qed.

Lemma map_get_of_In {V : Type} (k : string) (m : list (string * V)) (v : V) :
  List.NoDup (List.map fst m) -> In (k, v) m -> map_get k m = Some v.
Proof.
  induction m as [|[k' v'] m IH]; intros Hnd Hin; [destruct Hin|].
  cbn [List.map fst] in Hnd. apply List.NoDup_cons_iff in Hnd. destruct Hnd as [Hnotin Hnd].
  cbn [map_get]. destruct Hin as [Hin|Hin].
  - injection Hin as -> ->. rewrite String.eqb_refl. reflexivity.
  - destruct (String.eqb k' k) eqn:E.
    + apply String.eqb_eq in E. subst k'. exfalso. apply Hnotin.
      apply in_map_iff. exists (k, v). split; [reflexivity | exact Hin].
    + apply IH; assumption.
Qed.

Lemma map_set_keys {V : Type} (k : string) (v : V) (m : list (string * V)) :
  List.map fst (map_set k v m) =
  if existsb (String.eqb k) (List.map fst m) then List.map fst m
  else List.map fst m ++ [k].
Proof.
  induction m as [|[k' v'] m IH]; [reflexivity|].
  cbn [map_set List.map fst existsb]. rewrite (String.eqb_sym k k').
  destruct (String.eqb k' k) eqn:E; cbn [orb List.map fst].
  - apply String.eqb_eq in E. subst k'. reflexivity.
  - rewrite IH. destruct (existsb _ _); reflexivity.
Qed.

Lemma map_set_same {V : Type} (k : string) (v : V) (m : list (string * V)) :
  map_get k m = Some v -> map_set k v m = m.
Proof.
  induction m as [|[k' v'] m IH]; cbn [map_get map_set]; [discriminate|].
  destruct (String.eqb k' k) eqn:E.
  - apply String.eqb_eq in E. intros [= <-]. congruence.
  - intros H. f_equal. exact (IH H).
Qed.

Lemma map_set_set {V : Type} (k : string) (v1 v2 : V) (m : list (string * V)) :
  map_set k v2 (map_set k v1 m) = map_set k v2 m.
Proof.
  induction m as [|[k' v'] m IH]; cbn [map_set].
  - rewrite String.eqb_refl. reflexivity.
  - destruct (String.eqb k' k) eqn:E; cbn [map_set].
    + rewrite String.eqb_refl. reflexivity.
    + rewrite E, IH. reflexivity.
Qed.

Lemma keys_NoDup_set {V : Type} (k : string) (v : V) (m : list (string * V)) :
  List.NoDup (List.map fst m) -> List.NoDup (List.map fst (map_set k v m)).
Proof.
  intros Hnd. rewrite map_set_keys.
  destruct (existsb (String.eqb k) (List.map fst m)) eqn:E; [exact Hnd|].
  apply List.NoDup_app; [exact Hnd | constructor; [intros [] | constructor] |].
  intros x Hx [<-|[]].
  assert (existsb (String.eqb k) (List.map fst m) = true); [|congruence].
  apply existsb_exists. exists k. split; [exact Hx | apply String.eqb_refl].
Qed.

Lemma keys_NoDup_delete {V : Type} (k : string) (m : list (string * V)) :
  List.NoDup (List.map fst m) -> List.NoDup (List.map fst (map_delete k m)).
Proof.
  unfold map_delete. induction m as [|[k' v'] m IH]; intros Hnd; [exact Hnd|].
  cbn [List.map fst List.filter] in *.
  apply List.NoDup_cons_iff in Hnd. destruct Hnd as [Hnotin Hnd].
  destruct (negb (String.eqb k' k)); [|exact (IH Hnd)].
  cbn [List.map fst]. constructor; [|exact (IH Hnd)].
  intros Hin. apply Hnotin. apply in_map_iff in Hin.
  destruct Hin as [kv [Hk Hkv]]. apply filter_In in Hkv.
  apply in_map_iff. exists kv. tauto.
Qed.

Lemma set_Forall {V : Type} (P : string * V -> Prop) (k : string) (v : V)
    (m : list (string * V)) :
  P (k, v) -> Forall P m -> Forall P (map_set k v m).
Proof.
  intros Hv. induction 1 as [|[k' v'] m Hx Hm IH]; cbn [map_set].
  - constructor; [exact Hv | constructor].
  - destruct (String.eqb k' k); constructor; assumption.
Qed.

(** A registered node is stored under its own identifier. *)
Lemma registered_key (lb : t) (serverId : string) (node : ServerNode) :
  registryWellKeyed lb -> map_get serverId (nodes lb) = Some node ->
  serverId = id node.
Proof.
  intros [_ Hk] Hget. apply map_get_In_key in Hget.
  rewrite List.Forall_forall in Hk. exact (Hk _ Hget).
Qed.

Lemma wellKeyed_update (lb : t) (serverId : string) (node node' : ServerNode) :
  registryWellKeyed lb -> map_get serverId (nodes lb) = Some node ->
  id node' = id node ->
  registryWellKeyed (with_nodes (map_set serverId node' (nodes lb)) lb).
Proof.
  intros Hwk Hget Hid. pose proof (registered_key lb serverId node Hwk Hget) as Hkey.
  destruct Hwk as [Hnd Hk]. split; cbn [with_nodes nodes].
  - apply keys_NoDup_set. exact Hnd.
  - apply set_Forall; [cbn; congruence | exact Hk].
Qed.

Lemma assignStats_id (stats : Stats) (node : ServerNode) :
  id (assignStats stats node) = id node.
Proof.
  unfold assignStats.
  destruct (stat_cpuUsage stats), (stat_memoryUsage stats), (stat_responseTime stats),
    (stat_activeConnections stats); reflexivity.
Qed.

(** X17: every operation of the balancer keeps the registry holding
    each node under its own identifier and no identifier twice. *)
Theorem registry_stays_well_keyed (lb : t) (op : Op) :
  registryWellKeyed lb -> registryWellKeyed (step lb op).
Proof.
  intros Hwk. destruct op; cbn [step]; try exact Hwk.
  - destruct Hwk as [Hnd Hk]. split; cbn [addServer fst with_nodes nodes id].
    + apply keys_NoDup_set. exact Hnd.
    + apply set_Forall; [reflexivity | exact Hk].
  - unfold removeServer. destruct (map_get serverId (nodes lb)); cbn [fst snd]; [|exact Hwk].
    destruct Hwk as [Hnd Hk]. split; cbn [with_nodes nodes].
    + apply keys_NoDup_delete. exact Hnd.
    + unfold map_delete. rewrite List.Forall_forall in *. intros kv Hkv.
      apply filter_In in Hkv. apply Hk. tauto.
  - unfold updateServerStats. destruct (map_get serverId (nodes lb)) as [node|] eqn:E;
      cbn [fst]; [|exact Hwk].
    apply (wellKeyed_update lb serverId node); [exact Hwk | exact E | apply assignStats_id].
  - unfold selectServer. destruct (strategy_selectServer _ _). exact Hwk.
  - unfold incrementConnection. destruct (map_get serverId (nodes lb)) as [node|] eqn:E;
      cbn [fst]; [|exact Hwk].
    apply (wellKeyed_update lb serverId node); [exact Hwk | exact E | reflexivity].
  - unfold decrementConnection. destruct (map_get serverId (nodes lb)) as [node|] eqn:E;
      cbn [fst]; [|exact Hwk].
    apply (wellKeyed_update lb serverId node); [exact Hwk | exact E | reflexivity].
  - unfold startHealthChecks. destruct (healthCheckInterval lb); exact Hwk.
  - unfold stopHealthChecks. destruct (healthCheckInterval lb); exact Hwk.
  - unfold probeResolved. destruct probed as [serverId|detached]; [|exact Hwk].
    destruct (map_get serverId (nodes lb)) as [node|] eqn:E; cbn [fst]; [|exact Hwk].
    apply (wellKeyed_update lb serverId node); [exact Hwk | exact E | reflexivity].
  - unfold probeRejected. destruct probed as [serverId|detached]; [|exact Hwk].
    destruct (map_get serverId (nodes lb)) as [node|] eqn:E; cbn [fst]; [|exact Hwk].
    apply (wellKeyed_update lb serverId node); [exact Hwk | exact E | reflexivity].
  - unfold getStickyServer. destruct (stickySessionMap lb !! sessionId) as [sid|]; [|exact Hwk].
    destruct (truthy_str sid); [|exact Hwk].
    destruct (map_get sid (nodes lb)) as [srv|]; [|exact Hwk].
    destruct (isHealthy srv && _); exact Hwk.
  - unfold isCircuitOpen. destruct (circuitBreakers lb !! serverId) as [b|]; [|exact Hwk].
    destruct (state b); try exact Hwk. destruct (60000 <? _); exact Hwk.
  - unfold recordFailure. cbn [failures]. destruct (5 <=? _); exact Hwk.
  - unfold recordSuccess. destruct (circuitBreakers lb !! serverId) as [b|]; [|exact Hwk].
    destruct (state b); exact Hwk.
Qed.

(** X18: after [addServer(config)], [getServerById] returns for
    [config.id] the new node, unhealthy and with no connections, and for any
    other id what it returned before; after [removeServer(id)] it returns
    nothing for [id] and for any other id what it returned before. *)
Theorem registry_lookup_laws (lb : t) (config : ServerConfig) (serverId i : string) :
  getServerById (fst (addServer lb config)) i =
    (if String.eqb (cfg_id config) i
     then Some (mkNode (cfg_id config) (cfg_host config) (cfg_port config) false 0 0
                       (cfg_maxConnections config) (cfg_cpuUsage config)
                       (cfg_memoryUsage config) (cfg_responseTime config)
                       (cfg_weight config))
     else getServerById lb i) /\
  getServerById (snd (fst (removeServer lb serverId))) i =
    (if String.eqb serverId i then None else getServerById lb i).
Proof.
  unfold getServerById. split.
  - cbn [addServer fst with_nodes nodes id].
    destruct (String.eqb (cfg_id config) i) eqn:E.
    + apply String.eqb_eq in E. subst i. apply map_get_set_eq.
    + apply String.eqb_neq in E. apply map_get_set_ne. exact E.
  - unfold removeServer. destruct (map_get serverId (nodes lb)) eqn:Hget;
      cbn [fst snd with_nodes nodes].
    + destruct (String.eqb serverId i) eqn:E.
      * apply String.eqb_eq in E. subst i. apply map_get_delete_eq.
      * apply String.eqb_neq in E. apply map_get_delete_ne. exact E.
    + destruct (String.eqb serverId i) eqn:E; [|reflexivity].
      apply String.eqb_eq in E. subst i. exact Hget.
Qed.

(** X19: [incrementConnection] followed by [decrementConnection] on a
    registered node whose counter is an integer from 0 to 2^53 - 1, the
    range in which a double counts in steps of one, leaves the balancer
    exactly as it was. *)
Theorem increment_then_decrement (lb : t) (serverId : string) (node : ServerNode) :
  map_get serverId (nodes lb) = Some node ->
  0 <= activeConnections node < 2 ^ 53 ->
  fst (decrementConnection (fst (incrementConnection lb serverId)) serverId) = lb.
Proof.
  intros Hget [Hpos Hsafe]. unfold incrementConnection. rewrite Hget. cbn [fst].
  unfold decrementConnection. cbn [with_nodes nodes]. rewrite map_get_set_eq.
  cbn [fst with_nodes nodes strategy healthCheckInterval stickySessionMap circuitBreakers].
  rewrite map_set_set.
  replace (set_activeConnections _ (set_activeConnections _ node)) with node.
  - rewrite map_set_same by exact Hget. destruct lb; reflexivity.
  - destruct node as [i h p hl lc a m cu mu rt w]. cbn in *.
    unfold set_activeConnections. cbn. f_equal. lia.
Qed.

Lemma increment_then_decrement_witness :
  fst (decrementConnection (fst (incrementConnection oneNodeBalancer "A")) "A") =
  oneNodeBalancer.
Proof.
  apply (increment_then_decrement oneNodeBalancer "A"
           (mkNode "A" "10.0.0.1" 8080 true 5 0 10 0 0 (inject_Z (5 - 0)) 1)).
  - reflexivity.
  - cbn. lia.
Defined.

(** ** Selection through the balancer *)

Lemma value_registered (lb : t) (n : ServerNode) :
  registryWellKeyed lb -> In n (map_values (nodes lb)) ->
  map_get (id n) (nodes lb) = Some n.
Proof.
  intros [Hnd Hk] Hin. unfold map_values in Hin. apply in_map_iff in Hin.
  destruct Hin as [[k v] [Hv Hkv]]. cbn [snd] in Hv. subst v.
  rewrite List.Forall_forall in Hk. pose proof (Hk _ Hkv) as Hkey. cbn in Hkey.
  subst k. apply map_get_of_In; assumption.
Qed.

(** X20: on a balancer whose registry is well keyed,
    [LoadBalancer.selectServer] changes no node; a node it returns is the
    one registered under its id, healthy and below capacity, and is announced
    by [server-selected]; when it returns none, no registered node is
    selectable and [no-server-available] is emitted. *)
Theorem selectServer_registered (lb : t) :
  registryWellKeyed lb -> wellFormed (strategy lb) ->
  let result := selectServer lb in
  nodes (snd (fst result)) = nodes lb /\
  wellFormed (strategy (snd (fst result))) /\
  match fst (fst result) with
  | Some n =>
      getServerById lb (id n) = Some n /\ isHealthy n = true /\
      activeConnections n < maxConnections n /\ snd result = [server_selected n]
  | None =>
      (forall n, In n (getAllServers lb) -> selectable n = false) /\
      snd result = [no_server_available]
  end.
Proof.
  intros Hwk Hwf result. unfold result, selectServer.
  pose proof (StrategyProofs.strategy_selectServer_in (strategy lb)
                (map_values (nodes lb))) as Hin.
  pose proof (StrategyProofs.strategy_selectServer_wellFormed (strategy lb)
                (map_values (nodes lb)) Hwf) as Hwf'.
  pose proof (StrategyExtras.strategy_selectServer_some (strategy lb)
                (map_values (nodes lb))) as Hfound.
  destruct (strategy_selectServer (strategy lb) (map_values (nodes lb))) as [sel s'].
  cbn [fst snd with_strategy nodes strategy] in *.
  split; [reflexivity|]. split; [exact Hwf'|].
  destruct sel as [n|].
  - specialize (Hin n Hwf eq_refl). apply filter_In in Hin. destruct Hin as [Hin Hsel].
    apply StrategyProofs.selectable_spec in Hsel.
    split; [apply value_registered; assumption|]. tauto.
  - split; [|reflexivity]. intros n Hn. unfold getAllServers in Hn.
    destruct (selectable n) eqn:E; [|reflexivity].
    destruct Hfound as [r Hr]; [|discriminate Hr].
    intros E0. assert (H : In n (List.filter selectable (map_values (nodes lb))))
      by (apply filter_In; tauto).
    rewrite E0 in H. destruct H.
Qed.

Lemma oneNodeBalancer_wellKeyed : registryWellKeyed oneNodeBalancer.
Proof.
  split; cbn.
  - constructor; [intros [] | constructor].
  - constructor; [reflexivity | constructor].
Qed.

Lemma registry_stays_well_keyed_witness :
  registryWellKeyed (step oneNodeBalancer (AddServer (sampleConfig "B" 2))).
Proof.
  apply (registry_stays_well_keyed oneNodeBalancer (AddServer (sampleConfig "B" 2))).
  apply oneNodeBalancer_wellKeyed.
Defined.

Lemma unselectable_not_selected (lb : t) (serverId : string) (node n : ServerNode) :
  registryWellKeyed lb -> wellFormed (strategy lb) ->
  map_get serverId (nodes lb) = Some node -> selectable node = false ->
  fst (fst (selectServer lb)) = Some n -> id n <> serverId.
Proof.
  intros Hwk Hwf Hget Hun Hsel Hid. unfold selectServer in Hsel.
  pose proof (StrategyProofs.strategy_selectServer_in (strategy lb)
                (map_values (nodes lb)) n Hwf) as Hin.
  destruct (strategy_selectServer _ _) as [sel s']. cbn [fst] in *.
  specialize (Hin Hsel). apply filter_In in Hin. destruct Hin as [Hin Hs].
  pose proof (value_registered _ n Hwk Hin) as Hget'. rewrite Hid, Hget in Hget'.
  congruence.
Qed.

Lemma unregistered_not_selected (lb : t) (serverId : string) (n : ServerNode) :
  registryWellKeyed lb -> wellFormed (strategy lb) ->
  map_get serverId (nodes lb) = None ->
  fst (fst (selectServer lb)) = Some n -> id n <> serverId.
Proof.
  intros Hwk Hwf Hget Hsel Hid. unfold selectServer in Hsel.
  pose proof (StrategyProofs.strategy_selectServer_in (strategy lb)
                (map_values (nodes lb)) n Hwf) as Hin.
  destruct (strategy_selectServer _ _) as [sel s']. cbn [fst] in *.
  specialize (Hin Hsel). apply filter_In in Hin. destruct Hin as [Hin _].
  pose proof (value_registered _ n Hwk Hin) as Hget'. rewrite Hid in Hget'. congruence.
Qed.

Lemma selectServer_registered_witness :
  let result := selectServer oneNodeBalancer in
  nodes (snd (fst result)) = nodes oneNodeBalancer /\
  wellFormed (strategy (snd (fst result))) /\
  match fst (fst result) with
  | Some n =>
      getServerById oneNodeBalancer (id n) = Some n /\ isHealthy n = true /\
      activeConnections n < maxConnections n /\ snd result = [server_selected n]
  | None =>
      (forall n, In n (getAllServers oneNodeBalancer) -> selectable n = false) /\
      snd result = [no_server_available]
  end.
Proof.
  apply (selectServer_registered oneNodeBalancer).
  - apply oneNodeBalancer_wellKeyed.
  - exact I.
Defined.

(** X21: once the [catch] block of a health probe has run on the node
    object that the registry holds under an id, [selectServer] does not
    return a node with that id. A rejected probe of an object that has left
    the registry (removed, or replaced by a second [addServer] of its id)
    changes nothing in the balancer, so that a node registered under that
    id stays as selectable as it was. *)
Theorem failed_probe_excludes_node (lb : t) (serverId : string) (startTime now : Z) :
  registryWellKeyed lb -> wellFormed (strategy lb) ->
  (forall n,
     fst (fst (selectServer (fst (probeRejected lb (Registered serverId) startTime now))))
       = Some n ->
     id n <> serverId) /\
  (forall detached,
     fst (probeRejected lb (Detached detached) startTime now) = lb).
Proof.
  intros Hwk Hwf. split; [|reflexivity].
  intros n. unfold probeRejected.
  destruct (map_get serverId (nodes lb)) as [node|] eqn:E; cbn [fst rejected].
  - set (node' := set_health false now _ node).
    apply (unselectable_not_selected _ serverId node').
    + apply (wellKeyed_update lb serverId node); [exact Hwk | exact E | reflexivity].
    + exact Hwf.
    + cbn [with_nodes nodes]. apply map_get_set_eq.
    + reflexivity.
  - apply unregistered_not_selected; assumption.
Qed.

Lemma failed_probe_excludes_node_witness :
  let lb := fst (probeResolved (fst (addServer oneNodeBalancer (sampleConfig "B" 1)))
                               (Registered "B") true 0 0) in
  (forall n,
     fst (fst (selectServer (fst (probeRejected lb (Registered "A") 10 15)))) = Some n ->
     id n <> "A"%string) /\
  (forall detached, fst (probeRejected lb (Detached detached) 10 15) = lb).
Proof.
  cbn zeta.
  apply (failed_probe_excludes_node
           (fst (probeResolved (fst (addServer oneNodeBalancer (sampleConfig "B" 1)))
                               (Registered "B") true 0 0))
           "A" 10 15).
  - split; cbn.
    + repeat constructor; cbn; intuition discriminate.
    + repeat constructor.
  - exact I.
Defined.

(** [addServer] twice for ["A"], the probe of the second node object
    succeeds and the probe of the first, which the second replaced, is
    rejected afterwards: ["A"] is selected all the same, and the rejected
    probe reports the object it was started with. *)
Example stale_probe_keeps_node_selectable :
  let first := fst (addServer (create (RoundRobinStrategy 0)) (sampleConfig "A" 1)) in
  let second := fst (addServer first (sampleConfig "A" 1)) in
  let probed := fst (probeResolved second (Registered "A") true 0 5) in
  let stale := probeRejected probed (Detached (sampleNode "A" false 0 1)) 0 7 in
  id <$> fst (fst (selectServer (fst stale))) = Some "A"%string /\
  snd stale = [health_check_failed (set_health false 7 (inject_Z 7) (sampleNode "A" false 0 1))].
Proof. vm_compute. split; reflexivity. Qed.

(** X22: right after [addServer], [selectServer] does not return the
    new node: it is registered unhealthy. *)
Theorem new_server_waits_for_probe (lb : t) (config : ServerConfig) (n : ServerNode) :
  registryWellKeyed lb -> wellFormed (strategy lb) ->
  fst (fst (selectServer (fst (addServer lb config)))) = Some n ->
  id n <> cfg_id config.
Proof.
  intros Hwk Hwf.
  apply (unselectable_not_selected _ (cfg_id config)
           (mkNode (cfg_id config) (cfg_host config) (cfg_port config) false 0 0
                   (cfg_maxConnections config) (cfg_cpuUsage config)
                   (cfg_memoryUsage config) (cfg_responseTime config)
                   (cfg_weight config))).
  - destruct Hwk as [Hnd Hk]. split; cbn [addServer fst with_nodes nodes id].
    + apply keys_NoDup_set. exact Hnd.
    + apply set_Forall; [reflexivity | exact Hk].
  - exact Hwf.
  - cbn [addServer fst with_nodes nodes id]. apply map_get_set_eq.
  - reflexivity.
Qed.

Lemma new_server_waits_for_probe_witness :
  id (sampleNode "A" true 0 1) <> "B"%string.
Proof.
  apply (new_server_waits_for_probe
           (fst (probeResolved (fst (addServer (create (RoundRobinStrategy 0))
                                               (sampleConfig "A" 1)))
                               (Registered "A") true 0 0))
           (sampleConfig "B" 1) (sampleNode "A" true 0 1)).
  - split; cbn.
    + repeat constructor; cbn; intuition discriminate.
    + repeat constructor.
  - exact I.
  - reflexivity.
Defined.

(** ** Breakers and sticky sessions *)

Lemma recordFailure_open (lb : t) (serverId target : string) (now : Z) :
  breakerState lb target = Some open ->
  breakerState (fst (recordFailure lb serverId now)) target = Some open.
Proof.
  unfold breakerState, recordFailure. cbn [failures lastFailureTime state].
  intros Hopen. destruct (decide (serverId = target)) as [->|Hne].
  - destruct (circuitBreakers lb !! target) as [b|]; [|discriminate Hopen].
    cbn in Hopen. injection Hopen as Hopen.
    destruct (5 <=? _); cbn [fst with_breakers circuitBreakers];
      rewrite lookup_insert_eq; cbn; congruence.
  - destruct (5 <=? _); cbn [fst with_breakers circuitBreakers];
      rewrite lookup_insert_ne by exact Hne; exact Hopen.
Qed.

Lemma recordSuccess_open (lb : t) (serverId target : string) :
  breakerState lb target = Some open ->
  breakerState (fst (recordSuccess lb serverId)) target = Some open.
Proof.
  unfold breakerState, recordSuccess. intros Hopen.
  destruct (circuitBreakers lb !! serverId) as [b|] eqn:E; [|exact Hopen].
  destruct (state b) eqn:Hs; try exact Hopen.
  cbn [fst with_breakers circuitBreakers].
  destruct (decide (serverId = target)) as [->|Hne].
  - rewrite E in Hopen. cbn in Hopen. congruence.
  - rewrite lookup_insert_ne by exact Hne. exact Hopen.
Qed.

(** X23: no sequence of [recordFailure] and [recordSuccess] calls, on
    any server ids, takes an open breaker out of the open state. *)
Theorem open_breaker_stays_open (events : list BreakerEvent) : forall (lb : t)
    (target : string),
  breakerState lb target = Some open ->
  breakerState (fold_left recordEvent events lb) target = Some open.
Proof.
  induction events as [|e events IH]; intros lb target Hopen; [exact Hopen|].
  cbn [fold_left]. apply IH. destruct e as [serverId now|serverId]; cbn [recordEvent].
  - apply recordFailure_open. exact Hopen.
  - apply recordSuccess_open. exact Hopen.
Qed.

Lemma open_breaker_stays_open_witness :
  breakerState
    (fold_left recordEvent [Success "A"; Failure "B" 7; Failure "A" 8]
       (recordFailures (create (RoundRobinStrategy 0)) "A" [1; 2; 3; 4; 5]))
    "A" = Some open.
Proof.
  apply (open_breaker_stays_open [Success "A"; Failure "B" 7; Failure "A" 8]
           (recordFailures (create (RoundRobinStrategy 0)) "A" [1; 2; 3; 4; 5]) "A").
  reflexivity.
Defined.

(** X24: [removeServer] keeps the sticky sessions of the server; the
    next [getStickyServer] for such a session returns none and deletes the
    mapping. *)
Theorem removed_server_loses_sticky_sessions (lb : t) (sessionId serverId : string) :
  stickySessionMap lb !! sessionId = Some serverId ->
  serverId <> EmptyString ->
  let lb1 := snd (fst (removeServer lb serverId)) in
  stickySessionMap lb1 !! sessionId = Some serverId /\
  getStickyServer lb1 sessionId =
  (None, with_sticky (delete sessionId (stickySessionMap lb1)) lb1).
Proof.
  intros Hs Hne lb1.
  assert (H1 : stickySessionMap lb1 = stickySessionMap lb /\
               map_get serverId (nodes lb1) = None).
  { unfold lb1, removeServer. destruct (map_get serverId (nodes lb)) eqn:E;
      cbn [fst snd with_nodes nodes stickySessionMap].
    - split; [reflexivity | apply map_get_delete_eq].
    - split; [reflexivity | exact E]. }
  destruct H1 as [Hst Hget]. split; [rewrite Hst; exact Hs|].
  unfold getStickyServer. rewrite Hst, Hs.
  destruct serverId; [congruence|]. cbn [truthy_str]. rewrite Hget. reflexivity.
Qed.

Lemma removed_server_loses_sticky_sessions_witness :
  let lb := assignStickySession oneNodeBalancer "s1" "A" in
  let lb1 := snd (fst (removeServer lb "A")) in
  stickySessionMap lb1 !! "s1"%string = Some "A"%string /\
  getStickyServer lb1 "s1" =
  (None, with_sticky (delete "s1"%string (stickySessionMap lb1)) lb1).
Proof.
  apply (removed_server_loses_sticky_sessions
           (assignStickySession oneNodeBalancer "s1" "A") "s1" "A").
  - reflexivity.
  - discriminate.
Defined.

(** ** The two reports *)

Lemma filter_split_length {A : Type} (p : A -> bool) (l : list A) :
  (length (List.filter p l) + length (List.filter (fun x => negb (p x)) l))%nat = length l.
Proof.
  induction l as [|x l IH]; [reflexivity|].
  cbn [List.filter]. destruct (p x); cbn [negb length]; lia.
Qed.

Lemma fold_sum_nonneg (l : list ServerNode) : forall acc : Z,
  0 <= acc -> Forall (fun n => 0 <= activeConnections n) l ->
  0 <= fold_left (fun sum node => sum + activeConnections node) l acc.
Proof.
  induction l as [|x l IH]; intros acc Hacc Hall; [exact Hacc|].
  cbn [fold_left]. apply List.Forall_cons_iff in Hall. destruct Hall as [Hx Hl].
  apply IH; [lia | exact Hl].
Qed.

(** X25: [getServerStatus] splits the nodes into two lists whose lengths
    add up to its total, [getLoadBalancingStats] reports the same total and
    healthy count, its [totalConnections] is non-negative when every counter
    is, and its [averageLoad] is 0 when no node is healthy. *)
Theorem reports_agree (lb : t) :
  countersNonNegative lb ->
  let '(healthy, unhealthy, total) := getServerStatus lb in
  let stats := getLoadBalancingStats lb in
  (length healthy + length unhealthy)%nat = total /\
  stat_totalServers stats = total /\
  stat_healthyServers stats = length healthy /\
  0 <= stat_totalConnections stats /\
  (healthy = [] -> Qeq (stat_averageLoad stats) 0).
Proof.
  intros Hinv. unfold getServerStatus, getLoadBalancingStats.
  cbn [stat_totalServers stat_healthyServers stat_totalConnections stat_averageLoad].
  split; [apply filter_split_length|]. split; [reflexivity|]. split; [reflexivity|].
  split.
  - apply fold_sum_nonneg; [lia|]. unfold countersNonNegative, map_values in *.
    apply List.Forall_forall. intros n Hn. apply in_map_iff in Hn.
    destruct Hn as [kv [<- Hkv]]. rewrite List.Forall_forall in Hinv. exact (Hinv kv Hkv).
  - intros ->. reflexivity.
Qed.

Lemma reports_agree_witness :
  let '(healthy, unhealthy, total) := getServerStatus staleStickyBalancer in
  let stats := getLoadBalancingStats staleStickyBalancer in
  (length healthy + length unhealthy)%nat = total /\
  stat_totalServers stats = total /\
  stat_healthyServers stats = length healthy /\
  0 <= stat_totalConnections stats /\
  (healthy = [] -> Qeq (stat_averageLoad stats) 0).
Proof.
  apply (reports_agree staleStickyBalancer).
  repeat constructor. cbn. lia.
Defined.
End BalancerExtras.
